(** * Treeomics mutation-table plots: layout and encoding core

    A shallow embedding of [src/treeomics/plots/plots.py]: the priority
    computation, column ordering and cell geometry of [hinton] and
    [clustered_table], the per-cell encodings of
    [create_incompatible_mp_table], and the label formatter
    [_format_gene_name].

    Conventions of the embedding.
    - The entries of the mutation matrix are Python floats that the code only
      compares ([maf > 0], [maf == POS_UNKNOWN]); they are rationals [Q] here,
      compared with [Qlt_bool] and [Qeq_bool].  Read counts and coverages are
      converted by the source with [float(...)]; they are rationals as well,
      and a real number where the logarithm is taken.  Rounding is not
      modelled.
    - Python's unbounded integers are [Z]; list positions are [nat], so the
      negative positions that Python counts from the end are left out.
    - A Python list read by position is stdpp's lookup [l !! i]; reading past
      the end raises [IndexError], which the [result] monad records.
    - The two sentinels [POS_UNKNOWN] and [NEG_UNKNOWN] are imported by the
      source from [utils.int_settings], which is not part of the embedded
      file: they are the fields of the class [int_settings].
    - Of matplotlib and scipy two calls are modelled, by what they accept:
      [plt.figure], which raises [ValueError] for a figure size with a negative
      side, and [sch.dendrogram], which raises [ValueError] unless it can
      return one leaf per sample name.  The drawing calls are not modelled; a
      figure is the list of rectangles and texts handed to the axes, in the
      order of the calls. *)

From Stdlib Require Import ZArith QArith Qminmax Reals Qreals Lqa Lra Lia Bool.
From Stdlib Require Import Ascii String Sorting.Sorted Sorting.Permutation.
From Stdlib Require Import Structures.OrdersEx.
From stdpp Require Import base list.

Local Open Scope Z_scope.

(** * Part I: the embedding *)

(** ** Exceptions *)

Inductive exn : Set :=
| IndexError
| ZeroDivisionError
| ValueError.

Inductive result (A : Type) : Type :=
| Ok (a : A)
| Raise (e : exn).

Arguments Ok {A} a.
Arguments Raise {A} e.

Definition bind {A B : Type} (m : result A) (k : A -> result B) : result B :=
  match m with
  | Ok a => k a
  | Raise e => Raise e
  end.

Notation "'let*' x ':=' m 'in' k" := (bind m (fun x => k))
  (at level 10, x name, m at level 100, k at level 200).

(** ** Python lists and loops *)

(** [l[i]] for a non-negative position [i]. *)
Definition index {A : Type} (l : list A) (i : nat) : result A :=
  match l !! i with
  | Some a => Ok a
  | None => Raise IndexError
  end.

(** [for x in l: body], threading the loop state and stopping at the first
    exception. *)
Fixpoint for_each {A S : Type} (body : A -> S -> result S) (l : list A) (s : S)
  : result S :=
  match l with
  | [] => Ok s
  | a :: l' => let* s' := body a s in for_each body l' s'
  end.

(** [enumerate(l)], counting from [start]. *)
Fixpoint enumerate_from {A : Type} (start : nat) (l : list A) : list (nat * A) :=
  match l with
  | [] => []
  | a :: l' => (start, a) :: enumerate_from (S start) l'
  end.

Definition enumerate {A : Type} (l : list A) : list (nat * A) := enumerate_from 0 l.

(** [a < b] on rationals, as a boolean. *)
Definition Qlt_bool (a b : Q) : bool := negb (Qle_bool b a).

(** ** Python strings *)

Definition dquote : ascii := ascii_of_nat 34.

(** [s.replace(old, new)] for a one-character [old]. *)
Fixpoint str_replace (old : ascii) (new : string) (s : string) : string :=
  match s with
  | EmptyString => EmptyString
  | String c s' =>
      if Ascii.eqb c old then (new ++ str_replace old new s')%string
      else String c (str_replace old new s')
  end.

Fixpoint str_find_from (c : ascii) (s : string) (pos start : nat) : Z :=
  match s with
  | EmptyString => -1
  | String a s' =>
      if (start <=? pos)%nat && Ascii.eqb a c then Z.of_nat pos
      else str_find_from c s' (S pos) start
  end.

(** [s.find(c, start)]: the first position at or after [start] that holds
    [c], or [-1]. *)
Definition str_find (c : ascii) (s : string) (start : nat) : Z :=
  str_find_from c s 0 start.

Fixpoint str_take (k : nat) (s : string) : string :=
  match k, s with
  | S k', String c s' => String c (str_take k' s')
  | _, _ => EmptyString
  end.

(** [s[:stop]]: a negative [stop] counts from the end, and the bounds are
    clipped to the string. *)
Definition str_slice_to (s : string) (stop : Z) : string :=
  let len := Z.of_nat (String.length s) in
  let stop := if stop <? 0 then Z.max 0 (stop + len) else stop in
  str_take (Z.to_nat stop) s.

(** [c in s]. *)
Fixpoint str_contains (c : ascii) (s : string) : bool :=
  match s with
  | EmptyString => false
  | String a s' => Ascii.eqb a c || str_contains c s'
  end.

(** Comparison of two [str] values: by character codes, case-sensitive. *)
Definition string_ltb (a b : string) : bool :=
  match String_as_OT.compare a b with
  | Lt => true
  | _ => false
  end.

(** ** [sorted(iterable, key=...)]

    Python computes the key of every element once, in order, and then sorts
    stably using only [<] on the keys. *)

Section Sorted.
Context {K A : Type} (ltb : K -> K -> bool).

Fixpoint insert_keyed (x : K * A) (l : list (K * A)) : list (K * A) :=
  match l with
  | [] => [x]
  | y :: l' =>
      if ltb (fst y) (fst x) then y :: insert_keyed x l' else x :: y :: l'
  end.

Definition sort_keyed (l : list (K * A)) : list (K * A) :=
  foldr insert_keyed [] l.

Fixpoint decorate (key : A -> result K) (l : list A) : result (list (K * A)) :=
  match l with
  | [] => Ok []
  | a :: l' =>
      let* k := key a in
      let* kl := decorate key l' in
      Ok ((k, a) :: kl)
  end.

Definition sorted (key : A -> result K) (l : list A) : result (list A) :=
  let* kl := decorate key l in
  Ok (map snd (sort_keyed kl)).
End Sorted.

(** The same stable insertion sort for a key function that cannot fail, on
    the elements themselves; [sorted] is shown to compute it. *)
Section SortBy.
Context {K A : Type} (ltb : K -> K -> bool) (kf : A -> K).

Fixpoint insert_by (x : A) (l : list A) : list A :=
  match l with
  | [] => [x]
  | y :: l' => if ltb (kf y) (kf x) then y :: insert_by x l' else x :: y :: l'
  end.

Definition sort_by (l : list A) : list A := foldr insert_by [] l.

(** Two keys that [<] does not separate. *)
Definition same_key (k1 k2 : K) : bool := negb (ltb k1 k2) && negb (ltb k2 k1).
End SortBy.

(** [<] on the tuples used as sort keys: the first components decide unless
    they are equal. *)
Definition key_name_ltb (x y : Z * string) : bool :=
  if fst x =? fst y then string_ltb (snd x) (snd y) else fst x <? fst y.

Definition key_num_ltb (x y : Z * Z) : bool :=
  if fst x =? fst y then snd x <? snd y else fst x <? fst y.

(** ** Drawing primitives *)

Inductive color : Type :=
| NamedColor (name : string)
| RGB (r g b : Q).

Record Rectangle : Type := mkRectangle {
  rect_x : Z;
  rect_y : Z;
  rect_width : Z;
  rect_height : Z;
  rect_facecolor : color;
  rect_edgecolor : color
}.

Record Text : Type := mkText {
  text_x : Q;
  text_y : Q;
  text_s : string
}.

Record Figure : Type := mkFigure {
  x_length : Q;
  y_length : Z;
  patches : list Rectangle;
  texts : list Text
}.

(** ** [_format_gene_name] (lines 634-653) *)

Definition _format_gene_name (gene_name : string) (max_length : Z) : string :=
  let gene_name := str_replace " " "" gene_name in
  let gene_name := str_replace dquote "" gene_name in
  let gene_name :=
    if (max_length - 4 <? Z.of_nat (String.length gene_name))
       && negb (str_find "," gene_name 6 =? -1)
    then str_slice_to gene_name (str_find "," gene_name 6)
    else gene_name in
  let gene_name :=
    if max_length <? Z.of_nat (String.length gene_name)
    then str_slice_to gene_name max_length
    else gene_name in
  gene_name.

(** ** The sentinels of [utils.int_settings] *)

Class int_settings : Type := {
  NEG_UNKNOWN : Q;
  POS_UNKNOWN : Q
}.

(** ** [plt.figure]

    [plt.figure(figsize=(w, h), dpi=150)] belongs to matplotlib, which is not
    part of the embedded file.  It accepts a size with two positive sides and
    raises [ValueError] ("figure size must be positive finite") for a size
    with a negative side.  [figsize_accepted] is restricted by these two facts
    only: what becomes of a side of exactly zero is left open. *)

Class matplotlib : Type := {
  figsize_accepted : Q -> Q -> bool;
  figsize_positive :
    forall w h : Q, (0 < w)%Q -> (0 < h)%Q -> figsize_accepted w h = true;
  figsize_negative :
    forall w h : Q, (w < 0)%Q \/ (h < 0)%Q -> figsize_accepted w h = false
}.

Definition plt_figure {mpl : matplotlib} (w h : Q) : result unit :=
  if figsize_accepted w h then Ok tt else Raise ValueError.

(** ** [sch.dendrogram]

    [sch.dendrogram(clusters, ..., labels=patient.sample_names)] belongs to
    scipy, and the linkage matrix [clusters] is not modelled: [den_leaves]
    stands for the list [den['leaves']] that scipy derives from it.  scipy
    returns a leaf list only for a linkage over at least two observations with
    one label each, and the list then holds every observation index once; it
    raises [ValueError] otherwise.  A [den_leaves] that scipy cannot return
    stands for a call that raises. *)

Definition is_leaf_list (den_leaves : list nat) (n : nat) : bool :=
  (2 <=? n)%nat && (length den_leaves =? n)%nat
  && forallb (fun i => existsb (Nat.eqb i) den_leaves) (seq 0 n).

Definition sch_dendrogram (den_leaves : list nat) (labels : list string)
  : result (list nat) :=
  if is_leaf_list den_leaves (length labels) then Ok den_leaves else Raise ValueError.

Section Plots.
Context {settings : int_settings} {mpl : matplotlib}.

(** ** [hinton] (lines 27-114) *)

(** Size and position settings, shared by [hinton] and [clustered_table]. *)
Definition height : Z := 4.
Definition width : Z := 2.
Definition y_spacing : Z := 1.
Definition label_x_pos : Z := -2.
Definition label_y_pos : Z := 0.
Definition edge_color : color := NamedColor "black".

(** Lines 44-46 and 329-331: show all mutations if no subset is given. *)
Definition displayed_or_all (data : list (list Q))
    (displayed_mutations : option (list nat)) : list nat :=
  match displayed_mutations with
  | Some d => d
  | None => seq 0 (length data)
  end.

(** One pass of the inner loop of lines 64-73:
    [priorities[mut_idx] += weight * 4 ** (len(data[mut_idx])-sa_idx-1)]. *)
Definition hinton_priority_body (mut_idx : nat) (len_row : Z)
    (entry : nat * Q) (priorities : list Z) : result (list Z) :=
  let '(sa_idx, maf) := entry in
  let* p := index priorities mut_idx in
  let e := len_row - Z.of_nat sa_idx - 1 in
  if Qlt_bool 0 maf then Ok (<[mut_idx := p + 3 * 4 ^ e]> priorities)
  else if Qeq_bool maf POS_UNKNOWN then Ok (<[mut_idx := p + 1 * 4 ^ e]> priorities)
  else if Qeq_bool maf NEG_UNKNOWN then Ok (<[mut_idx := p + 1 * 4 ^ e]> priorities)
  else Ok (<[mut_idx := p + 0 * 4 ^ e]> priorities).

Definition hinton_priority_row (data : list (list Q)) (mut_idx : nat)
    (priorities : list Z) : result (list Z) :=
  let* row := index data mut_idx in
  for_each (hinton_priority_body mut_idx (Z.of_nat (length row)))
           (enumerate row) priorities.

Definition hinton_priorities (data : list (list Q)) (displayed_mutations : list nat)
  : result (list Z) :=
  for_each (hinton_priority_row data) displayed_mutations
           (replicate (length data) 0).

(** The column order of lines 77-79 and 103-104: [sorted] with the key
    [(-priorities[k], column_labels[k] if column_labels is not None else 0)]. *)
Definition hinton_order (priorities : list Z) (column_labels : option (list string))
    (displayed_mutations : list nat) : result (list nat) :=
  match column_labels with
  | Some labels =>
      sorted key_name_ltb
        (fun k => let* p := index priorities k in
                  let* name := index labels k in
                  Ok (- p, name))
        displayed_mutations
  | None =>
      sorted key_num_ltb
        (fun k => let* p := index priorities k in Ok (- p, 0))
        displayed_mutations
  end.

(** The colour cascade of lines 82-91. *)
Definition hinton_color (maf : Q) : color :=
  if Qlt_bool 0 maf then NamedColor "blue"
  else if Qeq_bool maf POS_UNKNOWN then RGB (9 # 10) (3 # 4) (3 # 4)
  else if Qeq_bool maf NEG_UNKNOWN then RGB (9 # 10) (3 # 4) (3 # 4)
  else RGB 1 (3 # 10) (3 # 10).

Definition hinton_cell (x_pos : nat) (len_row : Z) (entry : nat * Q)
    (patches : list Rectangle) : result (list Rectangle) :=
  let '(sa_idx, maf) := entry in
  let color := hinton_color maf in
  Ok (patches ++
      [mkRectangle (Z.of_nat x_pos * width)
                   ((height + y_spacing) * (len_row - Z.of_nat sa_idx - 1))
                   width height color edge_color]).

Definition hinton_column (data : list (list Q)) (entry : nat * nat)
    (patches : list Rectangle) : result (list Rectangle) :=
  let '(x_pos, mut_idx) := entry in
  let* row := index data mut_idx in
  for_each (hinton_cell x_pos (Z.of_nat (length row))) (enumerate row) patches.

Definition hinton_row_label (len_labels : Z) (entry : nat * string)
    (texts : list Text) : result (list Text) :=
  let '(sa_idx, row_name) := entry in
  Ok (texts ++
      [mkText (inject_Z label_x_pos)
              (inject_Z ((height + y_spacing) * (len_labels - Z.of_nat sa_idx - 1) + 1))
              (str_replace "_" " " row_name)]).

Definition hinton_column_label (data : list (list Q)) (column_labels : list string)
    (entry : nat * nat) (texts : list Text) : result (list Text) :=
  let '(x_pos, mut_idx) := entry in
  let* row := index data mut_idx in
  let* name := index column_labels mut_idx in
  Ok (texts ++
      [mkText (inject_Z (Z.of_nat x_pos * width + width / 2) + (2 # 10))%Q
              (inject_Z (label_y_pos + (height + y_spacing) * Z.of_nat (length row)))
              (_format_gene_name name 12)]).

Definition hinton (data : list (list Q)) (row_labels column_labels : option (list string))
    (displayed_mutations : option (list nat)) : result Figure :=
  let displayed_mutations := displayed_or_all data displayed_mutations in
  let x_length :=
    (match row_labels with Some _ => - label_x_pos + 20 | None => 0 end)
    + Z.of_nat (length displayed_mutations) * width in
  let* row0 := index data 0 in
  let y_length :=
    Z.of_nat (length row0) * (height + y_spacing) - y_spacing
    + (match column_labels with Some _ => label_y_pos + 20 | None => 0 end) in
  let* _ := plt_figure (inject_Z x_length / 20) (inject_Z y_length / 20) in
  let* priorities := hinton_priorities data displayed_mutations in
  let* order := hinton_order priorities column_labels displayed_mutations in
  let* patches := for_each (hinton_column data) (enumerate order) [] in
  let* texts :=
    match row_labels with
    | Some labels =>
        for_each (hinton_row_label (Z.of_nat (length labels))) (enumerate labels) []
    | None => Ok []
    end in
  let* texts :=
    match column_labels with
    | Some labels =>
        let* order := hinton_order priorities (Some labels) displayed_mutations in
        for_each (hinton_column_label data labels) (enumerate order) texts
    | None => Ok texts
    end in
  Ok (mkFigure (inject_Z x_length) y_length patches texts).

(** ** [create_incompatible_mp_table]: the encoding of one cell
    (lines 178-198)

    [cov] and [reads] are the entries of [patient.phred_coverage] and
    [patient.mut_reads] for the cell, converted with [float(...)]. *)

Definition float_div (a b : Q) : result Q :=
  if Qeq_bool b 0 then Raise ZeroDivisionError else Ok (a / b)%Q.

(** Lines 180-184. *)
Definition raw_maf (reads cov : Q) : result Q :=
  if Qlt_bool 0 cov then float_div reads cov
  else Ok 0%Q.

Definition present_color : color := NamedColor "blue".
Definition absent_color : color := RGB 1 (3 # 10) (3 # 10).
Definition unknown_color : color := RGB (9 # 10) (3 # 4) (3 # 4).

(** Lines 186-195. *)
Definition class_color (maf : Q) : color :=
  if Qlt_bool 0 maf then present_color
  else if Qeq_bool maf POS_UNKNOWN then unknown_color
  else if Qeq_bool maf NEG_UNKNOWN then unknown_color
  else absent_color.

(** Line 197: the argument of [plt.cm.Blues]. *)
Definition maf_intensity (raw_maf : Q) : Q :=
  if Qlt_bool raw_maf (1 # 2) then (2 * raw_maf)%Q else 1%Q.

Definition variant_fraction_intensity (reads cov : Q) : result Q :=
  let* raw := raw_maf reads cov in
  Ok (maf_intensity raw).

(** Line 198: the argument of [plt.cm.Greens]; [math.log(cov, 10)] is
    [ln cov / ln 10]. *)
Definition cov_intensity (cov : R) : R :=
  if Rlt_dec 0 cov then
    if Rlt_dec cov 1000 then (ln cov / ln 10 / 3)%R
    else if Rle_dec cov 0 then 0%R else 1%R
  else if Rle_dec cov 0 then 0%R else 1%R.

(** ** [clustered_table] (lines 307-421) *)

Record Patient : Type := mkPatient {
  patient_data : list (list Q);
  patient_n : nat;
  patient_sample_names : list string;
  patient_gene_names : list string
}.

(** Lines 359-360: the leaves of the dendrogram, reversed. *)
Definition leave_ordering (den_leaves : list nat) : list nat := rev den_leaves.

(** One pass of the inner loop of lines 362-375. *)
Definition clustered_priority_body (patient : Patient) (leave_ordering : list nat)
    (mut_idx : nat) (i : nat) (priorities : list Z) : result (list Z) :=
  let* sa_idx := index leave_ordering i in
  let* row := index (patient_data patient) mut_idx in
  let* maf := index row sa_idx in
  let* p := index priorities mut_idx in
  let e := Z.of_nat (length row) - Z.of_nat i - 1 in
  if Qlt_bool 0 maf then Ok (<[mut_idx := p + 3 * 4 ^ e]> priorities)
  else if Qeq_bool maf POS_UNKNOWN then Ok (<[mut_idx := p + 1 * 4 ^ e]> priorities)
  else if Qeq_bool maf NEG_UNKNOWN then Ok (<[mut_idx := p + 1 * 4 ^ e]> priorities)
  else Ok (<[mut_idx := p + 0 * 4 ^ e]> priorities).

Definition clustered_priority_row (patient : Patient) (leave_ordering : list nat)
    (mut_idx : nat) (priorities : list Z) : result (list Z) :=
  let* row := index (patient_data patient) mut_idx in
  for_each (clustered_priority_body patient leave_ordering mut_idx)
           (seq 0 (length row)) priorities.

Definition clustered_priorities (patient : Patient) (leave_ordering : list nat)
    (displayed_mutations : list nat) : result (list Z) :=
  for_each (clustered_priority_row patient leave_ordering) displayed_mutations
           (replicate (length (patient_data patient)) 0).

(** Lines 378-379 and 410-411: the key is
    [(-priorities[k], patient.gene_names[k])]. *)
Definition clustered_order (patient : Patient) (priorities : list Z)
    (displayed_mutations : list nat) : result (list nat) :=
  sorted key_name_ltb
    (fun k => let* p := index priorities k in
              let* name := index (patient_gene_names patient) k in
              Ok (- p, name))
    displayed_mutations.

(** Lines 381-399. *)
Definition clustered_cell (patient : Patient) (leave_ordering : list nat)
    (x_pos mut_idx : nat) (i : nat) (patches : list Rectangle)
  : result (list Rectangle) :=
  let* sa_idx := index leave_ordering i in
  let* row := index (patient_data patient) mut_idx in
  let* maf := index row sa_idx in
  let color := hinton_color maf in
  Ok (patches ++
      [mkRectangle (Z.of_nat x_pos * width)
                   ((height + y_spacing) * (Z.of_nat (length row) - Z.of_nat i - 1))
                   width height color edge_color]).

Definition clustered_column (patient : Patient) (leave_ordering : list nat)
    (entry : nat * nat) (patches : list Rectangle) : result (list Rectangle) :=
  let '(x_pos, mut_idx) := entry in
  let* row := index (patient_data patient) mut_idx in
  for_each (clustered_cell patient leave_ordering x_pos mut_idx)
           (seq 0 (length row)) patches.

(** Lines 402-406. *)
Definition clustered_row_label (row_labels : list string) (entry : nat * nat)
    (texts : list Text) : result (list Text) :=
  let '(i, sa_idx) := entry in
  let* name := index row_labels sa_idx in
  Ok (texts ++
      [mkText (inject_Z label_x_pos)
              (inject_Z ((height + y_spacing)
                         * (Z.of_nat (length row_labels) - Z.of_nat i - 1)) + (1 # 2))%Q
              (str_replace "_" " " name)]).

(** Lines 409-415. *)
Definition clustered_column_label (patient : Patient) (entry : nat * nat)
    (texts : list Text) : result (list Text) :=
  let '(x_pos, mut_idx) := entry in
  let* row := index (patient_data patient) mut_idx in
  let* name := index (patient_gene_names patient) mut_idx in
  Ok (texts ++
      [mkText (inject_Z (Z.of_nat x_pos * width) + (1 # 2))%Q
              (inject_Z (label_y_pos + (height + y_spacing) * Z.of_nat (length row)))
              (_format_gene_name name 12)]).

(** [den_leaves] is [den['leaves']], the leaf list returned by the call of
    [sch.dendrogram] at line 346; the figure is created at line 339.  The
    axes of lines 342-343 divide by [x_length], which is at least 2. *)
Definition clustered_table (patient : Patient) (den_leaves : list nat)
    (row_labels column_labels : option (list string))
    (displayed_mutations : option (list nat)) : result Figure :=
  let displayed_mutations :=
    displayed_or_all (patient_data patient) displayed_mutations in
  let table_ax_width := - label_x_pos + Z.of_nat (length displayed_mutations) * width in
  let dendrogram_ax_width := (inject_Z (Z.of_nat (patient_n patient) * width) / 2)%Q in
  let x_length :=
    (inject_Z ((match row_labels with Some _ => - label_x_pos + 20 | None => 0 end)
               + table_ax_width) + dendrogram_ax_width)%Q in
  let* row0 := index (patient_data patient) 0 in
  let y_length :=
    Z.of_nat (length row0) * (height + y_spacing) - y_spacing
    + (match column_labels with Some _ => label_y_pos + 20 | None => 0 end) in
  let* _ := plt_figure (x_length / 20) (inject_Z y_length / 20) in
  let* den_leaves := sch_dendrogram den_leaves (patient_sample_names patient) in
  let leave_ordering := leave_ordering den_leaves in
  let* priorities := clustered_priorities patient leave_ordering displayed_mutations in
  let* order := clustered_order patient priorities displayed_mutations in
  let* patches :=
    for_each (clustered_column patient leave_ordering) (enumerate order) [] in
  let* texts :=
    match row_labels with
    | Some labels =>
        for_each (clustered_row_label labels) (enumerate (rev den_leaves)) []
    | None => Ok []
    end in
  let* texts :=
    match column_labels with
    | Some _ =>
        let* order := clustered_order patient priorities displayed_mutations in
        for_each (clustered_column_label patient) (enumerate order) texts
    | None => Ok texts
    end in
  Ok (mkFigure x_length y_length patches texts).

End Plots.

(** ** The vocabulary of the specification *)

Section Specification.
Context {settings : int_settings}.

(** The three display classes of a cell. *)
Inductive state_class : Set :=
| Present
| Ambiguous
| Absent.

(** A value is present when it is positive, ambiguous when it is one of the
    two sentinels, and absent otherwise. *)
Definition classify (maf : Q) : state_class :=
  if Qlt_bool 0 maf then Present
  else if Qeq_bool maf POS_UNKNOWN || Qeq_bool maf NEG_UNKNOWN then Ambiguous
  else Absent.

Definition class_weight (c : state_class) : Z :=
  match c with
  | Present => 3
  | Ambiguous => 1
  | Absent => 0
  end.

Definition weight (maf : Q) : Z := class_weight (classify maf).

(** The order present > ambiguous > absent. *)
Definition rank (c : state_class) : Z :=
  match c with
  | Present => 2
  | Ambiguous => 1
  | Absent => 0
  end.

Definition class_hue (c : state_class) : color :=
  match c with
  | Present => NamedColor "blue"
  | Ambiguous => RGB (9 # 10) (3 # 4) (3 # 4)
  | Absent => RGB 1 (3 # 10) (3 # 10)
  end.

Definition Zsum (l : list Z) : Z := foldr Z.add 0 l.

(** The priority of a state vector [v] over [S = length v] samples: the sum
    over the positions [i] of [weight (v_i) * 4 ^ (S - i - 1)]. *)
Definition priority_sum (v : list Q) : Z :=
  Zsum (imap (fun i maf => weight maf * 4 ^ (Z.of_nat (length v) - Z.of_nat i - 1)) v).

(** The states of a mutation read in the order of the leaves: position [i]
    holds the state of sample [leaf_order[i]]. *)
Definition effective_states (leaf_order : list nat) (row : list Q) : list Q :=
  map (fun sa_idx => nth sa_idx row 0%Q) leaf_order.

(** The value [f] of the row of mutation [mut_idx], and [0] when the matrix
    has no such row. *)
Definition value_of_row (f : list Q -> Z) (data : list (list Q)) (mut_idx : nat) : Z :=
  match data !! mut_idx with
  | Some row => f row
  | None => 0
  end.

(** Row position [i] of [S] rows, counted from the top, sits at height
    [5 * (S - i - 1)]: position 0 is the top row. *)
Definition row_y (S i : nat) : Z := 5 * (Z.of_nat S - Z.of_nat i - 1).

(** The cell in column [x_pos] at row position [i] for a mutation over [S]
    samples whose state there is [maf]. *)
Definition table_cell (x_pos i S : nat) (maf : Q) : Rectangle :=
  mkRectangle (Z.of_nat x_pos * 2) (row_y S i) 2 4
              (class_hue (classify maf)) (NamedColor "black").

(** The cells that [hinton] draws in column [x_pos] for a mutation with the
    states [row], in declared sample order. *)
Definition hinton_column_cells (x_pos : nat) (row : list Q) : list Rectangle :=
  imap (fun sa_idx maf => table_cell x_pos sa_idx (length row) maf) row.

(** The label that [clustered_table] writes beside row position [i]. *)
Definition row_label (i S : nat) (s : string) : Text :=
  mkText (-2) (inject_Z (row_y S i) + (1 # 2))%Q s.

(** [a <= b] on names. *)
Definition name_leb (a b : string) : bool := negb (string_ltb b a).

(** The priority and the display name of mutation [m], with a default outside
    the lists. *)
Definition priority_of (priorities : list Z) (m : nat) : Z := nth m priorities 0.
Definition name_of (labels : list string) (m : nat) : string := nth m labels ""%string.

(** [m] may stand left of [m']: by priority alone, by priority and then name,
    by priority and then index. *)
Definition before_by_priority (priorities : list Z) (m m' : nat) : Prop :=
  priority_of priorities m' <= priority_of priorities m.

Definition before_by_name (priorities : list Z) (labels : list string) (m m' : nat)
  : Prop :=
  priority_of priorities m' < priority_of priorities m
  \/ (priority_of priorities m' = priority_of priorities m
      /\ name_leb (name_of labels m) (name_of labels m') = true).

Definition before_by_index (priorities : list Z) (m m' : nat) : Prop :=
  priority_of priorities m' < priority_of priorities m
  \/ (priority_of priorities m' = priority_of priorities m /\ (m < m')%nat).

(** The mutations of a list that tie: on the priority [p], and on the
    priority [p] together with the name [s]. *)
Definition tied (priorities : list Z) (p : Z) (l : list nat) : list nat :=
  List.filter (fun m => priority_of priorities m =? p) l.

Definition tied_named (priorities : list Z) (labels : list string) (p : Z) (s : string)
    (l : list nat) : list nat :=
  List.filter (fun m => (priority_of priorities m =? p)
                        && String.eqb (name_of labels m) s) l.

(** [min(1.0, x)]. *)
Definition min_one (x : Q) : Q := Qmin 1 x.

End Specification.

(** ** Sample inputs *)

(** Sentinel values used when the code is run on concrete inputs: two distinct
    negative numbers. *)
Definition sample_settings : int_settings :=
  {| NEG_UNKNOWN := (-1 # 10000000000)%Q; POS_UNKNOWN := (-1 # 100000000000)%Q |}.

(** The check of matplotlib's figure constructor: a size is refused when one
    of its sides is negative. *)
Definition sample_matplotlib : matplotlib.
Proof.
  refine {| figsize_accepted := fun w h => negb (Qlt_bool w 0 || Qlt_bool h 0) |}.
  - intros w h Hw Hh. unfold Qlt_bool.
    rewrite (proj2 (Qle_bool_iff 0 w) (Qlt_le_weak _ _ Hw)).
    rewrite (proj2 (Qle_bool_iff 0 h) (Qlt_le_weak _ _ Hh)). reflexivity.
  - intros w h Hneg. unfold Qlt_bool.
    destruct (Qle_bool 0 w) eqn:Hw; [|reflexivity].
    destruct (Qle_bool 0 h) eqn:Hh; [|reflexivity].
    apply Qle_bool_iff in Hw, Hh. exfalso.
    destruct Hneg as [H | H]; [apply (Qlt_not_le _ _ H Hw)|apply (Qlt_not_le _ _ H Hh)].
Defined.

Definition PRESENT : Q := 1%Q.
Definition ABSENT : Q := 0%Q.

(** Scenario A: three mutations over two samples. *)
Definition scenario_A : list (list Q) :=
  [[PRESENT; ABSENT]; [ABSENT; PRESENT]; [@POS_UNKNOWN sample_settings; ABSENT]].

(** Scenario B: samples declared as A, B, C, with A present, B absent and C
    ambiguous in the only mutation; the leaves read C, A, B from the top, so
    [den['leaves']] is [[1; 0; 2]]. *)
Definition scenario_B : Patient :=
  mkPatient [[PRESENT; ABSENT; @NEG_UNKNOWN sample_settings]] 3
            ["A"; "B"; "C"]%string ["TP53"]%string.

Definition scenario_B_leaves : list nat := [1; 0; 2]%nat.

(** Scenario C: the gene name [BRCA1, isoform "X"]. *)
Definition scenario_C : string :=
  ("BRCA1, isoform " ++ String dquote ("X" ++ String dquote ""))%string.

(** ** Further vocabulary *)

(** A gene name without its spaces and double quotes. *)
Definition strip_name (gene_name : string) : string :=
  str_replace dquote "" (str_replace " " "" gene_name).

(** The label that [hinton] writes beside row [i] of [n], and the one it
    writes above column [x_pos] for a mutation over [S] samples. *)
Definition hinton_row_text (n i : nat) (name : string) : Text :=
  mkText (-2) (inject_Z (row_y n i + 1)) (str_replace "_" " " name).

Definition hinton_column_text (x_pos S : nat) (name : string) : Text :=
  mkText (inject_Z (Z.of_nat x_pos * 2 + 1) + (2 # 10))%Q
         (inject_Z (5 * Z.of_nat S))
         (_format_gene_name name 12).

(** The texts of [hinton]: the row labels from the top, then the column
    labels in the order of the columns. *)
Definition hinton_texts (data : list (list Q))
    (row_labels column_labels : option (list string)) (order : list nat) : list Text :=
  match row_labels with
  | Some labels => imap (hinton_row_text (length labels)) labels
  | None => []
  end
  ++ match column_labels with
     | Some labels =>
         imap (fun x m => hinton_column_text x (length (nth m data [])) (nth m labels ""%string))
              order
     | None => []
     end.

(** Two rectangles that do not touch: one lies entirely left of, or entirely
    above, the other. *)
Definition separated (r r' : Rectangle) : Prop :=
  rect_x r + rect_width r <= rect_x r'
  \/ rect_x r' + rect_width r' <= rect_x r
  \/ rect_y r + rect_height r < rect_y r'
  \/ rect_y r' + rect_height r' < rect_y r.

(** A leaf order serves a row when each of the first [length row] leaves
    names a sample of that row; it misses the row when one of them is absent
    or names no such sample. *)
Definition leaves_cover (leaf_order : list nat) (row : list Q) : Prop :=
  forall i, (i < length row)%nat ->
            exists sa_idx, leaf_order !! i = Some sa_idx /\ (sa_idx < length row)%nat.

Definition leaves_miss (leaf_order : list nat) (row : list Q) : Prop :=
  exists i, (i < length row)%nat
            /\ (leaf_order !! i = None
                \/ exists sa_idx, leaf_order !! i = Some sa_idx
                                  /\ (length row <= sa_idx)%nat).

(** The label that [clustered_table] writes above column [x_pos] for a
    mutation over [S] samples. *)
Definition clustered_column_text (x_pos S : nat) (name : string) : Text :=
  mkText (inject_Z (Z.of_nat x_pos * 2) + (1 # 2))%Q
         (inject_Z (5 * Z.of_nat S))
         (_format_gene_name name 12).

(** The cells that [clustered_table] draws in column [x_pos] for a mutation
    with the states [row]: row position [i] shows sample [leaf_order[i]]. *)
Definition clustered_column_cells {settings : int_settings}
    (leaf_order : list nat) (x_pos : nat) (row : list Q)
  : list Rectangle :=
  map (fun i => table_cell x_pos i (length row) (nth (nth i leaf_order 0%nat) row 0%Q))
      (seq 0 (length row)).

(** The texts of [clustered_table]: one row label per leaf, then one column
    label per displayed mutation, named by [patient.gene_names]. *)
Definition clustered_texts (patient : Patient) (leaf_order : list nat)
    (row_labels column_labels : option (list string)) (order : list nat) : list Text :=
  match row_labels with
  | Some labels =>
      imap (fun i sa_idx => row_label i (length labels)
                              (str_replace "_" " " (nth sa_idx labels ""%string)))
           leaf_order
  | None => []
  end
  ++ match column_labels with
     | Some _ =>
         imap (fun x m => clustered_column_text x
                            (length (nth m (patient_data patient) []))
                            (nth m (patient_gene_names patient) ""%string))
              order
     | None => []
     end.

(** ** Dictionaries and a second exception

    [create_incompatible_mp_table] and [reads_plot] read dictionaries.  A
    dictionary is the list of its items in iteration order; reading a key
    that is absent raises [KeyError], which [exn] does not have, so these two
    functions run in [outcome].  (If [patient.phred_coverage] is a
    [defaultdict(dict)] a missing outer key yields an empty dictionary and
    the inner read raises the same [KeyError].) *)

Inductive py_exn : Set :=
| Builtin (e : exn)
| KeyError.

Inductive outcome (A : Type) : Type :=
| Done (a : A)
| Fail (e : py_exn).

Arguments Done {A} a.
Arguments Fail {A} e.

Definition lift {A : Type} (r : result A) : outcome A :=
  match r with
  | Ok a => Done a
  | Raise e => Fail (Builtin e)
  end.

Definition and_then {A B : Type} (m : outcome A) (k : A -> outcome B) : outcome B :=
  match m with
  | Done a => k a
  | Fail e => Fail e
  end.

Notation "'let+' x ':=' m 'in' k" := (and_then m (fun x => k))
  (at level 10, x name, m at level 100, k at level 200).

Fixpoint for_every {A S : Type} (body : A -> S -> outcome S) (l : list A) (s : S)
  : outcome S :=
  match l with
  | [] => Done s
  | a :: l' => let+ s' := body a s in for_every body l' s'
  end.

Definition dict (K V : Type) : Type := list (K * V).

Fixpoint dict_find {K V : Type} (eqb : K -> K -> bool) (d : dict K V) (k : K)
  : option V :=
  match d with
  | [] => None
  | (k', v) :: d' => if eqb k' k then Some v else dict_find eqb d' k
  end.

(** [d[k]]. *)
Definition getitem {K V : Type} (eqb : K -> K -> bool) (d : dict K V) (k : K)
  : outcome V :=
  match dict_find eqb d k with
  | Some v => Done v
  | None => Fail KeyError
  end.

(** [d.keys()]. *)
Definition keys {K V : Type} (d : dict K V) : list K := map fst d.

(** A patient with its sequencing data: [patient.mut_keys],
    [patient.phred_coverage] and [patient.mut_reads] beside the fields of
    [Patient]. *)
Record ReadPatient : Type := mkReadPatient {
  patient_of : Patient;
  patient_mut_keys : list string;
  patient_phred_coverage : dict string (dict string Q);
  patient_mut_reads : dict string (dict string Q)
}.

(** [table[mut_key][sample_name]]. *)
Definition entry_of (table : dict string (dict string Q)) (mut_key sample_name : string)
  : outcome Q :=
  let+ row := getitem String.eqb table mut_key in
  getitem String.eqb row sample_name.

(** ** [create_incompatible_mp_table] (lines 119-266) *)

(** The phylogeny object.  The four [isinstance] tests of lines 137-145 and
    212 are the four flags, so that nothing is assumed on how the classes
    inherit from each other; each attribute is read only under the test of
    its class.  [conflicting_mutations] is given in iteration order. *)
Record Phylogeny : Type := mkPhylogeny {
  is_CompatiblePhylogeny : bool;
  is_ResolvedPhylogeny : bool;
  is_MaxLHPhylogeny : bool;
  is_SubclonalPhylogeny : bool;
  conflicting_mutations : list nat;
  incompatible_positions : dict nat (list nat);
  false_positives : dict nat (list nat);
  false_negatives : dict nat (list nat)
}.

(** The colour arguments of [plt.Rectangle]: not given or [None], a plain
    colour, [plt.cm.Blues(v)], and [plt.cm.Greens] at the level that line 198
    computes from the coverage [cov], which is [coverage_level cov]. *)
Inductive paint : Type :=
| Unset
| Solid (c : color)
| Blues (v : Q)
| GreensOfCoverage (cov : Q).

Definition coverage_level (cov : Q) : R := cov_intensity (Q2R cov).

Record Box : Type := mkBox {
  box_x : Z;
  box_y : Z;
  box_width : Z;
  box_height : Z;
  box_linewidth : Z;
  box_facecolor : paint;
  box_edgecolor : paint
}.

(** What the function draws and returns: the pair [(x_length, y_length)],
    the width of the table axes and the left edges of the two colour bars as
    fractions of the figure, and the patches and texts in the order of the
    calls. *)
Record MPTable : Type := mkMPTable {
  table_x_length : Q;
  table_y_length : Z;
  table_ax_width : Q;
  table_cb1_left : Q;
  table_cb2_left : Q;
  table_patches : list Box;
  table_texts : list Text
}.

(** [c.lower()] for a character code below 256. *)
Definition chr_lower (c : ascii) : ascii :=
  let n := nat_of_ascii c in
  if ((65 <=? n)%nat && (n <=? 90)%nat)
     || ((192 <=? n)%nat && (n <=? 214)%nat)
     || ((216 <=? n)%nat && (n <=? 222)%nat)
  then ascii_of_nat (n + 32) else c.

Fixpoint str_lower (s : string) : string :=
  match s with
  | EmptyString => EmptyString
  | String c s' => String (chr_lower c) (str_lower s')
  end.

Section IncompatibleTable.
Context {settings : int_settings} {mpl : matplotlib}.

Definition mp_width : Z := 1.
Definition cb_width : Q := 30.

(** Line 141: [any(patient.data[mut_idx][sa_idx] >= 0 for sa_idx in samples)],
    which stops at the first sample that qualifies. *)
Fixpoint any_known (data : list (list Q)) (mut_idx : nat) (samples : list nat)
  : result bool :=
  match samples with
  | [] => Ok false
  | sa_idx :: samples' =>
      let* row := index data mut_idx in
      let* maf := index row sa_idx in
      if Qle_bool 0 maf then Ok true else any_known data mut_idx samples'
  end.

(** Lines 140-141. *)
Fixpoint resolved_displayed (data : list (list Q)) (items : dict nat (list nat))
  : result (list nat) :=
  match items with
  | [] => Ok []
  | (mut_idx, samples) :: items' =>
      let* keep := any_known data mut_idx samples in
      let* rest := resolved_displayed data items' in
      Ok (if keep then mut_idx :: rest else rest)
  end.

(** Lines 137-151: the displayed mutations, or [None] where the function
    returns without drawing. *)
Definition mp_displayed (data : list (list Q)) (phylogeny : Phylogeny)
  : result (option (list nat)) :=
  if is_CompatiblePhylogeny phylogeny then
    Ok (Some (conflicting_mutations phylogeny))
  else if is_ResolvedPhylogeny phylogeny then
    let* displayed := resolved_displayed data (incompatible_positions phylogeny) in
    Ok (Some displayed)
  else if is_MaxLHPhylogeny phylogeny then
    Ok (Some (keys (false_positives phylogeny) ++ keys (false_negatives phylogeny)))
  else if is_SubclonalPhylogeny phylogeny then Ok None
  else Ok None.

(** Lines 175-176 and 233-234: [sorted] with the key
    [column_labels[k].lower() if column_labels is not None else k]. *)
Definition mp_order (column_labels : option (list string)) (displayed_mutations : list nat)
  : result (list nat) :=
  match column_labels with
  | Some labels =>
      sorted string_ltb
        (fun k => let* name := index labels k in Ok (str_lower name))
        displayed_mutations
  | None => sorted Nat.ltb (fun k => Ok k) displayed_mutations
  end.

(** [mut_idx in marks.keys() and sa_idx in marks[mut_idx]]. *)
Definition marked (marks : dict nat (list nat)) (mut_idx sa_idx : nat) : bool :=
  match dict_find Nat.eqb marks mut_idx with
  | Some samples => existsb (Nat.eqb sa_idx) samples
  | None => false
  end.

(** Lines 180-225: the patches of one cell. *)
Definition mp_cell (patient : ReadPatient) (phylogeny : Phylogeny)
    (x_pos mut_idx : nat) (len_row : Z) (entry : nat * Q) (patches : list Box)
  : outcome (list Box) :=
  let '(sa_idx, maf) := entry in
  let+ mut_key := lift (index (patient_mut_keys patient) mut_idx) in
  let+ covs := getitem String.eqb (patient_phred_coverage patient) mut_key in
  let+ sample_name := lift (index (patient_sample_names (patient_of patient)) sa_idx) in
  let+ cov := getitem String.eqb covs sample_name in
  let+ raw_maf :=
    if Qlt_bool 0 cov then
      let+ mut_key := lift (index (patient_mut_keys patient) mut_idx) in
      let+ reads_of := getitem String.eqb (patient_mut_reads patient) mut_key in
      let+ sample_name := lift (index (patient_sample_names (patient_of patient)) sa_idx) in
      let+ reads := getitem String.eqb reads_of sample_name in
      lift (float_div reads cov)
    else Done 0%Q in
  let x := Z.of_nat x_pos * mp_width * 3 in
  let y := (height + y_spacing) * (len_row - Z.of_nat sa_idx - 1) in
  let rect_maf := mkBox (x + 0) y mp_width height 0 (Blues (maf_intensity raw_maf)) Unset in
  let rect_cov := mkBox (x + 1) y mp_width height 0 (GreensOfCoverage cov) Unset in
  let box := mkBox x y (mp_width * 2) height 4 Unset (Solid (class_color maf)) in
  let patches := patches ++ [box; rect_maf; rect_cov] in
  if is_MaxLHPhylogeny phylogeny then
    if marked (false_positives phylogeny) mut_idx sa_idx then
      Done (patches ++ [mkBox x y (mp_width * 2) (height / 2) 0 (Solid absent_color) Unset])
    else if marked (false_negatives phylogeny) mut_idx sa_idx then
      Done (patches ++ [mkBox x y (mp_width * 2) (height / 2) 0 (Solid present_color) Unset])
    else Done patches
  else Done patches.

(** Lines 175-225: one column. *)
Definition mp_column (patient : ReadPatient) (phylogeny : Phylogeny)
    (entry : nat * nat) (patches : list Box) : outcome (list Box) :=
  let '(x_pos, mut_idx) := entry in
  let+ row := lift (index (patient_data (patient_of patient)) mut_idx) in
  for_every (mp_cell patient phylogeny x_pos mut_idx (Z.of_nat (length row)))
            (enumerate row) patches.

(** Lines 232-238. *)
Definition mp_column_label (data : list (list Q)) (column_labels : list string)
    (entry : nat * nat) (texts : list Text) : result (list Text) :=
  let '(x_pos, mut_idx) := entry in
  let* row := index data mut_idx in
  let* name := index column_labels mut_idx in
  Ok (texts ++
      [mkText (inject_Z (Z.of_nat x_pos * mp_width * 3 + mp_width) + (1 # 10))%Q
              (inject_Z (label_y_pos + (height + y_spacing) * Z.of_nat (length row)))
              (_format_gene_name name 12)]).

(** Lines 153-266: the figure for the displayed mutations. *)
Definition mp_draw (patient : ReadPatient) (phylogeny : Phylogeny)
    (row_labels column_labels : option (list string)) (displayed_mutations : list nat)
  : outcome MPTable :=
  let data := patient_data (patient_of patient) in
  let x_length :=
    (match row_labels with Some _ => - label_x_pos + 20 | None => 0 end)
    + Z.of_nat (length displayed_mutations) * mp_width * 3 in
  let+ row0 := lift (index data 0) in
  let y_length :=
    Z.of_nat (length row0) * (height + y_spacing) - y_spacing
    + (match column_labels with Some _ => label_y_pos + 20 | None => 0 end) in
  let x_length := (inject_Z x_length + cb_width)%Q in
  let+ _ := lift (plt_figure (x_length / 20) (inject_Z y_length / 20)) in
  let+ ax_width := lift (float_div (x_length - cb_width) x_length) in
  let+ order := lift (mp_order column_labels displayed_mutations) in
  let+ patches := for_every (mp_column patient phylogeny) (enumerate order) [] in
  let+ texts :=
    match row_labels with
    | Some labels =>
        lift (for_each (hinton_row_label (Z.of_nat (length labels)))
                       (enumerate labels) [])
    | None => Done []
    end in
  let+ texts :=
    match column_labels with
    | Some labels =>
        let+ order := lift (mp_order (Some labels) displayed_mutations) in
        lift (for_each (mp_column_label data labels) (enumerate order) texts)
    | None => Done texts
    end in
  let+ cb1_a := lift (float_div (x_length - cb_width) x_length) in
  let+ cb1_b := lift (float_div (cb_width / 4) x_length) in
  let+ cb2_a := lift (float_div (x_length - cb_width / 2) x_length) in
  let+ cb2_b := lift (float_div (cb_width / 4) x_length) in
  Done (mkMPTable x_length y_length ax_width
                  (cb1_a + cb1_b) (cb2_a + cb2_b) patches texts).

(** The function returns [None] where it draws nothing, and
    [(x_length, y_length)] otherwise. *)
Definition create_incompatible_mp_table (patient : ReadPatient) (phylogeny : Phylogeny)
    (row_labels column_labels : option (list string)) : outcome (option MPTable) :=
  let+ displayed := lift (mp_displayed (patient_data (patient_of patient)) phylogeny) in
  match displayed with
  | None => Done None
  | Some displayed_mutations =>
      let+ table := mp_draw patient phylogeny row_labels column_labels
                            displayed_mutations in
      Done (Some table)
  end.

End IncompatibleTable.

(** ** Vocabulary for [create_incompatible_mp_table] *)

(** The exceptions a computation can end in. *)
Definition raises_only_IndexError {A : Type} (r : result A) : Prop :=
  forall e, r = Raise e -> e = IndexError.

Definition never_divides_by_zero {A : Type} (o : outcome A) : Prop :=
  o <> Fail (Builtin ZeroDivisionError).

(** The entry of [table] for mutation [mut_idx] and sample [sa_idx], read
    through [patient.mut_keys] and [patient.sample_names]. *)
Definition entry_at (patient : ReadPatient) (table : dict string (dict string Q))
    (mut_idx sa_idx : nat) : option Q :=
  match patient_mut_keys patient !! mut_idx with
  | Some mut_key =>
      match dict_find String.eqb table mut_key with
      | Some row =>
          match patient_sample_names (patient_of patient) !! sa_idx with
          | Some sample_name => dict_find String.eqb row sample_name
          | None => None
          end
      | None => None
      end
  | None => None
  end.

Definition coverage_at (patient : ReadPatient) (mut_idx sa_idx : nat) : Q :=
  default 0%Q (entry_at patient (patient_phred_coverage patient) mut_idx sa_idx).

Definition reads_at (patient : ReadPatient) (mut_idx sa_idx : nat) : Q :=
  default 0%Q (entry_at patient (patient_mut_reads patient) mut_idx sa_idx).

(** A cell can be drawn when its coverage is on record and, where the
    coverage is positive, its read count as well. *)
Definition cell_readable (patient : ReadPatient) (mut_idx sa_idx : nat) : Prop :=
  exists cov,
    entry_at patient (patient_phred_coverage patient) mut_idx sa_idx = Some cov
    /\ ((0 < cov)%Q ->
        is_Some (entry_at patient (patient_mut_reads patient) mut_idx sa_idx)).

(** The variant fraction of a cell: reads over coverage where the coverage is
    positive, and zero elsewhere. *)
Definition raw_fraction (reads cov : Q) : Q :=
  if Qlt_bool 0 cov then (reads / cov)%Q else 0%Q.

(** The half-height mark of a cell in a maximum-likelihood phylogeny: the
    colour of absence on a false positive, the colour of presence on a false
    negative, the false positive first. *)
Definition overlay (phylogeny : Phylogeny) (mut_idx sa_idx : nat) : option color :=
  if is_MaxLHPhylogeny phylogeny then
    if marked (false_positives phylogeny) mut_idx sa_idx then Some absent_color
    else if marked (false_negatives phylogeny) mut_idx sa_idx then Some present_color
    else None
  else None.

(** The patches of the cell in column [x_pos] at row [sa_idx] of [ns]: the
    frame in the class colour, two units wide, its left half shaded by the
    variant fraction and its right half by the coverage, and the mark. *)
Definition cell_boxes {settings : int_settings} (patient : ReadPatient)
    (phylogeny : Phylogeny) (x_pos mut_idx ns sa_idx : nat) (maf : Q) : list Box :=
  let x := 3 * Z.of_nat x_pos in
  let y := row_y ns sa_idx in
  let cov := coverage_at patient mut_idx sa_idx in
  [mkBox x y 2 4 4 Unset (Solid (class_hue (classify maf)));
   mkBox x y 1 4 0
         (Blues (maf_intensity (raw_fraction (reads_at patient mut_idx sa_idx) cov)))
         Unset;
   mkBox (x + 1) y 1 4 0 (GreensOfCoverage cov) Unset]
  ++ match overlay phylogeny mut_idx sa_idx with
     | Some c => [mkBox x y 2 2 0 (Solid c) Unset]
     | None => []
     end.

Definition column_boxes {settings : int_settings} (patient : ReadPatient)
    (phylogeny : Phylogeny) (x_pos mut_idx : nat) : list Box :=
  let row := nth mut_idx (patient_data (patient_of patient)) [] in
  concat (imap (fun sa_idx maf =>
                  cell_boxes patient phylogeny x_pos mut_idx (length row) sa_idx maf)
               row).

(** The label above column [x_pos]. *)
Definition mp_column_text (x_pos ns : nat) (name : string) : Text :=
  mkText (inject_Z (3 * Z.of_nat x_pos + 1) + (1 # 10))%Q
         (inject_Z (5 * Z.of_nat ns)) (_format_gene_name name 12).

Definition mp_texts (data : list (list Q)) (row_labels column_labels : option (list string))
    (order : list nat) : list Text :=
  match row_labels with
  | Some labels => imap (hinton_row_text (length labels)) labels
  | None => []
  end
  ++ match column_labels with
     | Some labels =>
         imap (fun x m => mp_column_text x (length (nth m data [])) (nth m labels ""%string))
              order
     | None => []
     end.

(** The keep test of the resolved phylogeny, for indices in range. *)
Definition known_somewhere (data : list (list Q)) (item : nat * list nat) : bool :=
  existsb (fun sa_idx => Qle_bool 0 (nth sa_idx (nth (fst item) data []) 0%Q)) (snd item).

(** ** Sample inputs with sequencing data *)

(** Two mutations over two samples.  The first is covered 100 and 50 times
    with 40 and 0 variant reads; the second is not covered in the first sample
    and covered 20 times, all variant, in the second. *)
Definition sample_read_patient : ReadPatient :=
  mkReadPatient
    (mkPatient [[PRESENT; ABSENT]; [@NEG_UNKNOWN sample_settings; PRESENT]] 2
               ["Pam01_P"; "Pam01_M"]%string ["KRAS"; "apc"]%string)
    ["chr12_1"; "chr5_7"]%string
    [("chr12_1", [("Pam01_P", 100); ("Pam01_M", 50)]);
     ("chr5_7", [("Pam01_P", 0); ("Pam01_M", 20)])]%string%Q
    [("chr12_1", [("Pam01_P", 40); ("Pam01_M", 0)]);
     ("chr5_7", [("Pam01_M", 20)])]%string%Q.

Definition sample_compatible : Phylogeny :=
  mkPhylogeny true false false false [1; 0]%nat [] [] [].

Definition sample_resolved : Phylogeny :=
  mkPhylogeny false true false false [] [(0, [1; 0]); (1, [0]); (7, [])]%nat [] [].

Definition sample_maxlh : Phylogeny :=
  mkPhylogeny false false true false [] []
              [(0, [0; 1])]%nat [(0, [1]); (1, [0])]%nat.

Definition sample_subclonal : Phylogeny :=
  mkPhylogeny false false false true [] [] [] [].

(** ** [reads_plot] (lines 426-483)

    The scatter data of lines 437-453 and the legend of lines 474-480.  The
    calls into matplotlib between them are not modelled. *)

(** [s[k:]] for a position [k] that is not negative. *)
Fixpoint str_drop (k : nat) (s : string) : string :=
  match k, s with
  | S k', String _ s' => str_drop k' s'
  | _, _ => s
  end.

(** The three lists handed to [plt.scatter]; a colour is the argument of
    [plt.cm.jet]. *)
Record Scatter : Type := mkScatter {
  x_coverages : list Q;
  y_mut_reads : list Q;
  colors : list Q
}.

(** A legend entry: [bp_ax.text(1.3, y_pos, s, color=plt.cm.jet(level))]. *)
Record LegendText : Type := mkLegendText {
  legend_y : Q;
  legend_s : string;
  legend_level : Q
}.

Record ReadsPlot : Type := mkReadsPlot {
  points : Scatter;
  legend : list LegendText
}.

(** Lines 453 and 479: [1. * sa_idx / (patient.n - 1)]. *)
Definition jet_argument (patient : ReadPatient) (sa_idx : nat) : result Q :=
  float_div (1 * inject_Z (Z.of_nat sa_idx))
            (inject_Z (Z.of_nat (patient_n (patient_of patient)) - 1)).

(** Lines 444-453: one point. *)
Definition reads_point (patient : ReadPatient) (mut_key : string) (entry : nat * string)
    (s : Scatter) : outcome Scatter :=
  let '(sa_idx, sample_name) := entry in
  let+ cov := entry_of (patient_phred_coverage patient) mut_key sample_name in
  let+ xs :=
    if Qlt_bool 0 cov then
      let+ cov := entry_of (patient_phred_coverage patient) mut_key sample_name in
      Done (x_coverages s ++ [cov])
    else Done (x_coverages s ++ [1%Q]) in
  let+ reads := entry_of (patient_mut_reads patient) mut_key sample_name in
  let+ ys :=
    if negb (Qeq_bool reads 0) then
      let+ reads := entry_of (patient_mut_reads patient) mut_key sample_name in
      Done (y_mut_reads s ++ [reads])
    else Done (y_mut_reads s ++ [1%Q]) in
  let+ level := lift (jet_argument patient sa_idx) in
  Done (mkScatter xs ys (colors s ++ [level])).

(** Lines 441-453: the points of one mutation. *)
Definition reads_row (patient : ReadPatient) (mut_key : string) (s : Scatter)
  : outcome Scatter :=
  let+ row := getitem String.eqb (patient_mut_reads patient) mut_key in
  for_every (reads_point patient mut_key) (enumerate (keys row)) s.

Definition reads_points (patient : ReadPatient) : outcome Scatter :=
  for_every (reads_row patient) (keys (patient_mut_reads patient)) (mkScatter [] [] []).

(** Lines 474-480: one legend entry; the state is [y_pos] and the texts. *)
Definition legend_entry (patient : ReadPatient) (entry : nat * string)
    (state : Q * list LegendText) : outcome (Q * list LegendText) :=
  let '(sa_idx, sample_name) := entry in
  let '(y_pos, texts) := state in
  let+ level := lift (jet_argument patient sa_idx) in
  Done ((y_pos / (17 # 10))%Q,
        texts ++ [mkLegendText y_pos (str_drop 5 sample_name) level]).

Definition reads_plot (patient : ReadPatient) : outcome ReadsPlot :=
  let+ points := reads_points patient in
  let+ state :=
    for_every (legend_entry patient)
              (enumerate (patient_sample_names (patient_of patient))) (5000%Q, []) in
  Done (mkReadsPlot points (snd state)).

(** ** Vocabulary for [reads_plot] *)

(** The value plotted for a coverage and for a read count: what cannot stand
    on a logarithmic axis is moved to 1. *)
Definition plotted_coverage (cov : Q) : Q := if Qlt_bool 0 cov then cov else 1%Q.
Definition plotted_reads (reads : Q) : Q := if Qeq_bool reads 0 then 1%Q else reads.

(** The colour level of position [sa_idx] among [n] samples. *)
Definition jet_level (n sa_idx : nat) : Q :=
  (1 * inject_Z (Z.of_nat sa_idx) / inject_Z (Z.of_nat n - 1))%Q.

(** [table[mut_key][sample_name]], and [0] where there is no such entry. *)
Definition table_entry (table : dict string (dict string Q)) (mut_key sample_name : string)
  : Q :=
  match dict_find String.eqb table mut_key with
  | Some row => default 0%Q (dict_find String.eqb row sample_name)
  | None => 0%Q
  end.

(** The samples of a mutation, in the order of its read dictionary. *)
Definition samples_of (patient : ReadPatient) (mut_key : string) : list string :=
  match dict_find String.eqb (patient_mut_reads patient) mut_key with
  | Some row => keys row
  | None => []
  end.

(** Every read count has a coverage beside it. *)
Definition coverage_recorded (patient : ReadPatient) : Prop :=
  forall mut_key sample_name,
    In mut_key (keys (patient_mut_reads patient)) ->
    In sample_name (samples_of patient mut_key) ->
    exists covs cov,
      dict_find String.eqb (patient_phred_coverage patient) mut_key = Some covs
      /\ dict_find String.eqb covs sample_name = Some cov.

(** The scatter lists agree in length, every plotted coverage is positive and
    no plotted read count is zero. *)
Definition on_log_axes (s : Scatter) : Prop :=
  length (x_coverages s) = length (y_mut_reads s)
  /\ length (y_mut_reads s) = length (colors s)
  /\ Forall (fun x => (0 < x)%Q) (x_coverages s)
  /\ Forall (fun y => ~ (y == 0)%Q) (y_mut_reads s).

(** The heights of [len] legend entries below [y_pos]. *)
Fixpoint legend_heights (y_pos : Q) (len : nat) : list Q :=
  match len with
  | O => []
  | S len' => y_pos :: legend_heights (y_pos / (17 # 10))%Q len'
  end.

(** A patient with a single sample. *)
Definition single_sample_patient : ReadPatient :=
  mkReadPatient (mkPatient [[PRESENT]] 1 ["Pam01_P"]%string ["KRAS"]%string)
                ["chr12_1"]%string
                [("chr12_1", [("Pam01_P", 100)])]%string%Q
                [("chr12_1", [("Pam01_P", 40)])]%string%Q.

(** * Part II: the theory *)

(** ** Rational comparisons *)

Lemma Qlt_bool_iff (a b : Q) : Qlt_bool a b = true <-> (a < b)%Q.
Proof.
  unfold Qlt_bool. rewrite negb_true_iff, <- not_true_iff_false, Qle_bool_iff.
  split; [apply Qnot_le_lt | apply Qlt_not_le].
Qed.

Lemma Qlt_bool_false_iff (a b : Q) : Qlt_bool a b = false <-> (b <= a)%Q.
Proof.
  unfold Qlt_bool. rewrite negb_false_iff. apply Qle_bool_iff.
Qed.

(** ** Reading lists *)

Lemma index_Ok {A : Type} (l : list A) (i : nat) (a : A) :
  l !! i = Some a -> index l i = Ok a.
Proof. intros H. unfold index. rewrite H. reflexivity. Qed.

Lemma lookup_nth {A : Type} (l : list A) (i : nat) (d : A) :
  (i < length l)%nat -> l !! i = Some (nth i l d).
Proof.
  intros H. destruct (lookup_lt_is_Some_2 l i H) as [a Ha].
  rewrite Ha. f_equal. symmetry.
  apply nth_lookup_Some with (d := d). assumption.
Qed.

Lemma concat_imap_nil {A B : Type} (l : list A) : forall (f : nat -> A -> list B),
  (forall x a, f x a = []) -> concat (imap f l) = [].
Proof.
  induction l as [|a l IH]; intros f Hf; [reflexivity|].
  rewrite imap_cons. cbn [concat]. rewrite Hf. cbn [app].
  apply IH. intros x a'. apply Hf.
Qed.

Lemma imap_as_map_seq {A B : Type} (f : nat -> A -> B) (d : A) (l : list A) :
  imap f l = map (fun i => f i (nth i l d)) (seq 0 (length l)).
Proof.
  revert f. induction l as [|a l IH]; intros f; [reflexivity|].
  cbn [length seq map nth]. rewrite imap_cons. f_equal.
  rewrite IH, <- seq_shift, map_map. reflexivity.
Qed.

(** ** Priorities *)

Section PriorityTheory.
Context {settings : int_settings}.

Lemma hinton_priority_body_weight mut_idx n sa_idx maf priorities p :
  priorities !! mut_idx = Some p ->
  hinton_priority_body mut_idx n (sa_idx, maf) priorities
  = Ok (<[mut_idx := p + weight maf * 4 ^ (n - Z.of_nat sa_idx - 1)]> priorities).
Proof.
  intros Hp. unfold hinton_priority_body, weight, classify.
  rewrite (index_Ok _ _ _ Hp). cbn [bind].
  destruct (Qlt_bool 0 maf); [reflexivity|].
  destruct (Qeq_bool maf POS_UNKNOWN); [reflexivity|].
  destruct (Qeq_bool maf NEG_UNKNOWN); reflexivity.
Qed.

Lemma hinton_inner_loop mut_idx n row : forall start priorities p,
  priorities !! mut_idx = Some p ->
  for_each (hinton_priority_body mut_idx n) (enumerate_from start row) priorities
  = Ok (<[mut_idx := p + Zsum (imap (fun i maf =>
                weight maf * 4 ^ (n - Z.of_nat (start + i) - 1)) row)]> priorities).
Proof.
  induction row as [|maf row IH]; intros start priorities p Hp;
    cbn [enumerate_from for_each].
  - cbn. rewrite Z.add_0_r, list_insert_id; [reflexivity|assumption].
  - rewrite (hinton_priority_body_weight _ _ _ _ _ _ Hp). cbn [bind].
    assert (Hlt : (mut_idx < length priorities)%nat) by (eapply lookup_lt_Some; eauto).
    erewrite IH by (apply list_lookup_insert_eq; assumption).
    rewrite list_insert_insert_eq, imap_cons. cbn [Zsum foldr]. fold Zsum.
    rewrite Nat.add_0_r, <- Z.add_assoc. do 5 f_equal.
    apply imap_ext. intros i x _. cbn. do 3 f_equal. lia.
Qed.

Lemma hinton_priority_row_spec data mut_idx row priorities p :
  data !! mut_idx = Some row ->
  priorities !! mut_idx = Some p ->
  hinton_priority_row data mut_idx priorities
  = Ok (<[mut_idx := p + priority_sum row]> priorities).
Proof.
  intros Hrow Hp. unfold hinton_priority_row, enumerate.
  rewrite (index_Ok _ _ _ Hrow). cbn [bind].
  erewrite hinton_inner_loop by eassumption. reflexivity.
Qed.

(** The outer loop of both priority computations adds, for every listed
    mutation, one value to that mutation's slot. *)
Lemma accumulate_loop (step : nat -> list Z -> result (list Z)) (val : nat -> Z)
    (n : nat) (good : nat -> Prop) :
  (forall m, good m -> (m < n)%nat) ->
  (forall m pr p, good m -> pr !! m = Some p -> length pr = n ->
                  step m pr = Ok (<[m := p + val m]> pr)) ->
  forall displayed pr,
    length pr = n ->
    Forall good displayed ->
    exists pr',
      for_each step displayed pr = Ok pr' /\ length pr' = n /\
      forall k p, pr !! k = Some p ->
        pr' !! k = Some (p + Z.of_nat (count_occ Nat.eq_dec displayed k) * val k).
Proof.
  intros Hlt Hstep displayed.
  induction displayed as [|m displayed IH]; intros pr Hlen Hall; cbn [for_each].
  - exists pr. repeat split; [assumption|]. intros k p Hk. cbn.
    rewrite Z.add_0_r. assumption.
  - apply Forall_cons in Hall as [Hm Hall].
    destruct (lookup_lt_is_Some_2 pr m) as [q Hq]; [rewrite Hlen; auto|].
    rewrite (Hstep _ _ _ Hm Hq Hlen). cbn [bind].
    destruct (IH (<[m := q + val m]> pr)) as (pr' & Hrun & Hlen' & Hval);
      [rewrite length_insert; assumption | assumption |].
    exists pr'. repeat split; [assumption..|].
    intros k p Hk. cbn [count_occ].
    destruct (Nat.eq_dec m k) as [->|Hne].
    + rewrite (Hval k (q + val k)).
      * f_equal. replace p with q by congruence. lia.
      * apply list_lookup_insert_eq. rewrite Hlen. auto.
    + apply Hval. rewrite list_lookup_insert_ne; assumption.
Qed.

(** [hinton]: every slot holds the positional sum of its row, once for each
    time the mutation is listed. *)
Lemma hinton_priorities_count data displayed :
  Forall (fun m => (m < length data)%nat) displayed ->
  exists pr,
    hinton_priorities data displayed = Ok pr /\ length pr = length data /\
    forall k, (k < length data)%nat ->
      pr !! k = Some (Z.of_nat (count_occ Nat.eq_dec displayed k)
                      * value_of_row priority_sum data k).
Proof.
  intros Hall.
  destruct (accumulate_loop (hinton_priority_row data) (value_of_row priority_sum data)
              (length data) (fun m => (m < length data)%nat))
    with (displayed := displayed) (pr := replicate (length data) 0)
    as (pr & Hrun & Hlen & Hval).
  - auto.
  - intros m pr p Hm Hp Hlen. unfold value_of_row.
    destruct (lookup_lt_is_Some_2 data m Hm) as [row Hrow].
    rewrite Hrow. apply hinton_priority_row_spec; assumption.
  - apply length_replicate.
  - assumption.
  - exists pr. repeat split; [assumption..|].
    intros k Hk. rewrite (Hval k 0); [f_equal; lia|].
    apply lookup_replicate_2. assumption.
Qed.

(** [clustered_table]: the same, with the states read in leaf order. *)
Lemma clustered_priority_body_weight patient lo mut_idx i row sa_idx maf priorities p :
  lo !! i = Some sa_idx ->
  patient_data patient !! mut_idx = Some row ->
  row !! sa_idx = Some maf ->
  priorities !! mut_idx = Some p ->
  clustered_priority_body patient lo mut_idx i priorities
  = Ok (<[mut_idx := p + weight maf * 4 ^ (Z.of_nat (length row) - Z.of_nat i - 1)]>
          priorities).
Proof.
  intros Hsa Hrow Hmaf Hp. unfold clustered_priority_body, weight, classify.
  rewrite (index_Ok _ _ _ Hsa). cbn [bind].
  rewrite (index_Ok _ _ _ Hrow). cbn [bind].
  rewrite (index_Ok _ _ _ Hmaf). cbn [bind].
  rewrite (index_Ok _ _ _ Hp). cbn [bind].
  destruct (Qlt_bool 0 maf); [reflexivity|].
  destruct (Qeq_bool maf POS_UNKNOWN); [reflexivity|].
  destruct (Qeq_bool maf NEG_UNKNOWN); reflexivity.
Qed.

Lemma clustered_inner_loop patient lo mut_idx row :
  patient_data patient !! mut_idx = Some row ->
  forall len start priorities p,
    priorities !! mut_idx = Some p ->
    (forall i, (start <= i < start + len)%nat ->
               (i < length lo)%nat /\ (nth i lo 0%nat < length row)%nat) ->
    for_each (clustered_priority_body patient lo mut_idx) (seq start len) priorities
    = Ok (<[mut_idx := p + Zsum (map (fun i =>
              weight (nth (nth i lo 0%nat) row 0%Q)
              * 4 ^ (Z.of_nat (length row) - Z.of_nat i - 1)) (seq start len))]>
            priorities).
Proof.
  intros Hrow. induction len as [|len IH]; intros start priorities p Hp Hin;
    cbn [seq for_each map].
  - cbn. rewrite Z.add_0_r, list_insert_id; [reflexivity|assumption].
  - destruct (Hin start) as [Hlo Hsa]; [lia|].
    assert (Hlt : (mut_idx < length priorities)%nat) by (eapply lookup_lt_Some; eauto).
    rewrite (clustered_priority_body_weight _ _ _ _ _ _ _ _ _
               (lookup_nth lo start 0%nat Hlo) Hrow (lookup_nth row _ 0%Q Hsa) Hp).
    cbn [bind].
    erewrite IH; [| apply list_lookup_insert_eq; assumption | intros i Hi; apply Hin; lia].
    rewrite list_insert_insert_eq. cbn [Zsum foldr]. fold Zsum.
    rewrite <- Z.add_assoc. reflexivity.
Qed.

Lemma leave_ordering_bounds (S : nat) (den_leaves : list nat) :
  Permutation den_leaves (seq 0 S) ->
  length (leave_ordering den_leaves) = S
  /\ forall i, (i < S)%nat -> (nth i (leave_ordering den_leaves) 0%nat < S)%nat.
Proof.
  intros Hperm. unfold leave_ordering.
  assert (Hlen : length (rev den_leaves) = S).
  { rewrite length_rev, (Permutation_length Hperm). apply length_seq. }
  split; [exact Hlen|]. intros i Hi.
  assert (Hin : In (nth i (rev den_leaves) 0%nat) (rev den_leaves))
    by (apply nth_In; lia).
  apply in_rev in Hin. apply (Permutation_in _ Hperm) in Hin.
  apply in_seq in Hin. lia.
Qed.

Lemma priority_sum_effective lo row :
  length lo = length row ->
  priority_sum (effective_states lo row)
  = Zsum (map (fun i => weight (nth (nth i lo 0%nat) row 0%Q)
                        * 4 ^ (Z.of_nat (length row) - Z.of_nat i - 1))
              (seq 0 (length row))).
Proof.
  intros Hlen. unfold priority_sum, effective_states.
  rewrite length_map, imap_fmap, (imap_as_map_seq _ 0%nat), Hlen. reflexivity.
Qed.

Lemma clustered_priority_row_spec patient lo mut_idx row priorities p :
  patient_data patient !! mut_idx = Some row ->
  length lo = length row ->
  (forall i, (i < length row)%nat -> (nth i lo 0%nat < length row)%nat) ->
  priorities !! mut_idx = Some p ->
  clustered_priority_row patient lo mut_idx priorities
  = Ok (<[mut_idx := p + priority_sum (effective_states lo row)]> priorities).
Proof.
  intros Hrow Hlen Hlo Hp. unfold clustered_priority_row.
  rewrite (index_Ok _ _ _ Hrow). cbn [bind].
  rewrite (clustered_inner_loop _ _ _ _ Hrow _ _ _ _ Hp).
  - rewrite priority_sum_effective by assumption. reflexivity.
  - intros i Hi. split; [lia | apply Hlo; lia].
Qed.

Lemma clustered_priorities_count patient den_leaves (S : nat) displayed :
  Permutation den_leaves (seq 0 S) ->
  Forall (fun m => exists row, patient_data patient !! m = Some row /\ length row = S)
         displayed ->
  exists pr,
    clustered_priorities patient (leave_ordering den_leaves) displayed = Ok pr
    /\ length pr = length (patient_data patient)
    /\ forall k, (k < length (patient_data patient))%nat ->
      pr !! k = Some (Z.of_nat (count_occ Nat.eq_dec displayed k)
                      * value_of_row (fun row => priority_sum
                            (effective_states (leave_ordering den_leaves) row))
                          (patient_data patient) k).
Proof.
  intros Hperm Hall. destruct (leave_ordering_bounds _ _ Hperm) as [Hlen Hlo].
  destruct (accumulate_loop
              (clustered_priority_row patient (leave_ordering den_leaves))
              (value_of_row (fun row => priority_sum
                    (effective_states (leave_ordering den_leaves) row))
                 (patient_data patient))
              (length (patient_data patient))
              (fun m => exists row, patient_data patient !! m = Some row
                                    /\ length row = S))
    with (displayed := displayed)
         (pr := replicate (length (patient_data patient)) 0)
    as (pr & Hrun & Hlenpr & Hval).
  - intros m (row & Hrow & _). eapply lookup_lt_Some; eassumption.
  - intros m pr p (row & Hrow & HS) Hp _. unfold value_of_row. rewrite Hrow.
    apply clustered_priority_row_spec; try assumption; [congruence|].
    rewrite HS. assumption.
  - apply length_replicate.
  - assumption.
  - exists pr. repeat split; [assumption..|].
    intros k Hk. rewrite (Hval k 0); [f_equal; lia|].
    apply lookup_replicate_2. assumption.
Qed.

Lemma count_occ_once (displayed : list nat) (k : nat) :
  List.NoDup displayed -> In k displayed ->
  Z.of_nat (count_occ Nat.eq_dec displayed k) = 1.
Proof.
  intros Hnd Hin.
  rewrite (proj1 (NoDup_count_occ' Nat.eq_dec displayed) Hnd k Hin). reflexivity.
Qed.

End PriorityTheory.

(** ** The priority is a base-4 positional value *)

(** C1. The priority that [hinton] computes for a displayed mutation is the
    sum over the sample positions [i] of [weight (state_i) * 4 ^ (S - i - 1)],
    with the states read in declared order; [clustered_table] computes the
    same sum with the states read in leaf order (position [i] holds the state
    of sample [leave_ordering[i]]).  The weight is 3 for a positive value, 1
    for either sentinel and 0 otherwise.  For three mutations over two samples
    with states present/absent, absent/present and ambiguous/absent the
    priorities are 12, 3 and 4, and the columns are ordered 0, 2, 1. *)
Theorem priority_is_positional_sum {settings : int_settings} :
  (forall (data : list (list Q)) (displayed : list nat) (k : nat) (row : list Q),
      List.NoDup displayed ->
      Forall (fun m => (m < length data)%nat) displayed ->
      In k displayed ->
      data !! k = Some row ->
      exists pr,
        hinton_priorities data displayed = Ok pr
        /\ pr !! k = Some (priority_sum row))
  /\ (forall (patient : Patient) (den_leaves : list nat) (S : nat)
             (displayed : list nat) (k : nat) (row : list Q),
      List.NoDup displayed ->
      Permutation den_leaves (seq 0 S) ->
      Forall (fun m => exists r, patient_data patient !! m = Some r /\ length r = S)
             displayed ->
      In k displayed ->
      patient_data patient !! k = Some row ->
      exists pr,
        clustered_priorities patient (leave_ordering den_leaves) displayed = Ok pr
        /\ pr !! k = Some (priority_sum (effective_states (leave_ordering den_leaves) row))
        /\ forall i, (i < S)%nat ->
             exists sa_idx,
               leave_ordering den_leaves !! i = Some sa_idx
               /\ effective_states (leave_ordering den_leaves) row !! i = row !! sa_idx)
  /\ (forall maf, weight maf = if Qlt_bool 0 maf then 3
                               else if Qeq_bool maf POS_UNKNOWN then 1
                               else if Qeq_bool maf NEG_UNKNOWN then 1
                               else 0)
  /\ (forall present absent ambiguous : Q,
      classify present = Present ->
      classify absent = Absent ->
      classify ambiguous = Ambiguous ->
      hinton_priorities [[present; absent]; [absent; present]; [ambiguous; absent]]
                        (seq 0 3) = Ok [12; 3; 4]
      /\ hinton_order [12; 3; 4] None (seq 0 3) = Ok [0; 2; 1]%nat).
Proof.
  split; [|split; [|split]].
  - intros data displayed k row Hnd Hall Hin Hrow.
    destruct (hinton_priorities_count data displayed Hall) as (pr & Hrun & _ & Hval).
    exists pr. split; [assumption|].
    rewrite Hval by (eapply lookup_lt_Some; eassumption).
    unfold value_of_row. rewrite Hrow, count_occ_once by assumption.
    f_equal. lia.
  - intros patient den_leaves S displayed k row Hnd Hperm Hall Hin Hrow.
    destruct (clustered_priorities_count patient den_leaves S displayed Hperm Hall)
      as (pr & Hrun & _ & Hval).
    exists pr. split; [assumption|]. split.
    + rewrite Hval by (eapply lookup_lt_Some; eassumption).
      unfold value_of_row. rewrite Hrow, count_occ_once by assumption.
      f_equal. lia.
    + intros i Hi. destruct (leave_ordering_bounds _ _ Hperm) as [Hlen Hlo].
      exists (nth i (leave_ordering den_leaves) 0%nat).
      split; [apply lookup_nth; lia|].
      unfold effective_states.
      rewrite list_lookup_fmap, (lookup_nth _ i 0%nat) by lia. cbn.
      rewrite List.Forall_forall in Hall. destruct (Hall k Hin) as (r & Hr & HS).
      assert (r = row) by congruence. subst r.
      rewrite (lookup_nth row _ 0%Q) by (rewrite HS; apply Hlo; assumption).
      reflexivity.
  - intros maf. unfold weight, classify.
    destruct (Qlt_bool 0 maf); [reflexivity|].
    destruct (Qeq_bool maf POS_UNKNOWN); [reflexivity|].
    destruct (Qeq_bool maf NEG_UNKNOWN); reflexivity.
  - intros present absent ambiguous Hp Ha Hu. split; [|reflexivity].
    unfold hinton_priorities. cbn [seq for_each length replicate].
    erewrite hinton_priority_row_spec by reflexivity. cbn [bind].
    erewrite hinton_priority_row_spec by reflexivity. cbn [bind].
    erewrite hinton_priority_row_spec by reflexivity. cbn [bind].
    unfold priority_sum, weight. cbn [imap Zsum foldr length compose].
    rewrite Hp, Ha, Hu. reflexivity.
Qed.

Lemma priority_is_positional_sum_witness :
  (exists pr,
      @hinton_priorities sample_settings scenario_A [0; 1; 2]%nat = Ok pr
      /\ pr !! 2%nat = Some (@priority_sum sample_settings
                               [@POS_UNKNOWN sample_settings; ABSENT]))
  /\ (exists pr,
      @clustered_priorities sample_settings scenario_B
        (leave_ordering scenario_B_leaves) [0%nat] = Ok pr
      /\ pr !! 0%nat = Some (@priority_sum sample_settings
                               [@NEG_UNKNOWN sample_settings; PRESENT; ABSENT]))
  /\ @hinton_priorities sample_settings scenario_A (seq 0 3) = Ok [12; 3; 4].
Proof.
  split; [|split].
  - apply (proj1 (@priority_is_positional_sum sample_settings)).
    + repeat constructor; cbn; intuition lia.
    + repeat constructor; cbn; lia.
    + cbn. auto.
    + reflexivity.
  - destruct (proj1 (proj2 (@priority_is_positional_sum sample_settings))
                scenario_B scenario_B_leaves 3%nat [0%nat] 0%nat
                [PRESENT; ABSENT; @NEG_UNKNOWN sample_settings])
      as (pr & Hrun & Hval & _).
    + repeat constructor; cbn; intuition lia.
    + cbn. apply perm_swap.
    + repeat constructor. eexists. split; reflexivity.
    + cbn. auto.
    + reflexivity.
    + exists pr. split; assumption.
  - apply (proj2 (proj2 (proj2 (@priority_is_positional_sum sample_settings)))
             PRESENT ABSENT (@POS_UNKNOWN sample_settings));
      reflexivity.
Defined.

(** ** The priority orders state vectors lexicographically *)

Section Lexicographic.
Context {settings : int_settings}.

Lemma priority_sum_cons (maf : Q) (v : list Q) :
  priority_sum (maf :: v) = weight maf * 4 ^ Z.of_nat (length v) + priority_sum v.
Proof.
  unfold priority_sum. rewrite imap_cons. cbn [Zsum foldr length]. fold Zsum.
  f_equal.
  - do 2 f_equal. lia.
  - f_equal. apply imap_ext. intros i x _. cbn. do 2 f_equal. lia.
Qed.

Lemma priority_sum_app (u v : list Q) :
  priority_sum (u ++ v) = priority_sum u * 4 ^ Z.of_nat (length v) + priority_sum v.
Proof.
  induction u as [|maf u IH]; [reflexivity|].
  cbn [app]. rewrite !priority_sum_cons, IH, length_app, Nat2Z.inj_add, Z.pow_add_r by lia.
  ring.
Qed.

Lemma weight_bounds (maf : Q) : 0 <= weight maf <= 3.
Proof. unfold weight. destruct (classify maf); cbn; lia. Qed.

Lemma priority_sum_bounds (v : list Q) :
  0 <= priority_sum v < 4 ^ Z.of_nat (length v).
Proof.
  induction v as [|maf v IH]; [cbn; lia|].
  rewrite priority_sum_cons. cbn [length].
  rewrite Nat2Z.inj_succ, Z.pow_succ_r by lia.
  pose proof (weight_bounds maf). nia.
Qed.

Lemma rank_weight (a b : state_class) :
  rank b < rank a -> class_weight b + 1 <= class_weight a.
Proof. destruct a, b; cbn; lia. Qed.

Lemma priority_sum_lexicographic (prefix suffix suffix' : list Q) (a b : Q) :
  length suffix = length suffix' ->
  rank (classify b) < rank (classify a) ->
  priority_sum (prefix ++ b :: suffix') < priority_sum (prefix ++ a :: suffix).
Proof.
  intros Hlen Hrank. apply rank_weight in Hrank. fold (weight a) (weight b) in Hrank.
  rewrite !priority_sum_app, !priority_sum_cons. cbn [length]. rewrite <- Hlen.
  pose proof (priority_sum_bounds suffix) as Hs.
  pose proof (priority_sum_bounds suffix') as Hs'. rewrite <- Hlen in Hs'.
  nia.
Qed.

End Lexicographic.

Lemma class_weight_inj (a b : state_class) : class_weight a = class_weight b -> a = b.
Proof. destruct a, b; cbn; intros H; try reflexivity; lia. Qed.

(** Two state vectors of one length have the same positional sum only if
    their classes agree at every position. *)
Lemma priority_sum_inj {settings : int_settings} (v : list Q) : forall v',
  length v = length v' ->
  priority_sum v = priority_sum v' ->
  map classify v = map classify v'.
Proof.
  induction v as [|a v IH]; intros [|b v'] Hlen Hsum; try discriminate; [reflexivity|].
  cbn in Hlen. injection Hlen as Hlen. rewrite !priority_sum_cons, <- Hlen in Hsum.
  pose proof (priority_sum_bounds v) as Hv.
  pose proof (priority_sum_bounds v') as Hv'. rewrite <- Hlen in Hv'.
  pose proof (weight_bounds a) as Ha. pose proof (weight_bounds b) as Hb.
  assert (Hw : weight a = weight b) by nia.
  cbn [map]. f_equal.
  - apply class_weight_inj. exact Hw.
  - apply IH; [exact Hlen|]. rewrite Hw in Hsum. lia.
Qed.

Lemma priority_sum_classes {settings : int_settings} (v : list Q) : forall v',
  map classify v = map classify v' -> priority_sum v = priority_sum v'.
Proof.
  induction v as [|a v IH]; intros [|b v'] Hmap; try discriminate; [reflexivity|].
  cbn [map] in Hmap. injection Hmap as Hab Hmap.
  rewrite !priority_sum_cons. unfold weight. rewrite Hab, (IH _ Hmap).
  apply (f_equal (@length _)) in Hmap. rewrite !length_map in Hmap.
  rewrite Hmap. reflexivity.
Qed.

(** C2. Two state vectors of equal length whose states agree before position
    [i], that is, fall in the same class there, and whose states at [i] rank
    differently in the order present > ambiguous > absent receive strictly
    ordered priorities from [hinton], whatever the states after [i] are. *)
Theorem priority_lexicographic {settings : int_settings}
    (data : list (list Q)) (displayed : list nat) (k k' : nat)
    (prefix prefix' suffix suffix' : list Q) (a b : Q) :
  List.NoDup displayed ->
  Forall (fun m => (m < length data)%nat) displayed ->
  In k displayed ->
  In k' displayed ->
  data !! k = Some (prefix ++ a :: suffix) ->
  data !! k' = Some (prefix' ++ b :: suffix') ->
  map classify prefix = map classify prefix' ->
  length suffix = length suffix' ->
  rank (classify b) < rank (classify a) ->
  exists pr p p',
    hinton_priorities data displayed = Ok pr
    /\ pr !! k = Some p /\ pr !! k' = Some p' /\ p' < p.
Proof.
  intros Hnd Hall Hk Hk' Hrow Hrow' Hprefix Hlen Hrank.
  destruct (hinton_priorities_count data displayed Hall) as (pr & Hrun & _ & Hval).
  exists pr, (priority_sum (prefix ++ a :: suffix)),
    (priority_sum (prefix' ++ b :: suffix')).
  split; [assumption|].
  rewrite !Hval by (eapply lookup_lt_Some; eassumption).
  unfold value_of_row. rewrite Hrow, Hrow', !count_occ_once, !Z.mul_1_l by assumption.
  repeat split.
  rewrite (priority_sum_classes (prefix' ++ b :: suffix') (prefix ++ b :: suffix'))
    by (rewrite !map_app, Hprefix; reflexivity).
  apply priority_sum_lexicographic; assumption.
Qed.

Lemma priority_lexicographic_witness :
  (exists pr p p',
      @hinton_priorities sample_settings
        [[PRESENT; @POS_UNKNOWN sample_settings; ABSENT];
         [PRESENT; ABSENT; PRESENT]] [0; 1]%nat = Ok pr
      /\ pr !! 0%nat = Some p /\ pr !! 1%nat = Some p' /\ p' < p)
  /\ (exists pr p p',
      @hinton_priorities sample_settings
        [[1 # 3; 1]%Q; [2 # 3; 0]%Q] [0; 1]%nat = Ok pr
      /\ pr !! 0%nat = Some p /\ pr !! 1%nat = Some p' /\ p' < p).
Proof.
  split.
  - apply (@priority_lexicographic sample_settings _ _ 0%nat 1%nat
             [PRESENT] [PRESENT] [ABSENT] [PRESENT] (@POS_UNKNOWN sample_settings)
             ABSENT).
    + repeat constructor; cbn; intuition lia.
    + repeat constructor; cbn; lia.
    + cbn. auto.
    + cbn. auto.
    + reflexivity.
    + reflexivity.
    + reflexivity.
    + reflexivity.
    + vm_compute. reflexivity.
  - apply (@priority_lexicographic sample_settings _ _ 0%nat 1%nat
             [(1 # 3)%Q] [(2 # 3)%Q] [] [] 1%Q 0%Q).
    + repeat constructor; cbn; intuition lia.
    + repeat constructor; cbn; lia.
    + cbn. auto.
    + cbn. auto.
    + reflexivity.
    + reflexivity.
    + reflexivity.
    + reflexivity.
    + vm_compute. reflexivity.
Defined.

(** ** [sorted] is a stable sort *)

Section SortedTheory.
Context {K A : Type} (ltb : K -> K -> bool) (kf : A -> K).

(** [<] on the keys is a strict weak order. *)
Hypothesis ltb_asym : forall x y, ltb x y = true -> ltb y x = false.
Hypothesis ltb_cotrans :
  forall x y z, ltb x y = true -> ltb x z = true \/ ltb z y = true.

Lemma sort_keyed_decorated (l : list A) :
  sort_keyed ltb (map (fun a => (kf a, a)) l)
  = map (fun a => (kf a, a)) (sort_by ltb kf l).
Proof.
  induction l as [|a l IH]; [reflexivity|].
  cbn [map sort_keyed sort_by foldr].
  change (foldr (insert_keyed ltb) [] (map (fun a => (kf a, a)) l))
    with (sort_keyed ltb (map (fun a => (kf a, a)) l)).
  change (foldr (insert_by ltb kf) [] l) with (sort_by ltb kf l).
  rewrite IH. generalize (sort_by ltb kf l) as s. clear IH.
  induction s as [|y s IHs]; [reflexivity|].
  cbn [map insert_keyed insert_by fst].
  destruct (ltb (kf y) (kf a)); [|reflexivity].
  cbn [map]. rewrite IHs. reflexivity.
Qed.

Lemma decorate_total (key : A -> result K) (l : list A) :
  Forall (fun a => key a = Ok (kf a)) l ->
  decorate key l = Ok (map (fun a => (kf a, a)) l).
Proof.
  induction 1 as [|a l Ha _ IH]; [reflexivity|].
  cbn [decorate map]. rewrite Ha. cbn [bind]. rewrite IH. reflexivity.
Qed.

Lemma sorted_total (key : A -> result K) (l : list A) :
  Forall (fun a => key a = Ok (kf a)) l ->
  sorted ltb key l = Ok (sort_by ltb kf l).
Proof.
  intros H. unfold sorted. rewrite (decorate_total _ _ H). cbn [bind].
  rewrite sort_keyed_decorated, map_map. cbn [snd]. rewrite map_id. reflexivity.
Qed.

Lemma insert_by_perm (x : A) (l : list A) :
  Permutation (x :: l) (insert_by ltb kf x l).
Proof.
  induction l as [|y l IH]; [reflexivity|]. cbn [insert_by].
  destruct (ltb (kf y) (kf x)); [|reflexivity].
  rewrite perm_swap. apply perm_skip. exact IH.
Qed.

Lemma sort_by_perm (l : list A) : Permutation l (sort_by ltb kf l).
Proof.
  induction l as [|x l IH]; [reflexivity|].
  cbn [sort_by foldr]. rewrite <- insert_by_perm. apply perm_skip. exact IH.
Qed.

Lemma key_le_trans (x y z : K) :
  ltb y x = false -> ltb z y = false -> ltb z x = false.
Proof.
  intros Hxy Hyz. destruct (ltb z x) eqn:Hzx; [|reflexivity].
  destruct (ltb_cotrans _ _ y Hzx); congruence.
Qed.

Lemma insert_by_sorted (x : A) (l : list A) :
  StronglySorted (fun a b => ltb (kf b) (kf a) = false) l ->
  StronglySorted (fun a b => ltb (kf b) (kf a) = false) (insert_by ltb kf x l).
Proof.
  induction 1 as [|y l Hl IH Hy]; cbn [insert_by].
  - repeat constructor.
  - destruct (ltb (kf y) (kf x)) eqn:Hyx.
    + constructor; [exact IH|].
      rewrite <- insert_by_perm. constructor; [auto|exact Hy].
    + constructor; [constructor; assumption|].
      constructor; [exact Hyx|].
      eapply Forall_impl; [exact Hy|]. cbn. intros z Hz.
      eapply key_le_trans; eassumption.
Qed.

Lemma sort_by_sorted (l : list A) :
  StronglySorted (fun a b => ltb (kf b) (kf a) = false) (sort_by ltb kf l).
Proof.
  induction l as [|x l IH]; [constructor|].
  cbn [sort_by foldr]. apply insert_by_sorted. exact IH.
Qed.

Lemma insert_by_stable (k : K) (x : A) (l : list A) :
  List.filter (fun a => same_key ltb k (kf a)) (insert_by ltb kf x l)
  = List.filter (fun a => same_key ltb k (kf a)) (x :: l).
Proof.
  induction l as [|y l IH]; [reflexivity|]. cbn [insert_by].
  destruct (ltb (kf y) (kf x)) eqn:Hyx; [|reflexivity].
  cbn [List.filter] in *. rewrite IH.
  destruct (same_key ltb k (kf x)) eqn:Hx; [|reflexivity].
  destruct (same_key ltb k (kf y)) eqn:Hy; [|reflexivity].
  exfalso. unfold same_key in Hx, Hy.
  apply andb_true_iff in Hx as [Hx1 Hx2]. apply andb_true_iff in Hy as [Hy1 Hy2].
  apply negb_true_iff in Hx1, Hx2, Hy1, Hy2.
  destruct (ltb_cotrans _ _ k Hyx); congruence.
Qed.

Lemma sort_by_stable (k : K) (l : list A) :
  List.filter (fun a => same_key ltb k (kf a)) (sort_by ltb kf l)
  = List.filter (fun a => same_key ltb k (kf a)) l.
Proof.
  induction l as [|x l IH]; [reflexivity|].
  cbn [sort_by foldr]. rewrite insert_by_stable. cbn [List.filter].
  change (foldr (insert_by ltb kf) [] l) with (sort_by ltb kf l).
  rewrite IH. reflexivity.
Qed.

Lemma same_key_refl (k : K) : same_key ltb k k = true.
Proof.
  unfold same_key. destruct (ltb k k) eqn:E; [|reflexivity].
  pose proof (ltb_asym _ _ E). congruence.
Qed.

(** A sorted list is determined by its groups of tied elements: whatever
    stable sorting algorithm is run, it returns the list of [sort_by]. *)
Lemma sorted_stable_unique (l1 : list A) : forall l2,
  StronglySorted (fun a b => ltb (kf b) (kf a) = false) l1 ->
  StronglySorted (fun a b => ltb (kf b) (kf a) = false) l2 ->
  (forall k, List.filter (fun a => same_key ltb k (kf a)) l1
             = List.filter (fun a => same_key ltb k (kf a)) l2) ->
  l1 = l2.
Proof.
  induction l1 as [|x r1 IH]; intros [|y r2] H1 H2 Hgroups.
  - reflexivity.
  - specialize (Hgroups (kf y)). cbn [List.filter] in Hgroups.
    rewrite same_key_refl in Hgroups. discriminate.
  - specialize (Hgroups (kf x)). cbn [List.filter] in Hgroups.
    rewrite same_key_refl in Hgroups. discriminate.
  - inversion H1 as [|? ? Hr1 Hx]; subst. inversion H2 as [|? ? Hr2 Hy]; subst.
    rewrite List.Forall_forall in Hx, Hy.
    assert (Hxy : ltb (kf x) (kf y) = false).
    { pose proof (Hgroups (kf x)) as Hg. cbn [List.filter] in Hg.
      rewrite same_key_refl in Hg.
      assert (Hin : In x (y :: r2)).
      { eapply proj1. apply (List.filter_In (fun a => same_key ltb (kf x) (kf a))).
        cbn [List.filter]. rewrite <- Hg. left. reflexivity. }
      destruct Hin as [<-|Hin]; [|apply Hy; exact Hin].
      destruct (ltb (kf y) (kf y)) eqn:E; [|reflexivity].
      pose proof (ltb_asym _ _ E). congruence. }
    assert (Hyx : ltb (kf y) (kf x) = false).
    { pose proof (Hgroups (kf y)) as Hg. cbn [List.filter] in Hg.
      rewrite same_key_refl in Hg.
      assert (Hin : In y (x :: r1)).
      { eapply proj1. apply (List.filter_In (fun a => same_key ltb (kf y) (kf a))).
        cbn [List.filter]. rewrite Hg. left. reflexivity. }
      destruct Hin as [<-|Hin]; [|apply Hx; exact Hin].
      destruct (ltb (kf x) (kf x)) eqn:E; [|reflexivity].
      pose proof (ltb_asym _ _ E). congruence. }
    assert (Heq : x = y).
    { pose proof (Hgroups (kf x)) as Hg. cbn [List.filter] in Hg.
      rewrite same_key_refl in Hg. unfold same_key at 2 in Hg.
      rewrite Hxy, Hyx in Hg. cbn in Hg. congruence. }
    subst y. f_equal. apply IH; [assumption..|].
    intros k. specialize (Hgroups k). cbn [List.filter] in Hgroups.
    destruct (same_key ltb k (kf x)); congruence.
Qed.

End SortedTheory.

(** ** The sort keys *)

Lemma string_ltb_lt (a b : string) : string_ltb a b = true <-> String_as_OT.lt a b.
Proof.
  unfold string_ltb, String_as_OT.lt.
  destruct (String_as_OT.compare a b); split; congruence.
Qed.

Lemma string_ltb_asym (a b : string) : string_ltb a b = true -> string_ltb b a = false.
Proof.
  intros Hab. apply not_true_iff_false. intros Hba.
  apply string_ltb_lt in Hab, Hba.
  apply (StrictOrder_Irreflexive (R := String_as_OT.lt) a).
  eapply (StrictOrder_Transitive (R := String_as_OT.lt)); eassumption.
Qed.

Lemma string_ltb_cotrans (a b c : string) :
  string_ltb a b = true -> string_ltb a c = true \/ string_ltb c b = true.
Proof.
  intros Hab. apply string_ltb_lt in Hab.
  destruct (String_as_OT.compare_spec a c) as [Heq|Hlt|Hgt].
  - hnf in Heq. subst c. right. apply string_ltb_lt. assumption.
  - left. apply string_ltb_lt. assumption.
  - right. apply string_ltb_lt.
    eapply (StrictOrder_Transitive (R := String_as_OT.lt)); eassumption.
Qed.

Lemma string_ltb_irrefl (a : string) : string_ltb a a = false.
Proof.
  destruct (string_ltb a a) eqn:H; [|reflexivity].
  pose proof (string_ltb_asym _ _ H). congruence.
Qed.

(** Names that [<] does not separate are equal. *)
Lemma string_same_key (a b : string) :
  same_key string_ltb a b = String.eqb b a.
Proof.
  unfold same_key. destruct (String.eqb_spec b a) as [->|Hne].
  - rewrite string_ltb_irrefl. reflexivity.
  - destruct (String_as_OT.compare_spec a b) as [Heq|Hlt|Hgt].
    + hnf in Heq. congruence.
    + apply string_ltb_lt in Hlt. rewrite Hlt. reflexivity.
    + apply string_ltb_lt in Hgt. rewrite Hgt. apply andb_false_r.
Qed.

Lemma key_name_ltb_asym (x y : Z * string) :
  key_name_ltb x y = true -> key_name_ltb y x = false.
Proof.
  unfold key_name_ltb. destruct x as [a s], y as [b t]. cbn [fst snd].
  destruct (Z.eqb_spec a b) as [->|Hne].
  - rewrite Z.eqb_refl. apply string_ltb_asym.
  - intros Hlt. apply Z.ltb_lt in Hlt.
    destruct (Z.eqb_spec b a); [lia|]. apply Z.ltb_ge. lia.
Qed.

Lemma key_name_ltb_cotrans (x y z : Z * string) :
  key_name_ltb x y = true -> key_name_ltb x z = true \/ key_name_ltb z y = true.
Proof.
  unfold key_name_ltb. destruct x as [a s], y as [b t], z as [c u]. cbn [fst snd].
  destruct (Z.eqb_spec a b) as [->|Hab]; intros H.
  - destruct (Z.eqb_spec b c) as [->|Hbc].
    + rewrite Z.eqb_refl. apply string_ltb_cotrans. assumption.
    + destruct (Z.eqb_spec c b); [lia|].
      destruct (Z.ltb_spec b c); [left; reflexivity|].
      right. apply Z.ltb_lt. lia.
  - apply Z.ltb_lt in H.
    destruct (Z.eqb_spec a c) as [->|Hac].
    + right. destruct (Z.eqb_spec c b); [lia|]. apply Z.ltb_lt. lia.
    + destruct (Z.ltb_spec a c); [left; reflexivity|].
      right. destruct (Z.eqb_spec c b); [lia|]. apply Z.ltb_lt. lia.
Qed.

Lemma key_num_ltb_asym (x y : Z * Z) :
  key_num_ltb x y = true -> key_num_ltb y x = false.
Proof.
  unfold key_num_ltb. destruct x as [a s], y as [b t]. cbn [fst snd].
  destruct (Z.eqb_spec a b), (Z.eqb_spec b a); try lia;
    rewrite ?Z.ltb_lt, ?Z.ltb_ge; lia.
Qed.

Lemma key_num_ltb_cotrans (x y z : Z * Z) :
  key_num_ltb x y = true -> key_num_ltb x z = true \/ key_num_ltb z y = true.
Proof.
  unfold key_num_ltb. destruct x as [a s], y as [b t], z as [c u]. cbn [fst snd].
  destruct (Z.eqb_spec a b), (Z.eqb_spec a c), (Z.eqb_spec c b); try lia;
    rewrite ?Z.ltb_lt; lia.
Qed.

(** ** The column order *)

Lemma key_name_sorted (pr : list Z) (labels : list string) (m m' : nat) :
  key_name_ltb (- priority_of pr m', name_of labels m')
               (- priority_of pr m, name_of labels m) = false ->
  before_by_name pr labels m m'.
Proof.
  unfold key_name_ltb, before_by_name, name_leb. cbn [fst snd].
  destruct (Z.eqb_spec (- priority_of pr m') (- priority_of pr m)) as [Heq|Hne]; intros H.
  - right. split; [lia|]. rewrite H. reflexivity.
  - left. apply Z.ltb_ge in H. lia.
Qed.

Lemma key_name_same (pr : list Z) (labels : list string) (p : Z) (s : string) (m : nat) :
  same_key key_name_ltb (- p, s) (- priority_of pr m, name_of labels m)
  = (priority_of pr m =? p) && String.eqb (name_of labels m) s.
Proof.
  pose proof (string_same_key s (name_of labels m)) as Hs.
  unfold same_key, key_name_ltb in *. cbn [fst snd].
  destruct (Z.eqb_spec (priority_of pr m) p) as [->|Hne].
  - rewrite Z.eqb_refl. exact Hs.
  - destruct (Z.eqb_spec (- p) (- priority_of pr m)); [lia|].
    destruct (Z.eqb_spec (- priority_of pr m) (- p)); [lia|].
    destruct (Z.ltb_spec (- p) (- priority_of pr m)); [reflexivity|].
    destruct (Z.ltb_spec (- priority_of pr m) (- p)); [reflexivity|]. lia.
Qed.

Lemma key_num_sorted (pr : list Z) (m m' : nat) :
  key_num_ltb (- priority_of pr m', 0) (- priority_of pr m, 0) = false ->
  before_by_priority pr m m'.
Proof.
  unfold key_num_ltb, before_by_priority. cbn [fst snd].
  destruct (Z.eqb_spec (- priority_of pr m') (- priority_of pr m)); intros H; [lia|].
  apply Z.ltb_ge in H. lia.
Qed.

Lemma key_num_same (pr : list Z) (p : Z) (m : nat) :
  same_key key_num_ltb (- p, 0) (- priority_of pr m, 0) = (priority_of pr m =? p).
Proof.
  unfold same_key, key_num_ltb. cbn [fst snd].
  destruct (Z.eqb_spec (priority_of pr m) p) as [->|Hne].
  - rewrite Z.eqb_refl. reflexivity.
  - destruct (Z.eqb_spec (- p) (- priority_of pr m)); [lia|].
    destruct (Z.eqb_spec (- priority_of pr m) (- p)); [lia|].
    destruct (Z.ltb_spec (- p) (- priority_of pr m)); [reflexivity|].
    destruct (Z.ltb_spec (- priority_of pr m) (- p)); [reflexivity|]. lia.
Qed.

Lemma key_name_sorted_conv (pr : list Z) (labels : list string) (m m' : nat) :
  before_by_name pr labels m m' ->
  key_name_ltb (- priority_of pr m', name_of labels m')
               (- priority_of pr m, name_of labels m) = false.
Proof.
  unfold key_name_ltb, before_by_name, name_leb. cbn [fst snd].
  intros [Hlt|[Heq Hname]].
  - destruct (Z.eqb_spec (- priority_of pr m') (- priority_of pr m)); [lia|].
    apply Z.ltb_ge. lia.
  - rewrite Heq, Z.eqb_refl. apply negb_true_iff. exact Hname.
Qed.

Lemma key_num_sorted_conv (pr : list Z) (m m' : nat) :
  before_by_priority pr m m' ->
  key_num_ltb (- priority_of pr m', 0) (- priority_of pr m, 0) = false.
Proof.
  unfold key_num_ltb, before_by_priority. cbn [fst snd]. intros H.
  destruct (Z.eqb_spec (- priority_of pr m') (- priority_of pr m)); [reflexivity|].
  apply Z.ltb_ge. lia.
Qed.

Lemma key_num_same_any (pr : list Z) (z w : Z) (m : nat) :
  same_key key_num_ltb (z, w) (- priority_of pr m, 0)
  = (priority_of pr m =? - z) && (w =? 0).
Proof.
  unfold same_key, key_num_ltb. cbn [fst snd].
  destruct (Z.eqb_spec (priority_of pr m) (- z)) as [->|Hne].
  - rewrite Z.opp_involutive, Z.eqb_refl.
    destruct (Z.eqb_spec w 0) as [->|Hw]; [reflexivity|].
    destruct (Z.ltb_spec w 0); [reflexivity|].
    destruct (Z.ltb_spec 0 w); [reflexivity|]. lia.
  - destruct (Z.eqb_spec z (- priority_of pr m)); [lia|].
    destruct (Z.eqb_spec (- priority_of pr m) z); [lia|].
    destruct (Z.ltb_spec z (- priority_of pr m)); [reflexivity|].
    destruct (Z.ltb_spec (- priority_of pr m) z); [reflexivity|]. lia.
Qed.

Lemma filter_none {A : Type} (l : list A) : List.filter (fun _ => false) l = [].
Proof. induction l as [|a l IH]; [reflexivity|exact IH]. Qed.

Lemma StronglySorted_filter {A : Type} (R : A -> A -> Prop) (f : A -> bool) (l : list A) :
  StronglySorted R l -> StronglySorted R (List.filter f l).
Proof.
  induction 1 as [|x l Hl IH Hx]; cbn [List.filter]; [constructor|].
  destruct (f x); [|exact IH]. constructor; [exact IH|].
  apply List.Forall_forall. intros y Hy. apply List.filter_In in Hy as [Hy _].
  rewrite List.Forall_forall in Hx. auto.
Qed.

Lemma StronglySorted_weaken {A : Type} (R R' : A -> A -> Prop) (l : list A) :
  (forall a b, R a b -> R' a b) -> StronglySorted R l -> StronglySorted R' l.
Proof.
  intros HR. induction 1 as [|x l Hl IH Hx]; constructor; [exact IH|].
  eapply Forall_impl; [exact Hx|]. apply HR.
Qed.

(** A list in descending priority whose tied groups are each in ascending
    index is ordered by priority and then index. *)
Lemma tied_sorted_refines (pr : list Z) (out : list nat) :
  StronglySorted (before_by_priority pr) out ->
  (forall p, StronglySorted lt (tied pr p out)) ->
  StronglySorted (before_by_index pr) out.
Proof.
  induction 1 as [|m out Hout IH Hm]; intros Htied; [constructor|].
  constructor.
  - apply IH. intros p. specialize (Htied p). unfold tied in *.
    cbn [List.filter] in Htied.
    destruct (priority_of pr m =? p); [|exact Htied].
    inversion Htied; assumption.
  - specialize (Htied (priority_of pr m)). unfold tied in Htied.
    cbn [List.filter] in Htied. rewrite Z.eqb_refl in Htied.
    inversion Htied as [|? ? _ Hlt]; subst.
    apply List.Forall_forall. intros m' Hin.
    rewrite List.Forall_forall in Hm, Hlt.
    specialize (Hm m' Hin). unfold before_by_priority in Hm. unfold before_by_index.
    destruct (Z.eq_dec (priority_of pr m') (priority_of pr m)) as [Heq|Hne]; [|left; lia].
    right. split; [exact Heq|]. apply Hlt. apply List.filter_In.
    split; [exact Hin|]. apply Z.eqb_eq. exact Heq.
Qed.

Lemma name_key_total (pr : list Z) (labels : list string) (displayed : list nat) :
  Forall (fun m => (m < length pr)%nat /\ (m < length labels)%nat) displayed ->
  Forall (fun k =>
            (let* p := index pr k in
             let* name := index labels k in
             Ok (- p, name))
            = Ok (- priority_of pr k, name_of labels k)) displayed.
Proof.
  intros H. eapply Forall_impl; [exact H|]. cbn beta.
  intros m [Hp Hl]. unfold priority_of, name_of.
  rewrite (index_Ok _ _ _ (lookup_nth pr m 0 Hp)). cbn [bind].
  rewrite (index_Ok _ _ _ (lookup_nth labels m ""%string Hl)). reflexivity.
Qed.

Lemma order_by_name (pr : list Z) (labels : list string) (displayed : list nat) :
  Forall (fun m => (m < length pr)%nat /\ (m < length labels)%nat) displayed ->
  exists order,
    hinton_order pr (Some labels) displayed = Ok order
    /\ Permutation displayed order
    /\ StronglySorted (before_by_name pr labels) order
    /\ (forall p s,
          tied_named pr labels p s order = tied_named pr labels p s displayed)
    /\ (forall out,
          StronglySorted (before_by_name pr labels) out ->
          (forall p s,
              tied_named pr labels p s out = tied_named pr labels p s displayed) ->
          out = order).
Proof.
  intros Hall.
  exists (sort_by key_name_ltb (fun m => (- priority_of pr m, name_of labels m)) displayed).
  assert (Hstable : forall p s,
            tied_named pr labels p s
              (sort_by key_name_ltb
                 (fun m => (- priority_of pr m, name_of labels m)) displayed)
            = tied_named pr labels p s displayed).
  { intros p s. unfold tied_named.
    rewrite <- !(List.filter_ext _ _ (key_name_same pr labels p s)).
    apply (sort_by_stable key_name_ltb (fun m => (- priority_of pr m, name_of labels m))).
    apply key_name_ltb_cotrans. }
  split; [|split; [|split; [|split; [exact Hstable|]]]]; cycle 3.
  { intros out Hsorted Hgroups.
    apply (sorted_stable_unique key_name_ltb
             (fun m => (- priority_of pr m, name_of labels m))
             key_name_ltb_asym).
    - eapply StronglySorted_weaken; [|exact Hsorted].
      intros m m'. apply key_name_sorted_conv.
    - apply sort_by_sorted; [apply key_name_ltb_asym|apply key_name_ltb_cotrans].
    - intros [z s]. rewrite <- (Z.opp_involutive z).
      rewrite !(List.filter_ext _ _ (key_name_same pr labels (- z) s)).
      fold (tied_named pr labels (- z) s out).
      fold (tied_named pr labels (- z) s
              (sort_by key_name_ltb
                 (fun m => (- priority_of pr m, name_of labels m)) displayed)).
      rewrite Hgroups, Hstable. reflexivity. }
  - unfold hinton_order. apply sorted_total, name_key_total, Hall.
  - apply sort_by_perm.
  - eapply StronglySorted_weaken; [|apply sort_by_sorted].
    + intros m m'. apply key_name_sorted.
    + apply key_name_ltb_asym.
    + apply key_name_ltb_cotrans.
Qed.

Lemma order_without_names (pr : list Z) (displayed : list nat) :
  Forall (fun m => (m < length pr)%nat) displayed ->
  exists order,
    hinton_order pr None displayed = Ok order
    /\ Permutation displayed order
    /\ StronglySorted (before_by_priority pr) order
    /\ (forall p, tied pr p order = tied pr p displayed)
    /\ (StronglySorted lt displayed -> StronglySorted (before_by_index pr) order)
    /\ (forall out,
          StronglySorted (before_by_priority pr) out ->
          (forall p, tied pr p out = tied pr p displayed) ->
          out = order).
Proof.
  intros Hall.
  exists (sort_by key_num_ltb (fun m => (- priority_of pr m, 0)) displayed).
  assert (Hsorted : StronglySorted (before_by_priority pr)
            (sort_by key_num_ltb (fun m => (- priority_of pr m, 0)) displayed)).
  { eapply StronglySorted_weaken; [|apply sort_by_sorted].
    - intros m m'. apply key_num_sorted.
    - apply key_num_ltb_asym.
    - apply key_num_ltb_cotrans. }
  assert (Hstable : forall p,
            tied pr p (sort_by key_num_ltb (fun m => (- priority_of pr m, 0)) displayed)
            = tied pr p displayed).
  { intros p. unfold tied.
    rewrite <- !(List.filter_ext _ _ (key_num_same pr p)).
    apply (sort_by_stable key_num_ltb (fun m => (- priority_of pr m, 0))).
    apply key_num_ltb_cotrans. }
  split; [|split; [|split; [|split; [|split]]]]; try assumption.
  - unfold hinton_order. apply sorted_total.
    eapply Forall_impl; [exact Hall|]. cbn beta. intros m Hp. unfold priority_of.
    rewrite (index_Ok _ _ _ (lookup_nth pr m 0 Hp)). reflexivity.
  - apply sort_by_perm.
  - intros Hasc. apply tied_sorted_refines; [exact Hsorted|].
    intros p. rewrite Hstable. apply StronglySorted_filter. exact Hasc.
  - intros out Hout Hgroups.
    apply (sorted_stable_unique key_num_ltb (fun m => (- priority_of pr m, 0))
             key_num_ltb_asym).
    + eapply StronglySorted_weaken; [|exact Hout].
      intros m m'. apply key_num_sorted_conv.
    + apply sort_by_sorted; [apply key_num_ltb_asym|apply key_num_ltb_cotrans].
    + intros [z w]. rewrite !(List.filter_ext _ _ (key_num_same_any pr z w)).
      destruct (w =? 0).
      * transitivity (tied pr (- z) out);
          [apply List.filter_ext; intros m; apply andb_true_r|].
        rewrite Hgroups, <- Hstable. symmetry.
        apply List.filter_ext. intros m. apply andb_true_r.
      * transitivity (@nil nat); [|symmetry];
          (erewrite List.filter_ext by (intros m; apply andb_false_r);
           apply filter_none).
Qed.

Lemma clustered_order_hinton_order (patient : Patient) (pr : list Z) (displayed : list nat) :
  clustered_order patient pr displayed
  = hinton_order pr (Some (patient_gene_names patient)) displayed.
Proof. reflexivity. Qed.

(** ** The size of the figure *)

Lemma plt_figure_positive {mpl : matplotlib} (w h : Q) :
  (0 < w)%Q -> (0 < h)%Q -> plt_figure w h = Ok tt.
Proof. intros Hw Hh. unfold plt_figure. rewrite figsize_positive by assumption. reflexivity. Qed.

Lemma plt_figure_negative {mpl : matplotlib} (w h : Q) :
  (w < 0)%Q \/ (h < 0)%Q -> plt_figure w h = Raise ValueError.
Proof. intros H. unfold plt_figure. rewrite figsize_negative by assumption. reflexivity. Qed.

Lemma plt_figure_outcome {mpl : matplotlib} (w h : Q) :
  plt_figure w h = Ok tt \/ plt_figure w h = Raise ValueError.
Proof. unfold plt_figure. destruct (figsize_accepted w h); auto. Qed.

Lemma inches_positive (z : Z) : 0 < z -> (0 < inject_Z z / 20)%Q.
Proof.
  intros Hz. apply Qlt_shift_div_l; [reflexivity|].
  rewrite Qmult_0_l. change 0%Q with (inject_Z 0). rewrite <- Zlt_Qlt. exact Hz.
Qed.

Lemma inches_negative (z : Z) : z < 0 -> (inject_Z z / 20 < 0)%Q.
Proof.
  intros Hz. apply Qlt_shift_div_r; [reflexivity|].
  rewrite Qmult_0_l. change 0%Q with (inject_Z 0). rewrite <- Zlt_Qlt. exact Hz.
Qed.

(** A figure that comes out of a guarded computation is the guarded one. *)
Lemma guarded_Ok {A B : Type} (guard : result A) (b b' : B) :
  (let* _ := guard in Ok b) = Ok b' -> b = b'.
Proof. destruct guard; cbn [bind]; congruence. Qed.

Lemma guarded_twice_Ok {A A' B : Type} (guard : result A) (guard' : result A')
    (b b' : B) :
  (let* _ := guard in let* _ := guard' in Ok b) = Ok b' ->
  b = b' /\ (exists a, guard = Ok a) /\ (exists a', guard' = Ok a').
Proof.
  destruct guard as [a|e]; cbn [bind]; [|discriminate].
  destruct guard' as [a'|e]; cbn [bind]; [|discriminate].
  intros H. injection H as <-. repeat split; eauto.
Qed.

Lemma bind_guard_ext {A B : Type} (guard : result A) (k k' : A -> result B) :
  (forall a, guard = Ok a -> k a = k' a) -> bind guard k = bind guard k'.
Proof. intros H. destruct guard as [a|e]; cbn [bind]; [apply H|]; reflexivity. Qed.

(** [sch.dendrogram] returns the leaves of at least two samples, each once. *)
Lemma is_leaf_list_spec (den_leaves : list nat) (n : nat) :
  is_leaf_list den_leaves n = true
  <-> (2 <= n)%nat /\ Permutation den_leaves (seq 0 n).
Proof.
  unfold is_leaf_list. rewrite !andb_true_iff, Nat.leb_le, Nat.eqb_eq, forallb_forall.
  split.
  - intros [[Hn Hlen] Hall]. split; [exact Hn|]. symmetry.
    apply NoDup_Permutation_bis.
    + apply seq_NoDup.
    + rewrite length_seq. lia.
    + intros i Hi. destruct (proj1 (existsb_exists _ _) (Hall i Hi)) as (j & Hj & Hij).
      apply Nat.eqb_eq in Hij. subst j. exact Hj.
  - intros [Hn Hperm]. split; [split; [exact Hn|]|].
    + rewrite (Permutation_length Hperm). apply length_seq.
    + intros i Hi. apply existsb_exists. exists i. split; [|apply Nat.eqb_refl].
      eapply Permutation_in; [symmetry; exact Hperm|exact Hi].
Qed.

Lemma sch_dendrogram_leaves (den_leaves : list nat) (labels : list string) :
  (2 <= length labels)%nat ->
  Permutation den_leaves (seq 0 (length labels)) ->
  sch_dendrogram den_leaves labels = Ok den_leaves.
Proof.
  intros Hn Hperm. unfold sch_dendrogram.
  rewrite (proj2 (is_leaf_list_spec _ _) (conj Hn Hperm)). reflexivity.
Qed.

Lemma sch_dendrogram_Ok_inv (den_leaves leaves : list nat) (labels : list string) :
  sch_dendrogram den_leaves labels = Ok leaves ->
  leaves = den_leaves
  /\ (2 <= length labels)%nat
  /\ Permutation den_leaves (seq 0 (length labels)).
Proof.
  unfold sch_dendrogram. destruct (is_leaf_list _ _) eqn:H; [|discriminate].
  intros Heq. injection Heq as <-. split; [reflexivity|].
  apply is_leaf_list_spec. exact H.
Qed.

Lemma sch_dendrogram_refuses (den_leaves : list nat) (labels : list string) :
  ~ ((2 <= length labels)%nat /\ Permutation den_leaves (seq 0 (length labels))) ->
  sch_dendrogram den_leaves labels = Raise ValueError.
Proof.
  intros H. unfold sch_dendrogram. destruct (is_leaf_list _ _) eqn:E; [|reflexivity].
  exfalso. apply H, is_leaf_list_spec. exact E.
Qed.

(** The figure of [clustered_table] is at least 2 wide. *)
Lemma clustered_width_positive (row_labels : option (list string)) (displayed : list nat)
    (n : nat) :
  (0 < (inject_Z ((match row_labels with Some _ => - label_x_pos + 20 | None => 0 end)
                  + (- label_x_pos + Z.of_nat (length displayed) * width))
        + inject_Z (Z.of_nat n * width) / 2) / 20)%Q.
Proof.
  apply Qlt_shift_div_l; [reflexivity|]. rewrite Qmult_0_l.
  assert (H1 : (2 <= inject_Z ((match row_labels with
                                | Some _ => - label_x_pos + 20
                                | None => 0
                                end)
                               + (- label_x_pos + Z.of_nat (length displayed) * width)))%Q).
  { change 2%Q with (inject_Z 2). rewrite <- Zle_Qle.
    unfold label_x_pos, width. destruct row_labels; lia. }
  assert (H2 : (0 <= inject_Z (Z.of_nat n * width) / 2)%Q).
  { apply Qle_shift_div_l; [reflexivity|]. rewrite Qmult_0_l.
    change 0%Q with (inject_Z 0). rewrite <- Zle_Qle. unfold width. lia. }
  Lqa.lra.
Qed.

(** The height [5 * S - 1], plus 20 with column labels, shared by the three
    tables: it is positive unless there is no sample and no column label, and
    then it is -1. *)
Lemma table_height_positive (row0 : list Q) (column_labels : option (list string)) :
  row0 <> [] \/ column_labels <> None ->
  0 < Z.of_nat (length row0) * (height + y_spacing) - y_spacing
      + match column_labels with Some _ => label_y_pos + 20 | None => 0 end.
Proof.
  unfold height, y_spacing, label_y_pos. intros [H | H].
  - destruct row0; [congruence|]. cbn [length]. destruct column_labels; lia.
  - destruct column_labels; [lia|congruence].
Qed.

Lemma table_height_negative (column_labels : option (list string)) :
  column_labels = None ->
  Z.of_nat (length (@nil Q)) * (height + y_spacing) - y_spacing
  + match column_labels with Some _ => label_y_pos + 20 | None => 0 end < 0.
Proof. intros ->. unfold height, y_spacing. cbn. lia. Qed.

Lemma hinton_width_positive (row_labels : option (list string)) (displayed : list nat) :
  displayed <> [] \/ row_labels <> None ->
  0 < (match row_labels with Some _ => - label_x_pos + 20 | None => 0 end)
      + Z.of_nat (length displayed) * width.
Proof.
  unfold label_x_pos, width. intros [H | H].
  - destruct displayed; [congruence|]. cbn [length]. destruct row_labels; lia.
  - destruct row_labels; [lia|congruence].
Qed.

(** ** The figure of [hinton] *)

Section HintonFigure.
Context {settings : int_settings} {mpl : matplotlib}.

Lemma hinton_color_class (maf : Q) : hinton_color maf = class_hue (classify maf).
Proof.
  unfold hinton_color, classify.
  destruct (Qlt_bool 0 maf); [reflexivity|].
  destruct (Qeq_bool maf POS_UNKNOWN); [reflexivity|].
  destruct (Qeq_bool maf NEG_UNKNOWN); reflexivity.
Qed.

Lemma hinton_cells_loop (x_pos : nat) (n : nat) : forall row start patches,
  for_each (hinton_cell x_pos (Z.of_nat n)) (enumerate_from start row) patches
  = Ok (patches ++ imap (fun i maf => table_cell x_pos (start + i) n maf) row).
Proof.
  induction row as [|maf row IH]; intros start patches;
    cbn [enumerate_from for_each].
  - cbn. rewrite app_nil_r. reflexivity.
  - unfold hinton_cell at 1. cbn [bind]. rewrite IH, <- app_assoc, imap_cons.
    rewrite hinton_color_class, Nat.add_0_r. do 2 f_equal. cbn [app]. f_equal.
    apply imap_ext. intros i x _. cbn. f_equal. lia.
Qed.

Lemma hinton_columns_loop (data : list (list Q)) : forall order start patches,
  Forall (fun m => (m < length data)%nat) order ->
  for_each (hinton_column data) (enumerate_from start order) patches
  = Ok (patches ++ concat (imap (fun x m =>
                      hinton_column_cells (start + x) (nth m data [])) order)).
Proof.
  induction order as [|m order IH]; intros start patches Hall;
    cbn [enumerate_from for_each].
  - cbn. rewrite app_nil_r. reflexivity.
  - apply Forall_cons in Hall as [Hm Hall].
    unfold hinton_column at 1.
    rewrite (index_Ok _ _ _ (lookup_nth data m [] Hm)). cbn [bind].
    unfold enumerate. rewrite hinton_cells_loop. cbn [bind].
    rewrite IH by exact Hall. rewrite imap_cons. cbn [concat].
    rewrite <- app_assoc, Nat.add_0_r. do 4 f_equal.
    apply imap_ext. intros x m' _. cbn. f_equal. lia.
Qed.

Lemma hinton_row_labels_loop (n : Z) : forall (labels : list string) start texts,
  exists extra,
    for_each (hinton_row_label n) (enumerate_from start labels) texts
    = Ok (texts ++ extra)
    /\ length extra = length labels.
Proof.
  induction labels as [|name labels IH]; intros start texts;
    cbn [enumerate_from for_each].
  - exists []. rewrite app_nil_r. split; reflexivity.
  - unfold hinton_row_label at 1. cbn [bind].
    edestruct IH as (extra & Hrun & Hlen). rewrite Hrun.
    eexists (_ :: extra). rewrite <- app_assoc. split; [reflexivity|].
    cbn. rewrite Hlen. reflexivity.
Qed.

Lemma hinton_column_labels_loop (data : list (list Q)) (labels : list string) :
  forall order start texts,
    Forall (fun m => (m < length data)%nat /\ (m < length labels)%nat) order ->
    exists extra,
      for_each (hinton_column_label data labels) (enumerate_from start order) texts
      = Ok (texts ++ extra)
      /\ length extra = length order.
Proof.
  induction order as [|m order IH]; intros start texts Hall;
    cbn [enumerate_from for_each].
  - exists []. rewrite app_nil_r. split; reflexivity.
  - apply Forall_cons in Hall as [[Hdata Hname] Hall].
    unfold hinton_column_label at 1.
    rewrite (index_Ok _ _ _ (lookup_nth data m [] Hdata)). cbn [bind].
    rewrite (index_Ok _ _ _ (lookup_nth labels m ""%string Hname)). cbn [bind].
    edestruct IH as (extra & Hrun & Hlen); [exact Hall|]. rewrite Hrun.
    eexists (_ :: extra). rewrite <- app_assoc. split; [reflexivity|].
    cbn. rewrite Hlen. reflexivity.
Qed.

(** On a matrix with a first row and with every displayed index in range,
    [hinton] returns a figure whose columns follow the sorted order. *)
Lemma hinton_run (data : list (list Q)) (row0 : list Q)
    (row_labels column_labels : option (list string))
    (displayed_mutations : option (list nat)) :
  data !! 0%nat = Some row0 ->
  Forall (fun m => (m < length data)%nat
                   /\ match column_labels with
                      | Some labels => (m < length labels)%nat
                      | None => True
                      end)
         (displayed_or_all data displayed_mutations) ->
  exists fig pr order,
    hinton data row_labels column_labels displayed_mutations
    = (let* _ :=
         plt_figure
           (inject_Z ((match row_labels with Some _ => - label_x_pos + 20 | None => 0 end)
                      + Z.of_nat (length (displayed_or_all data displayed_mutations))
                        * width) / 20)
           (inject_Z (Z.of_nat (length row0) * (height + y_spacing) - y_spacing
                      + match column_labels with
                        | Some _ => label_y_pos + 20
                        | None => 0
                        end) / 20) in
       Ok fig)
    /\ hinton_priorities data (displayed_or_all data displayed_mutations) = Ok pr
    /\ hinton_order pr column_labels (displayed_or_all data displayed_mutations)
       = Ok order
    /\ patches fig
       = concat (imap (fun x m => hinton_column_cells x (nth m data [])) order)
    /\ y_length fig
       = 5 * Z.of_nat (length row0) - 1
         + match column_labels with Some _ => 20 | None => 0 end.
Proof.
  intros Hrow0 Hall.
  set (displayed := displayed_or_all data displayed_mutations) in *.
  destruct (hinton_priorities_count data displayed) as (pr & Hpr & Hlenpr & _).
  { eapply Forall_impl; [exact Hall|]. cbn beta. tauto. }
  assert (Horder : exists order,
             hinton_order pr column_labels displayed = Ok order
             /\ Permutation displayed order).
  { destruct column_labels as [labels|].
    - destruct (order_by_name pr labels displayed) as (order & Ho & Hp & _).
      + eapply Forall_impl; [exact Hall|]. cbn beta. intros m [Hm Hl].
        split; [rewrite Hlenpr|]; assumption.
      + eauto.
    - destruct (order_without_names pr displayed) as (order & Ho & Hp & _).
      + eapply Forall_impl; [exact Hall|]. cbn beta. intros m [Hm _].
        rewrite Hlenpr. exact Hm.
      + eauto. }
  destruct Horder as (order & Horder & Hperm).
  pose proof (Permutation_Forall Hperm Hall) as Hall'.
  assert (Hcols : for_each (hinton_column data) (enumerate order) []
                  = Ok ([] ++ concat (imap (fun x m =>
                            hinton_column_cells (0 + x) (nth m data [])) order))).
  { apply hinton_columns_loop.
    eapply Forall_impl; [exact Hall'|]. cbn beta. tauto. }
  assert (Htexts : exists texts,
             match row_labels with
             | Some labels =>
                 for_each (hinton_row_label (Z.of_nat (length labels)))
                          (enumerate labels) []
             | None => Ok []
             end = Ok texts).
  { destruct row_labels as [labels|]; [|eauto].
    destruct (hinton_row_labels_loop (Z.of_nat (length labels)) labels 0%nat [])
      as (extra & Hrun & _). eauto. }
  destruct Htexts as (texts & Htexts).
  assert (Hlabels : exists texts',
             match column_labels with
             | Some labels =>
                 let* order := hinton_order pr (Some labels) displayed in
                 for_each (hinton_column_label data labels) (enumerate order) texts
             | None => Ok texts
             end = Ok texts').
  { destruct column_labels as [labels|]; [|eauto].
    rewrite Horder. cbn [bind].
    destruct (hinton_column_labels_loop data labels order 0%nat texts Hall')
      as (extra & Hrun & _). eauto. }
  destruct Hlabels as (texts' & Hlabels).
  eexists _, pr, order. split; [|split; [exact Hpr|split; [exact Horder|]]].
  - unfold hinton. fold displayed.
    rewrite (index_Ok _ _ _ Hrow0). cbn [bind]. f_equal.
    rewrite Hpr. cbn [bind].
    rewrite Horder. cbn [bind]. rewrite Hcols. cbn [bind].
    rewrite Htexts. cbn [bind]. rewrite Hlabels. cbn [bind]. reflexivity.
  - cbn [patches y_length app]. split; [reflexivity|].
    unfold height, y_spacing, label_y_pos. destruct column_labels; lia.
Qed.

(** [hinton] returns when the loops can run and the figure has positive
    sides. *)
Lemma hinton_returns (data : list (list Q)) (row0 : list Q)
    (row_labels column_labels : option (list string))
    (displayed_mutations : option (list nat)) (fig : Figure) :
  hinton data row_labels column_labels displayed_mutations
  = (let* _ :=
       plt_figure
         (inject_Z ((match row_labels with Some _ => - label_x_pos + 20 | None => 0 end)
                    + Z.of_nat (length (displayed_or_all data displayed_mutations))
                      * width) / 20)
         (inject_Z (Z.of_nat (length row0) * (height + y_spacing) - y_spacing
                    + match column_labels with
                      | Some _ => label_y_pos + 20
                      | None => 0
                      end) / 20) in
     Ok fig) ->
  row0 <> [] \/ column_labels <> None ->
  displayed_or_all data displayed_mutations <> [] \/ row_labels <> None ->
  hinton data row_labels column_labels displayed_mutations = Ok fig.
Proof.
  intros Hrun Hrows Hcols. rewrite Hrun, plt_figure_positive; [reflexivity| |].
  - apply inches_positive, hinton_width_positive. exact Hcols.
  - apply inches_positive, table_height_positive. exact Hrows.
Qed.

End HintonFigure.

(** C3, as the code has it.  [hinton] and [clustered_table] lay the displayed
    mutations out, left to right, in descending priority.  Among equal
    priorities the smaller name comes first, compared by character codes
    (case-sensitive): the column labels in [hinton] when they are supplied,
    the patient's gene names in [clustered_table] in every case.  Mutations
    that tie on the whole key keep the order in which [displayed_mutations]
    lists them; without column labels in [hinton] that is the only tiebreak,
    and it is the ascending mutation index whenever the list itself is
    ascending, as the default list of all mutations is.  These properties
    determine the order: it is a function of the inputs.  Whenever [hinton]
    returns, its columns stand in that order, and it returns when the figure
    has positive sides. *)
Theorem column_order_stable_sort {settings : int_settings} {mpl : matplotlib} :
  (forall (pr : list Z) (labels : list string) (displayed : list nat),
      Forall (fun m => (m < length pr)%nat /\ (m < length labels)%nat) displayed ->
      exists order,
        hinton_order pr (Some labels) displayed = Ok order
        /\ Permutation displayed order
        /\ StronglySorted (before_by_name pr labels) order
        /\ (forall p s,
              tied_named pr labels p s order = tied_named pr labels p s displayed)
        /\ (forall out,
              StronglySorted (before_by_name pr labels) out ->
              (forall p s,
                  tied_named pr labels p s out = tied_named pr labels p s displayed) ->
              out = order))
  /\ (forall (pr : list Z) (displayed : list nat),
      Forall (fun m => (m < length pr)%nat) displayed ->
      exists order,
        hinton_order pr None displayed = Ok order
        /\ Permutation displayed order
        /\ StronglySorted (before_by_priority pr) order
        /\ (forall p, tied pr p order = tied pr p displayed)
        /\ (StronglySorted lt displayed -> StronglySorted (before_by_index pr) order)
        /\ (forall out,
              StronglySorted (before_by_priority pr) out ->
              (forall p, tied pr p out = tied pr p displayed) ->
              out = order))
  /\ (forall (patient : Patient) (pr : list Z) (displayed : list nat),
      Forall (fun m => (m < length pr)%nat
                       /\ (m < length (patient_gene_names patient))%nat) displayed ->
      exists order,
        clustered_order patient pr displayed = Ok order
        /\ Permutation displayed order
        /\ StronglySorted (before_by_name pr (patient_gene_names patient)) order
        /\ (forall p s,
              tied_named pr (patient_gene_names patient) p s order
              = tied_named pr (patient_gene_names patient) p s displayed)
        /\ (forall out,
              StronglySorted (before_by_name pr (patient_gene_names patient)) out ->
              (forall p s,
                  tied_named pr (patient_gene_names patient) p s out
                  = tied_named pr (patient_gene_names patient) p s displayed) ->
              out = order))
  /\ (forall (data : list (list Q)), StronglySorted lt (displayed_or_all data None))
  /\ (forall (data : list (list Q)) (row0 : list Q)
             (row_labels column_labels : option (list string))
             (displayed_mutations : option (list nat)),
      data !! 0%nat = Some row0 ->
      Forall (fun m => (m < length data)%nat
                       /\ match column_labels with
                          | Some labels => (m < length labels)%nat
                          | None => True
                          end)
             (displayed_or_all data displayed_mutations) ->
      exists pr order,
        hinton_priorities data (displayed_or_all data displayed_mutations) = Ok pr
        /\ hinton_order pr column_labels (displayed_or_all data displayed_mutations)
           = Ok order
        /\ (forall fig,
              hinton data row_labels column_labels displayed_mutations = Ok fig ->
              patches fig
              = concat (imap (fun x m => hinton_column_cells x (nth m data [])) order))
        /\ (row0 <> [] \/ column_labels <> None ->
            displayed_or_all data displayed_mutations <> [] \/ row_labels <> None ->
            exists fig,
              hinton data row_labels column_labels displayed_mutations = Ok fig)).
Proof.
  split; [exact order_by_name|]. split; [exact order_without_names|].
  split; [|split].
  - intros patient pr displayed Hall. rewrite clustered_order_hinton_order.
    apply order_by_name. exact Hall.
  - intros data. unfold displayed_or_all. generalize 0%nat.
    induction (length data) as [|n IH]; intros start; cbn [seq]; constructor;
      [apply IH|].
    apply List.Forall_forall. intros m Hm. apply in_seq in Hm. lia.
  - intros data row0 row_labels column_labels displayed_mutations Hrow0 Hall.
    destruct (hinton_run data row0 row_labels column_labels displayed_mutations
                Hrow0 Hall)
      as (fig & pr & order & Hrun & Hpr & Horder & Hpatches & _).
    exists pr, order. split; [exact Hpr|]. split; [exact Horder|]. split.
    + intros fig' Hfig. rewrite Hrun in Hfig. apply guarded_Ok in Hfig.
      subst fig'. exact Hpatches.
    + intros Hrows Hcols. exists fig. eapply hinton_returns; eassumption.
Qed.

Lemma column_order_stable_sort_witness :
  (exists order,
      hinton_order [3; 12; 3; 3] (Some ["b"; "a"; "a"; "B"]%string) [0; 1; 2; 3]%nat
      = Ok order
      /\ StronglySorted (before_by_name [3; 12; 3; 3] ["b"; "a"; "a"; "B"]%string) order)
  /\ (exists order,
      hinton_order [3; 12; 3] None [2; 1; 0]%nat = Ok order
      /\ forall p, tied [3; 12; 3] p order = tied [3; 12; 3] p [2; 1; 0]%nat)
  /\ (exists order,
      clustered_order scenario_B [3] [0%nat] = Ok order
      /\ Permutation [0%nat] order)
  /\ (exists fig pr order,
      @hinton sample_settings sample_matplotlib scenario_A None None None = Ok fig
      /\ @hinton_priorities sample_settings scenario_A [0; 1; 2]%nat = Ok pr
      /\ hinton_order pr None [0; 1; 2]%nat = Ok order
      /\ patches fig
         = concat (imap (fun x m => @hinton_column_cells sample_settings x
                                      (nth m scenario_A [])) order)).
Proof.
  split; [|split; [|split]].
  - destruct (proj1 (@column_order_stable_sort sample_settings sample_matplotlib)
                [3; 12; 3; 3]
                ["b"; "a"; "a"; "B"]%string [0; 1; 2; 3]%nat)
      as (order & Hrun & _ & Hsorted & _).
    + repeat constructor; cbn; lia.
    + exists order. split; assumption.
  - destruct (proj1 (proj2 (@column_order_stable_sort sample_settings
                              sample_matplotlib))
                [3; 12; 3] [2; 1; 0]%nat)
      as (order & Hrun & _ & _ & Hstable & _).
    + repeat constructor; cbn; lia.
    + exists order. split; assumption.
  - destruct (proj1 (proj2 (proj2 (@column_order_stable_sort sample_settings
                                     sample_matplotlib)))
                scenario_B [3] [0%nat])
      as (order & Hrun & Hperm & _).
    + repeat constructor; cbn; lia.
    + exists order. split; assumption.
  - destruct (proj2 (proj2 (proj2 (proj2 (@column_order_stable_sort sample_settings
                                            sample_matplotlib))))
                scenario_A [PRESENT; ABSENT] None None None)
      as (pr & order & Hpr & Horder & Hcolumns & Hreturns).
    + reflexivity.
    + cbn. repeat constructor; lia.
    + destruct Hreturns as (fig & Hfig); [left; discriminate..|].
      exists fig, pr, order. repeat split; try assumption.
      apply Hcolumns. exact Hfig.
Defined.

(** C3 as stated fails: without column labels, two mutations of equal
    priority listed as 1, 0 stay in that order, and [clustered_table] orders
    ties by gene name whether or not column labels are supplied. *)
Lemma column_order_index_tiebreak_counterexample :
  @hinton_priorities sample_settings [[PRESENT]; [PRESENT]] [1; 0]%nat = Ok [3; 3]
  /\ hinton_order [3; 3] None [1; 0]%nat = Ok [1; 0]%nat
  /\ ~ StronglySorted (before_by_index [3; 3]) [1; 0]%nat
  /\ clustered_order (mkPatient [[PRESENT]; [PRESENT]] 1 ["S"]%string ["B"; "A"]%string)
       [3; 3] [0; 1]%nat = Ok [1; 0]%nat.
Proof.
  split; [reflexivity|]. split; [reflexivity|]. split; [|reflexivity].
  intros H. inversion H as [|? ? _ Hall]; subst.
  inversion Hall as [|? ? Hb _]; subst.
  unfold before_by_index, priority_of in Hb. cbn in Hb. lia.
Qed.

(** ** Cells and labels of [clustered_table] *)

Section ClusteredGeometry.
Context {settings : int_settings}.

Lemma clustered_cell_loop patient lo x_pos mut_idx row :
  patient_data patient !! mut_idx = Some row ->
  forall len start patches,
    (forall i, (start <= i < start + len)%nat ->
               (i < length lo)%nat /\ (nth i lo 0%nat < length row)%nat) ->
    for_each (clustered_cell patient lo x_pos mut_idx) (seq start len) patches
    = Ok (patches ++ map (fun i => table_cell x_pos i (length row)
                                     (nth (nth i lo 0%nat) row 0%Q))
                         (seq start len)).
Proof.
  intros Hrow. induction len as [|len IH]; intros start patches Hin;
    cbn [seq for_each map].
  - rewrite app_nil_r. reflexivity.
  - destruct (Hin start) as [Hlo Hsa]; [lia|].
    unfold clustered_cell at 1.
    rewrite (index_Ok _ _ _ (lookup_nth lo start 0%nat Hlo)). cbn [bind].
    rewrite (index_Ok _ _ _ Hrow). cbn [bind].
    rewrite (index_Ok _ _ _ (lookup_nth row _ 0%Q Hsa)). cbn [bind].
    rewrite IH by (intros i Hi; apply Hin; lia).
    rewrite <- app_assoc, hinton_color_class. reflexivity.
Qed.

(** The cells of one column, top to bottom. *)
Lemma clustered_column_spec patient lo x_pos mut_idx row patches :
  patient_data patient !! mut_idx = Some row ->
  length lo = length row ->
  (forall i, (i < length row)%nat -> (nth i lo 0%nat < length row)%nat) ->
  clustered_column patient lo (x_pos, mut_idx) patches
  = Ok (patches ++ map (fun i => table_cell x_pos i (length row)
                                   (nth (nth i lo 0%nat) row 0%Q))
                       (seq 0 (length row))).
Proof.
  intros Hrow Hlen Hlo. unfold clustered_column.
  rewrite (index_Ok _ _ _ Hrow). cbn [bind].
  apply clustered_cell_loop; [exact Hrow|].
  intros i Hi. split; [lia | apply Hlo; lia].
Qed.

Lemma clustered_columns_loop patient lo (ns : nat) :
  length lo = ns ->
  (forall i, (i < ns)%nat -> (nth i lo 0%nat < ns)%nat) ->
  forall order start patches,
    Forall (fun m => exists row, patient_data patient !! m = Some row /\ length row = ns)
           order ->
    exists columns,
      for_each (clustered_column patient lo) (enumerate_from start order) patches
      = Ok (patches ++ concat columns)
      /\ Forall (fun col => length col = ns) columns
      /\ forall x m row i,
          order !! x = Some m ->
          patient_data patient !! m = Some row ->
          (i < ns)%nat ->
          exists col,
            columns !! x = Some col
            /\ col !! i = Some (table_cell (start + x) i ns (nth (nth i lo 0%nat) row 0%Q)).
Proof.
  intros Hlen Hlo. induction order as [|m order IH]; intros start patches Hall;
    cbn [enumerate_from for_each].
  - exists []. cbn. rewrite app_nil_r. repeat split; [constructor|].
    intros x m row i Hx. rewrite lookup_nil in Hx. discriminate.
  - apply Forall_cons in Hall as [(row & Hrow & HS) Hall].
    rewrite (clustered_column_spec _ _ _ _ _ _ Hrow) by (rewrite HS; assumption).
    cbn [bind]. rewrite HS.
    destruct (IH (S start)
                (patches ++ map (fun i => table_cell start i ns
                                            (nth (nth i lo 0%nat) row 0%Q)) (seq 0 ns))
                Hall)
      as (columns & Hrun & Hlens & Hcells).
    exists (map (fun i => table_cell start i ns (nth (nth i lo 0%nat) row 0%Q)) (seq 0 ns)
            :: columns).
    split; [|split].
    + rewrite Hrun, <- app_assoc. reflexivity.
    + constructor; [|exact Hlens]. rewrite length_map, length_seq. reflexivity.
    + intros x m' row' i Hx Hrow' Hi. destruct x as [|x]; cbn in Hx.
      * injection Hx as <-. assert (row' = row) by congruence. subst row'.
        eexists. split; [reflexivity|].
        rewrite list_lookup_fmap, lookup_seq_lt by assumption. cbn.
        rewrite Nat.add_0_r. reflexivity.
      * destruct (Hcells x m' row' i Hx Hrow' Hi) as (col & Hcol & Hcell).
        exists col. split; [exact Hcol|]. rewrite Hcell.
        replace (S start + x)%nat with (start + S x)%nat by lia. reflexivity.
Qed.

Lemma lookup_concat_block {A : Type} (ns : nat) (columns : list (list A)) :
  Forall (fun col => length col = ns) columns ->
  forall x i col,
    columns !! x = Some col -> (i < ns)%nat ->
    concat columns !! (x * ns + i)%nat = col !! i.
Proof.
  induction 1 as [|c columns Hc _ IH]; intros x i col Hx Hi.
  - rewrite lookup_nil in Hx. discriminate.
  - cbn [concat]. destruct x as [|x]; cbn in Hx.
    + injection Hx as <-. cbn. apply lookup_app_l. lia.
    + rewrite lookup_app_r by (cbn; lia).
      replace (S x * ns + i - length c)%nat with (x * ns + i)%nat by (cbn; lia).
      apply IH; assumption.
Qed.

Lemma lookup_enumerate_from {A : Type} (l : list A) : forall start i,
  enumerate_from start l !! i = (fun a => ((start + i)%nat, a)) <$> l !! i.
Proof.
  induction l as [|a l IH]; intros start i; [reflexivity|].
  destruct i as [|i]; cbn.
  - rewrite Nat.add_0_r. reflexivity.
  - rewrite IH. replace (S start + i)%nat with (start + S i)%nat by lia. reflexivity.
Qed.

Lemma clustered_row_labels_loop (labels : list string) : forall lo start texts,
  Forall (fun sa_idx => (sa_idx < length labels)%nat) lo ->
  for_each (clustered_row_label labels) (enumerate_from start lo) texts
  = Ok (texts ++ map (fun entry => row_label (fst entry) (length labels)
                        (str_replace "_" " " (nth (snd entry) labels ""%string)))
                     (enumerate_from start lo)).
Proof.
  induction lo as [|sa_idx lo IH]; intros start texts Hall;
    cbn [enumerate_from for_each map].
  - rewrite app_nil_r. reflexivity.
  - apply Forall_cons in Hall as [Hsa Hall].
    unfold clustered_row_label at 1.
    rewrite (index_Ok _ _ _ (lookup_nth labels sa_idx ""%string Hsa)). cbn [bind].
    rewrite IH by assumption. rewrite <- app_assoc. reflexivity.
Qed.

Lemma clustered_column_labels_loop patient : forall order start texts,
  Forall (fun m => (exists row, patient_data patient !! m = Some row)
                   /\ (m < length (patient_gene_names patient))%nat) order ->
  exists extra,
    for_each (clustered_column_label patient) (enumerate_from start order) texts
    = Ok (texts ++ extra).
Proof.
  induction order as [|m order IH]; intros start texts Hall;
    cbn [enumerate_from for_each].
  - exists []. rewrite app_nil_r. reflexivity.
  - apply Forall_cons in Hall as [[(row & Hrow) Hname] Hall].
    unfold clustered_column_label at 1.
    rewrite (index_Ok _ _ _ Hrow). cbn [bind].
    rewrite (index_Ok _ _ _ (lookup_nth _ m ""%string Hname)). cbn [bind].
    edestruct IH as (extra & Hrun); [exact Hall|].
    rewrite Hrun. eexists. rewrite <- app_assoc. reflexivity.
Qed.

End ClusteredGeometry.

(** C4.  With the leaves of the dendrogram read from the top
    ([leave_ordering], the reversed [den['leaves']]), the cell drawn at row
    position [i] of every column shows the state of sample [leave_ordering[i]],
    not of sample [i], and the label written beside row position [i] is the
    display name of sample [leave_ordering[i]], its underscores shown as
    spaces.  This holds for the dendrogram of [ns >= 2] samples, one name and
    one label each, over rows of [ns] states.  For samples declared as A, B, C
    and leaves reading C, A, B the rows show, from the top, the data of C, A
    and B, labelled C, A and B. *)
Theorem clustered_rows_follow_leaves {settings : int_settings} {mpl : matplotlib} :
  (forall (patient : Patient) (den_leaves : list nat) (ns : nat)
          (labels : list string) (column_labels : option (list string))
          (displayed_mutations : option (list nat)),
      (2 <= ns)%nat ->
      length (patient_sample_names patient) = ns ->
      Permutation den_leaves (seq 0 ns) ->
      length labels = ns ->
      (exists row0, patient_data patient !! 0%nat = Some row0 /\ length row0 = ns) ->
      Forall (fun m => (exists row, patient_data patient !! m = Some row
                                    /\ length row = ns)
                       /\ (m < length (patient_gene_names patient))%nat)
             (displayed_or_all (patient_data patient) displayed_mutations) ->
      exists fig pr order,
        clustered_table patient den_leaves (Some labels) column_labels
                        displayed_mutations = Ok fig
        /\ clustered_priorities patient (leave_ordering den_leaves)
             (displayed_or_all (patient_data patient) displayed_mutations) = Ok pr
        /\ clustered_order patient pr
             (displayed_or_all (patient_data patient) displayed_mutations) = Ok order
        /\ (forall x m row i,
              order !! x = Some m ->
              patient_data patient !! m = Some row ->
              (i < ns)%nat ->
              exists sa_idx maf,
                leave_ordering den_leaves !! i = Some sa_idx
                /\ row !! sa_idx = Some maf
                /\ patches fig !! (x * ns + i)%nat = Some (table_cell x i ns maf))
        /\ (forall i,
              (i < ns)%nat ->
              exists sa_idx name,
                leave_ordering den_leaves !! i = Some sa_idx
                /\ labels !! sa_idx = Some name
                /\ texts fig !! i
                   = Some (row_label i ns (str_replace "_" " " name))))
  /\ (forall present absent ambiguous : Q,
      classify present = Present ->
      classify absent = Absent ->
      classify ambiguous = Ambiguous ->
      exists fig,
        clustered_table (mkPatient [[present; absent; ambiguous]] 3
                                   ["A"; "B"; "C"]%string ["TP53"]%string)
                        [1; 0; 2]%nat (Some ["A"; "B"; "C"]%string) None None = Ok fig
        /\ leave_ordering [1; 0; 2]%nat = [2; 0; 1]%nat
        /\ patches fig = [table_cell 0 0 3 ambiguous; table_cell 0 1 3 present;
                          table_cell 0 2 3 absent]
        /\ map rect_y (patches fig) = [10; 5; 0]
        /\ texts fig = [row_label 0 3 "C"; row_label 1 3 "A"; row_label 2 3 "B"]).
Proof.
  split.
  - intros patient den_leaves ns labels column_labels displayed_mutations
           Hns Hnames Hperm Hlabels (row0 & Hrow0 & Hlen0) Hall.
    set (displayed := displayed_or_all (patient_data patient) displayed_mutations) in *.
    destruct (leave_ordering_bounds _ _ Hperm) as [Hlen Hlo].
    destruct (clustered_priorities_count patient den_leaves ns displayed Hperm)
      as (pr & Hpr & Hlenpr & _).
    { eapply Forall_impl; [exact Hall|]. cbn beta. tauto. }
    destruct (order_by_name pr (patient_gene_names patient) displayed)
      as (order & Horder & Hpo & _).
    { eapply Forall_impl; [exact Hall|]. cbn beta. intros m [(row & Hrow & _) Hname].
      split; [|exact Hname]. rewrite Hlenpr. eapply lookup_lt_Some; eassumption. }
    rewrite <- clustered_order_hinton_order in Horder.
    assert (Hall' : Forall (fun m => (exists row, patient_data patient !! m = Some row
                                                  /\ length row = ns)
                                     /\ (m < length (patient_gene_names patient))%nat)
                           order).
    { eapply Permutation_Forall; [exact Hpo|exact Hall]. }
    destruct (clustered_columns_loop patient (leave_ordering den_leaves) ns Hlen Hlo
                order 0%nat [])
      as (columns & Hcols & Hlens & Hcells).
    { eapply Forall_impl; [exact Hall'|]. cbn beta. tauto. }
    assert (Hrows : Forall (fun sa_idx => (sa_idx < length labels)%nat)
                           (leave_ordering den_leaves)).
    { apply List.Forall_forall. intros sa Hin.
      destruct (In_nth _ _ 0%nat Hin) as (i & Hi & <-).
      rewrite Hlabels. apply Hlo. lia. }
    pose proof (clustered_row_labels_loop labels _ 0%nat [] Hrows) as Htexts.
    set (row_texts := map (fun entry => row_label (fst entry) (length labels)
                             (str_replace "_" " " (nth (snd entry) labels ""%string)))
                          (enumerate_from 0 (leave_ordering den_leaves))) in *.
    destruct (clustered_column_labels_loop patient order 0%nat ([] ++ row_texts))
      as (extra & Hextra).
    { eapply Forall_impl; [exact Hall'|]. cbn beta.
      intros m [(row & Hrow & _) Hname]. eauto. }
    exists (mkFigure
              (inject_Z (- label_x_pos + 20
                         + (- label_x_pos + Z.of_nat (length displayed) * width))
               + inject_Z (Z.of_nat (patient_n patient) * width) / 2)%Q
              (Z.of_nat (length row0) * (height + y_spacing) - y_spacing
               + match column_labels with Some _ => label_y_pos + 20 | None => 0 end)
              ([] ++ concat columns)
              (match column_labels with
               | Some _ => ([] ++ row_texts) ++ extra
               | None => [] ++ row_texts
               end)), pr, order.
    split; [|split; [exact Hpr|split; [exact Horder|split]]].
    + unfold clustered_table. fold displayed.
      rewrite (index_Ok _ _ _ Hrow0). cbn [bind].
      rewrite plt_figure_positive;
        [|apply (clustered_width_positive (Some labels))
         |apply inches_positive, table_height_positive; left;
          destruct row0; [cbn in Hlen0; lia|discriminate]].
      cbn [bind].
      rewrite sch_dendrogram_leaves by (rewrite Hnames; assumption). cbn [bind].
      rewrite Hpr. cbn [bind]. rewrite Horder. cbn [bind].
      unfold enumerate. rewrite Hcols. cbn [bind].
      change (rev den_leaves) with (leave_ordering den_leaves).
      rewrite Htexts. cbn [bind].
      destruct column_labels; [|reflexivity].
      rewrite Hextra. reflexivity.
    + intros x m row i Hx Hrow Hi. cbn [patches app].
      destruct (Hcells x m row i Hx Hrow Hi) as (col & Hcol & Hcell).
      exists (nth i (leave_ordering den_leaves) 0%nat),
        (nth (nth i (leave_ordering den_leaves) 0%nat) row 0%Q).
      split; [apply lookup_nth; lia|]. split.
      * apply lookup_nth. rewrite List.Forall_forall in Hall'.
        destruct (Hall' m) as [(row' & Hrow' & HS) _].
        { eapply list_elem_of_In, list_elem_of_lookup_2. exact Hx. }
        assert (row' = row) by congruence. subst row'. rewrite HS. apply Hlo. exact Hi.
      * rewrite (lookup_concat_block ns columns Hlens x i col Hcol Hi). exact Hcell.
    + intros i Hi. cbn [texts].
      exists (nth i (leave_ordering den_leaves) 0%nat),
        (nth (nth i (leave_ordering den_leaves) 0%nat) labels ""%string).
      split; [apply lookup_nth; lia|]. split.
      * apply lookup_nth. rewrite Hlabels. apply Hlo. exact Hi.
      * assert (Hrow_text : ([] ++ row_texts) !! i
                  = Some (row_label i ns (str_replace "_" " "
                            (nth (nth i (leave_ordering den_leaves) 0%nat) labels
                                 ""%string)))).
        { cbn [app]. unfold row_texts.
          rewrite list_lookup_fmap, lookup_enumerate_from.
          rewrite (lookup_nth _ i 0%nat) by lia. cbn. rewrite Hlabels. reflexivity. }
        destruct column_labels; [|exact Hrow_text].
        rewrite lookup_app_l; [exact Hrow_text|].
        eapply lookup_lt_Some. exact Hrow_text.
  - intros present absent ambiguous Hp Ha Hu.
    assert (Hcp : hinton_color present = class_hue Present)
      by (rewrite hinton_color_class, Hp; reflexivity).
    assert (Hca : hinton_color absent = class_hue Absent)
      by (rewrite hinton_color_class, Ha; reflexivity).
    assert (Hcu : hinton_color ambiguous = class_hue Ambiguous)
      by (rewrite hinton_color_class, Hu; reflexivity).
    unfold table_cell. rewrite Hp, Ha, Hu. unfold classify in Hp, Ha, Hu.
    destruct (Qlt_bool 0 present) eqn:E1;
      [|destruct (Qeq_bool present POS_UNKNOWN || Qeq_bool present NEG_UNKNOWN);
        discriminate].
    destruct (Qlt_bool 0 absent) eqn:E2; [discriminate|].
    destruct (Qeq_bool absent POS_UNKNOWN) eqn:E3; [discriminate|].
    destruct (Qeq_bool absent NEG_UNKNOWN) eqn:E4; [discriminate|].
    destruct (Qlt_bool 0 ambiguous) eqn:E5; [discriminate|].
    assert (Hpr : clustered_priorities
                    (mkPatient [[present; absent; ambiguous]] 3
                               ["A"; "B"; "C"]%string ["TP53"]%string)
                    (leave_ordering [1; 0; 2]%nat) [0%nat] = Ok [28]).
    { unfold clustered_priorities, clustered_priority_row, clustered_priority_body.
      cbn. rewrite E1, E2, E3, E4, E5.
      destruct (Qeq_bool ambiguous POS_UNKNOWN); [reflexivity|].
      destruct (Qeq_bool ambiguous NEG_UNKNOWN); [reflexivity|discriminate]. }
    eexists. split; [|split; [reflexivity|]].
    + unfold clustered_table, displayed_or_all. cbn [patient_data length seq].
      cbn [index lookup list_lookup bind].
      rewrite plt_figure_positive by reflexivity. cbn [bind].
      change (sch_dendrogram [1; 0; 2]%nat
                (patient_sample_names
                   (mkPatient [[present; absent; ambiguous]] 3
                              ["A"; "B"; "C"]%string ["TP53"]%string)))
        with (@Ok (list nat) [1; 0; 2]%nat).
      cbn [bind].
      change (leave_ordering [1; 0; 2]%nat) with [2; 0; 1]%nat in *.
      rewrite Hpr. cbn [bind].
      unfold clustered_order, enumerate. cbn.
      rewrite Hcp, Hca, Hcu. reflexivity.
    + cbn. repeat split.
Qed.

Lemma clustered_rows_follow_leaves_witness :
  (exists fig pr order,
      @clustered_table sample_settings sample_matplotlib scenario_B scenario_B_leaves
        (Some ["A"; "B"; "C"]%string) None None = Ok fig
      /\ @clustered_priorities sample_settings scenario_B
           (leave_ordering scenario_B_leaves) [0%nat] = Ok pr
      /\ clustered_order scenario_B pr [0%nat] = Ok order
      /\ texts fig !! 0%nat = Some (row_label 0 3 "C"))
  /\ (exists fig,
      @clustered_table sample_settings sample_matplotlib scenario_B scenario_B_leaves
        (Some ["A"; "B"; "C"]%string) None None = Ok fig
      /\ map text_s (texts fig) = ["C"; "A"; "B"]%string).
Proof.
  split.
  - destruct (proj1 (@clustered_rows_follow_leaves sample_settings sample_matplotlib)
                scenario_B scenario_B_leaves 3%nat ["A"; "B"; "C"]%string None None)
      as (fig & pr & order & Hrun & Hpr & Horder & _ & Htexts).
    + lia.
    + reflexivity.
    + cbn. apply perm_swap.
    + reflexivity.
    + eexists. split; reflexivity.
    + cbn. constructor; [|constructor].
      split; [eexists; split; reflexivity | lia].
    + exists fig, pr, order. repeat split; try assumption.
      destruct (Htexts 0%nat) as (sa_idx & name & Hsa & Hname & Htext); [lia|].
      cbn in Hsa. injection Hsa as <-. cbn in Hname. injection Hname as <-.
      exact Htext.
  - destruct (proj2 (@clustered_rows_follow_leaves sample_settings sample_matplotlib)
                PRESENT ABSENT (@NEG_UNKNOWN sample_settings))
      as (fig & Hrun & _ & _ & _ & Htexts); [reflexivity..|].
    exists fig. split; [exact Hrun|]. rewrite Htexts. reflexivity.
Defined.

(** ** Intensities of [create_incompatible_mp_table] *)

Lemma maf_intensity_min (raw : Q) : (maf_intensity raw == min_one (2 * raw))%Q.
Proof.
  unfold maf_intensity, min_one.
  destruct (Qlt_bool raw (1 # 2)) eqn:E.
  - apply Qlt_bool_iff in E. symmetry. apply Q.min_r. Lqa.lra.
  - apply Qlt_bool_false_iff in E. symmetry. apply Q.min_l. Lqa.lra.
Qed.

Lemma raw_maf_positive (reads cov : Q) :
  (0 < cov)%Q -> raw_maf reads cov = Ok (reads / cov)%Q.
Proof.
  intros Hq. unfold raw_maf, float_div.
  rewrite (proj2 (Qlt_bool_iff 0 cov) Hq).
  destruct (Qeq_bool cov 0) eqn:E; [|reflexivity].
  apply Qeq_bool_eq in E. rewrite E in Hq. exfalso. revert Hq. apply Qlt_irrefl.
Qed.

Lemma raw_maf_no_coverage (reads cov : Q) :
  (cov <= 0)%Q -> raw_maf reads cov = Ok 0%Q.
Proof.
  intros Hq. unfold raw_maf.
  rewrite (proj2 (Qlt_bool_false_iff 0 cov) Hq). reflexivity.
Qed.

Lemma variant_fraction_no_coverage (reads cov : Q) :
  (cov <= 0)%Q -> variant_fraction_intensity reads cov = Ok 0%Q.
Proof.
  intros Hcov. unfold variant_fraction_intensity.
  rewrite (raw_maf_no_coverage _ _ Hcov). reflexivity.
Qed.

(** C5. The variant-fraction intensity of a cell is
    [min(1.0, 2 * supporting_reads / coverage)] when the coverage is positive
    and [0.0] otherwise; no division by zero is ever raised.  A fraction of 0
    gives 0.0, a fraction of 0.5 gives 1.0 and a fraction of 0.9 gives 1.0. *)
Theorem variant_fraction_intensity_spec :
  (forall reads cov : Q,
      (0 < cov)%Q ->
      exists q,
        variant_fraction_intensity reads cov = Ok q
        /\ (q == min_one (2 * reads / cov))%Q)
  /\ (forall reads cov : Q,
        (cov <= 0)%Q -> variant_fraction_intensity reads cov = Ok 0%Q)
  /\ (forall reads cov : Q,
        variant_fraction_intensity reads cov <> Raise ZeroDivisionError)
  /\ (forall raw : Q, (maf_intensity raw == min_one (2 * raw))%Q)
  /\ (maf_intensity 0 == 0)%Q
  /\ (maf_intensity (1 # 2) == 1)%Q
  /\ (maf_intensity (9 # 10) == 1)%Q.
Proof.
  split; [|split; [|split; [|split; [exact maf_intensity_min|]]]].
  - intros reads cov Hcov. unfold variant_fraction_intensity.
    rewrite (raw_maf_positive _ _ Hcov). cbn [bind]. eexists. split; [reflexivity|].
    rewrite maf_intensity_min. unfold min_one.
    assert (H : (2 * (reads / cov) == 2 * reads / cov)%Q)
      by (unfold Qdiv; ring).
    rewrite H. reflexivity.
  - exact variant_fraction_no_coverage.
  - intros reads cov. unfold variant_fraction_intensity.
    destruct (Qlt_le_dec 0 cov) as [Hcov|Hcov].
    + rewrite (raw_maf_positive _ _ Hcov). discriminate.
    + rewrite (raw_maf_no_coverage _ _ Hcov). discriminate.
  - repeat split; reflexivity.
Qed.

Lemma variant_fraction_intensity_spec_witness :
  (exists q,
      variant_fraction_intensity 9 10 = Ok q /\ (q == min_one (2 * 9 / 10))%Q)
  /\ variant_fraction_intensity 7 0 = Ok 0%Q.
Proof.
  split.
  - apply (proj1 variant_fraction_intensity_spec). reflexivity.
  - apply (proj1 (proj2 variant_fraction_intensity_spec)). discriminate.
Defined.

Local Open Scope R_scope.

Lemma ln_10_pos : 0 < ln 10.
Proof. rewrite <- ln_1. apply ln_increasing; Lra.lra. Qed.

Lemma ln_1000 : ln 1000 = 3 * ln 10.
Proof.
  replace 1000 with (10 ^ 3) by Lra.lra.
  rewrite ln_pow by Lra.lra. cbn. Lra.lra.
Qed.

Lemma ln_monotone (c d : R) : 0 < c -> c <= d -> ln c <= ln d.
Proof.
  intros Hc [Hlt | ->]; [|Lra.lra]. left. apply ln_increasing; assumption.
Qed.

Lemma cov_intensity_low (c : R) : c <= 0 -> cov_intensity c = 0.
Proof.
  intros H. unfold cov_intensity.
  destruct (Rlt_dec 0 c); [Lra.lra|]. destruct (Rle_dec c 0); [reflexivity|Lra.lra].
Qed.

Lemma cov_intensity_high (c : R) : 1000 <= c -> cov_intensity c = 1.
Proof.
  intros H. unfold cov_intensity.
  destruct (Rlt_dec 0 c); [|Lra.lra]. destruct (Rlt_dec c 1000); [Lra.lra|].
  destruct (Rle_dec c 0); [Lra.lra|reflexivity].
Qed.

Lemma cov_intensity_log (c : R) :
  0 < c < 1000 -> cov_intensity c = ln c / ln 10 / 3.
Proof.
  intros H. unfold cov_intensity.
  destruct (Rlt_dec 0 c); [|Lra.lra]. destruct (Rlt_dec c 1000); [reflexivity|Lra.lra].
Qed.

Lemma log_scale_bounds (c : R) : 1 <= c < 1000 -> 0 <= ln c / ln 10 / 3 <= 1.
Proof.
  intros [H1 H2]. pose proof ln_10_pos as H10.
  assert (H0 : 0 <= ln c) by (rewrite <- ln_1; apply ln_monotone; Lra.lra).
  assert (H3 : ln c <= 3 * ln 10)
    by (rewrite <- ln_1000; apply ln_monotone; Lra.lra).
  split.
  - apply Rmult_le_pos; [apply Rmult_le_pos|]; [exact H0| |Lra.lra].
    left. apply Rinv_0_lt_compat. exact H10.
  - apply (Rmult_le_reg_r 3); [Lra.lra|].
    apply (Rmult_le_reg_r (ln 10)); [exact H10|].
    replace (ln c / ln 10 / 3 * 3 * ln 10) with (ln c) by (field; Lra.lra).
    Lra.lra.
Qed.

Lemma cov_intensity_monotone (c d : R) :
  c <= 0 \/ 1 <= c -> d <= 0 \/ 1 <= d -> c <= d ->
  cov_intensity c <= cov_intensity d.
Proof.
  intros Hc Hd Hcd. pose proof ln_10_pos as H10.
  destruct Hc as [Hc|Hc].
  - rewrite (cov_intensity_low c Hc).
    destruct Hd as [Hd|Hd]; [rewrite (cov_intensity_low d Hd); Lra.lra|].
    destruct (Rlt_le_dec d 1000) as [Hd'|Hd'].
    + rewrite cov_intensity_log by Lra.lra. apply log_scale_bounds. Lra.lra.
    + rewrite cov_intensity_high by assumption. Lra.lra.
  - destruct Hd as [Hd|Hd]; [Lra.lra|].
    destruct (Rlt_le_dec d 1000) as [Hd'|Hd'].
    + rewrite !cov_intensity_log by Lra.lra.
      apply Rmult_le_compat_r; [Lra.lra|].
      apply Rmult_le_compat_r; [left; apply Rinv_0_lt_compat; exact H10|].
      apply ln_monotone; Lra.lra.
    + rewrite (cov_intensity_high d Hd').
      destruct (Rlt_le_dec c 1000) as [Hc'|Hc'].
      * rewrite cov_intensity_log by Lra.lra. apply log_scale_bounds. Lra.lra.
      * rewrite cov_intensity_high by assumption. Lra.lra.
Qed.

(** C6, as the code has it.  The coverage intensity is 0.0 for a coverage of
    at most 0, 1.0 for a coverage of at least 1000 and [log10(coverage)/3] in
    between.  It is monotone non-decreasing over the integer coverages (read
    depths), and more generally over the coverages that are at most 0 or at
    least 1; it is 0.0 at 0 and at 1, and 1.0 at 1000 and at 10000.  (Strictly
    between 0 and 1 the logarithm is negative.) *)
Theorem cov_intensity_spec :
  (forall c : R, c <= 0 -> cov_intensity c = 0)
  /\ (forall c : R, 1000 <= c -> cov_intensity c = 1)
  /\ (forall c : R, 0 < c < 1000 -> cov_intensity c = ln c / ln 10 / 3)
  /\ (forall c d : R,
        c <= 0 \/ 1 <= c -> d <= 0 \/ 1 <= d -> c <= d ->
        cov_intensity c <= cov_intensity d)
  /\ (forall m n : Z, (m <= n)%Z -> cov_intensity (IZR m) <= cov_intensity (IZR n))
  /\ cov_intensity 0 = 0
  /\ cov_intensity 1 = 0
  /\ cov_intensity 1000 = 1
  /\ cov_intensity 10000 = 1.
Proof.
  split; [exact cov_intensity_low|]. split; [exact cov_intensity_high|].
  split; [exact cov_intensity_log|]. split; [exact cov_intensity_monotone|].
  split; [|repeat split].
  - intros m n Hmn.
    assert (Hint : forall k : Z, IZR k <= 0 \/ 1 <= IZR k).
    { intros k. destruct (Z.le_gt_cases k 0) as [H|H].
      - left. apply (IZR_le k 0). exact H.
      - right. apply (IZR_le 1 k). lia. }
    apply cov_intensity_monotone; [apply Hint..|]. apply IZR_le. exact Hmn.
  - apply cov_intensity_low. Lra.lra.
  - rewrite cov_intensity_log by Lra.lra. rewrite ln_1. unfold Rdiv.
    rewrite !Rmult_0_l. reflexivity.
  - apply cov_intensity_high. Lra.lra.
  - apply cov_intensity_high. Lra.lra.
Qed.

Lemma cov_intensity_spec_witness :
  cov_intensity 0 = 0
  /\ cov_intensity 2000 = 1
  /\ cov_intensity 10 = ln 10 / ln 10 / 3
  /\ cov_intensity 1 <= cov_intensity 10
  /\ cov_intensity (IZR 0) <= cov_intensity (IZR 5).
Proof.
  split; [|split; [|split; [|split]]].
  - apply (proj1 cov_intensity_spec). Lra.lra.
  - apply (proj1 (proj2 cov_intensity_spec)). Lra.lra.
  - apply (proj1 (proj2 (proj2 cov_intensity_spec))). Lra.lra.
  - apply (proj1 (proj2 (proj2 (proj2 cov_intensity_spec)))); Lra.lra.
  - apply (proj1 (proj2 (proj2 (proj2 (proj2 cov_intensity_spec))))). lia.
Defined.

(** C6 as stated fails between 0 and 1: a coverage of 1/2 maps below the
    intensity of coverage 0, so the mapping is not monotone on the whole of
    [coverage >= 0]. *)
Lemma cov_intensity_not_monotone_counterexample :
  0 <= 0 <= / 2
  /\ cov_intensity (/ 2) < cov_intensity 0
  /\ ~ (forall c d : R, 0 <= c -> c <= d -> cov_intensity c <= cov_intensity d).
Proof.
  assert (Hlt : cov_intensity (/ 2) < cov_intensity 0).
  { rewrite (cov_intensity_low 0) by Lra.lra.
    rewrite cov_intensity_log by Lra.lra.
    rewrite ln_Rinv by Lra.lra.
    pose proof ln_10_pos as H10. pose proof ln_lt_2 as H2.
    assert (Hpos : 0 < ln 2 / ln 10 / 3).
    { apply Rmult_lt_0_compat; [apply Rmult_lt_0_compat|]; [Lra.lra| |Lra.lra].
      apply Rinv_0_lt_compat. exact H10. }
    replace (- ln 2 / ln 10 / 3) with (- (ln 2 / ln 10 / 3)) by (field; Lra.lra).
    Lra.lra. }
  split; [Lra.lra|]. split; [exact Hlt|].
  intros Hmono. specialize (Hmono 0 (/ 2)). Lra.lra.
Qed.

Local Close Scope R_scope.

(** ** The label formatter *)

(** C7, as the code has it.  For the gene name [BRCA1, isoform "X"] and a
    maximal length of 12 the formatter returns [BRCA1,isofor]: once spaces and
    double quotes are removed, the only comma stands at position 5, before
    position 6 where the search starts, so nothing is cut at a comma and the
    14 remaining characters are cut to the first 12. *)
Theorem format_gene_name_scenario_C :
  str_replace dquote "" (str_replace " " "" scenario_C) = "BRCA1,isoformX"%string
  /\ str_find "," "BRCA1,isoformX" 0 = 5
  /\ str_find "," "BRCA1,isoformX" 6 = -1
  /\ _format_gene_name scenario_C 12 = "BRCA1,isofor"%string.
Proof. repeat split. Qed.

(** C7 as stated fails: the result is not [BRCA1]. *)
Lemma format_gene_name_scenario_C_counterexample :
  _format_gene_name scenario_C 12 <> "BRCA1"%string.
Proof. discriminate. Qed.

Lemma str_replace_absent (c : ascii) (new s : string) :
  str_contains c s = false -> str_replace c new s = s.
Proof.
  induction s as [|a s IH]; [reflexivity|]. cbn.
  destruct (Ascii.eqb a c); [discriminate|]. cbn. intros H. rewrite IH; auto.
Qed.

Lemma str_replace_removes (c : ascii) (s : string) :
  str_contains c (str_replace c "" s) = false.
Proof.
  induction s as [|a s IH]; [reflexivity|]. cbn.
  destruct (Ascii.eqb a c) eqn:E; [exact IH|]. cbn. rewrite E. exact IH.
Qed.

Lemma str_replace_keeps_absent (c d : ascii) (s : string) :
  str_contains c s = false -> str_contains c (str_replace d "" s) = false.
Proof.
  induction s as [|a s IH]; [reflexivity|]. cbn.
  destruct (Ascii.eqb a c) eqn:E; [discriminate|]. cbn. intros H.
  destruct (Ascii.eqb a d); [auto|]. cbn. rewrite E. auto.
Qed.

Lemma str_take_keeps_absent (c : ascii) (k : nat) : forall s,
  str_contains c s = false -> str_contains c (str_take k s) = false.
Proof.
  induction k as [|k IH]; intros [|a s]; try reflexivity. cbn.
  destruct (Ascii.eqb a c); [discriminate|]. cbn. apply IH.
Qed.

Lemma str_take_length (k : nat) : forall s,
  String.length (str_take k s) = Nat.min k (String.length s).
Proof.
  induction k as [|k IH]; intros [|a s]; try reflexivity. cbn. rewrite IH. reflexivity.
Qed.

Lemma str_take_all (k : nat) : forall s,
  (String.length s <= k)%nat -> str_take k s = s.
Proof.
  induction k as [|k IH]; intros [|a s] H; try reflexivity; cbn in H; [lia|].
  cbn. rewrite IH by lia. reflexivity.
Qed.

Lemma str_slice_to_nonneg (s : string) (stop : Z) :
  0 <= stop -> str_slice_to s stop = str_take (Z.to_nat stop) s.
Proof.
  intros H. unfold str_slice_to. destruct (Z.ltb_spec stop 0); [lia|reflexivity].
Qed.

Lemma str_find_from_range (c : ascii) (start : nat) : forall s pos,
  str_find_from c s pos start = -1 \/ Z.of_nat pos <= str_find_from c s pos start.
Proof.
  induction s as [|a s IH]; intros pos; [left; reflexivity|]. cbn.
  destruct ((start <=? pos)%nat && Ascii.eqb a c); [right; lia|].
  destruct (IH (S pos)) as [H|H]; [left; exact H|right; lia].
Qed.

(** A prefix of a string without a match has no match. *)
Lemma str_find_from_take_none (c : ascii) (start k : nat) : forall s pos,
  str_find_from c s pos start = -1 ->
  str_find_from c (str_take k s) pos start = -1.
Proof.
  revert k. intros k s. revert k.
  induction s as [|a s IH]; intros [|k] pos H; try reflexivity. cbn in *.
  destruct ((start <=? pos)%nat && Ascii.eqb a c); [lia|]. apply IH. exact H.
Qed.

(** The prefix that ends just before the first match has no match. *)
Lemma str_find_from_take_found (c : ascii) (start : nat) : forall s pos,
  str_find_from c s pos start <> -1 ->
  str_find_from c
    (str_take (Z.to_nat (str_find_from c s pos start) - pos) s) pos start = -1.
Proof.
  induction s as [|a s IH]; intros pos H; [reflexivity|]. cbn in *.
  destruct ((start <=? pos)%nat && Ascii.eqb a c) eqn:E.
  - rewrite Nat2Z.id, Nat.sub_diag. reflexivity.
  - destruct (str_find_from_range c start s (S pos)) as [Hr|Hr]; [contradiction|].
    replace (Z.to_nat (str_find_from c s (S pos) start) - pos)%nat
      with (S (Z.to_nat (str_find_from c s (S pos) start) - S pos))%nat by lia.
    cbn. rewrite E. apply IH. exact H.
Qed.

(** A name without spaces and quotes that is short enough and has no comma to
    cut at is returned as it is. *)
Lemma format_gene_name_fixed (s : string) (max_length : Z) :
  str_contains " " s = false ->
  str_contains dquote s = false ->
  (max_length - 4 <? Z.of_nat (String.length s))
    && negb (str_find "," s 6 =? -1) = false ->
  (max_length <? Z.of_nat (String.length s)) = false ->
  _format_gene_name s max_length = s.
Proof.
  intros Hsp Hq Hcomma Hlen. unfold _format_gene_name.
  rewrite (str_replace_absent " " "" s Hsp), (str_replace_absent dquote "" s Hq).
  rewrite Hcomma, Hlen. reflexivity.
Qed.

(** C8, as the code has it.  For every name and every maximal length that is
    not negative, formatting a formatted name again returns it unchanged. *)
Theorem format_gene_name_idempotent (gene_name : string) (max_length : Z) :
  0 <= max_length ->
  _format_gene_name (_format_gene_name gene_name max_length) max_length
  = _format_gene_name gene_name max_length.
Proof.
  intros HL. unfold _format_gene_name at 2 3.
  set (s := str_replace dquote "" (str_replace " " "" gene_name)).
  assert (Hsp : str_contains " " s = false)
    by (apply str_replace_keeps_absent, str_replace_removes).
  assert (Hq : str_contains dquote s = false) by apply str_replace_removes.
  set (s1 := if (max_length - 4 <? Z.of_nat (String.length s))
                && negb (str_find "," s 6 =? -1)
             then str_slice_to s (str_find "," s 6) else s).
  assert (H1 : str_contains " " s1 = false /\ str_contains dquote s1 = false
               /\ (max_length - 4 <? Z.of_nat (String.length s1))
                  && negb (str_find "," s1 6 =? -1) = false).
  { unfold s1.
    destruct ((max_length - 4 <? Z.of_nat (String.length s))
              && negb (str_find "," s 6 =? -1)) eqn:E; [|auto].
    apply andb_true_iff in E as [_ E]. apply negb_true_iff, Z.eqb_neq in E.
    destruct (str_find_from_range "," 6 s 0) as [Hr|Hr]; [contradiction|].
    rewrite str_slice_to_nonneg by (unfold str_find; lia).
    repeat split; try (apply str_take_keeps_absent; assumption).
    pose proof (str_find_from_take_found "," 6 s 0 E) as Hnone.
    rewrite Nat.sub_0_r in Hnone. unfold str_find. rewrite Hnone.
    apply andb_false_r. }
  destruct H1 as (Hsp1 & Hq1 & Hcomma1).
  destruct (Z.ltb_spec max_length (Z.of_nat (String.length s1))) as [Hlong|Hshort].
  - rewrite str_slice_to_nonneg by exact HL.
    apply format_gene_name_fixed; try (apply str_take_keeps_absent; assumption).
    + apply andb_false_iff in Hcomma1 as [Hc|Hc].
      * apply Z.ltb_ge in Hc. lia.
      * apply negb_false_iff, Z.eqb_eq in Hc. unfold str_find in *.
        rewrite (str_find_from_take_none _ _ _ _ _ Hc). apply andb_false_r.
    + apply Z.ltb_ge. rewrite str_take_length. lia.
  - apply format_gene_name_fixed; try assumption. apply Z.ltb_ge. exact Hshort.
Qed.

Lemma format_gene_name_idempotent_witness :
  _format_gene_name (_format_gene_name scenario_C 12) 12 = _format_gene_name scenario_C 12.
Proof. apply format_gene_name_idempotent. lia. Defined.

(** C8 as stated fails for a negative maximal length: the slice then drops
    characters from the end at every pass. *)
Lemma format_gene_name_negative_length_counterexample :
  _format_gene_name "ab" (-1) = "a"%string
  /\ _format_gene_name (_format_gene_name "ab" (-1)) (-1) = ""%string
  /\ _format_gene_name (_format_gene_name "ab" (-1)) (-1) <> _format_gene_name "ab" (-1).
Proof. repeat split. discriminate. Qed.

(** ** Degenerate inputs of [hinton] *)

Section Degenerate.
Context {settings : int_settings} {mpl : matplotlib}.

(** No displayed mutation, on a matrix that has a first row, in a figure of
    positive sides. *)
Lemma hinton_no_displayed_mutation (row0 : list Q) (data : list (list Q))
    (row_labels column_labels : option (list string)) :
  row0 <> [] \/ column_labels <> None ->
  row_labels <> None ->
  exists fig,
    hinton (row0 :: data) row_labels column_labels (Some []) = Ok fig
    /\ patches fig = []
    /\ length (texts fig) = match row_labels with Some l => length l | None => 0%nat end
    /\ x_length fig = inject_Z 22
    /\ y_length fig
       = 5 * Z.of_nat (length row0) - 1
         + match column_labels with Some _ => 20 | None => 0 end.
Proof.
  intros Hheight Hwidth.
  unfold hinton, displayed_or_all, hinton_priorities.
  cbn [index lookup list_lookup bind for_each length].
  rewrite plt_figure_positive;
    [|apply inches_positive, (hinton_width_positive row_labels []); right; exact Hwidth
     |apply inches_positive, table_height_positive; exact Hheight].
  cbn [bind].
  assert (Horder : forall pr, hinton_order pr column_labels [] = Ok []).
  { intros pr. destruct column_labels; reflexivity. }
  rewrite Horder. cbn [bind enumerate enumerate_from for_each].
  destruct row_labels as [labels|]; [|congruence].
  destruct (hinton_row_labels_loop (Z.of_nat (length labels)) labels 0%nat [])
    as (extra & Hrun & Hlen).
  unfold enumerate. rewrite Hrun. cbn [bind app].
  destruct column_labels; cbn [bind hinton_order sorted decorate sort_keyed foldr map
                               enumerate_from for_each];
    (eexists; split; [reflexivity|]; cbn [patches texts x_length y_length];
     repeat split; try assumption;
     unfold height, y_spacing, label_y_pos; lia).
Qed.

(** No sample and no column label: the height is -1 and [plt.figure] refuses
    the figure, whatever is displayed. *)
Lemma hinton_no_sample_unlabelled (data : list (list Q))
    (row_labels : option (list string)) (displayed_mutations : option (list nat)) :
  hinton ([] :: data) row_labels None displayed_mutations = Raise ValueError.
Proof.
  unfold hinton. cbn [index lookup list_lookup bind].
  rewrite plt_figure_negative; [reflexivity|].
  right. apply inches_negative, (table_height_negative None). reflexivity.
Qed.

(** No sample, with column labels: every row of a non-empty matrix is empty. *)
Lemma hinton_no_sample (data : list (list Q))
    (row_labels : option (list string)) (labels : list string)
    (displayed_mutations : option (list nat)) :
  data <> [] ->
  Forall (fun row => row = []) data ->
  Forall (fun m => (m < length data)%nat /\ (m < length labels)%nat)
         (displayed_or_all data displayed_mutations) ->
  displayed_or_all data displayed_mutations <> [] \/ row_labels <> None ->
  exists fig,
    hinton data row_labels (Some labels) displayed_mutations = Ok fig
    /\ patches fig = []
    /\ y_length fig = 19.
Proof.
  intros Hne Hrows Hall Hwidth.
  assert (Hempty : forall m, nth m data [] = []).
  { intros m. destruct (Nat.lt_ge_cases m (length data)) as [Hm|Hm].
    - rewrite List.Forall_forall in Hrows. apply Hrows. apply nth_In. exact Hm.
    - apply nth_overflow. exact Hm. }
  assert (Hrow0 : data !! 0%nat = Some []).
  { rewrite (lookup_nth data 0 []); [rewrite Hempty; reflexivity|].
    destruct data; [contradiction|cbn; lia]. }
  destruct (hinton_run data [] row_labels (Some labels) displayed_mutations Hrow0 Hall)
    as (fig & pr & order & Hrun & _ & _ & Hpatches & Hy).
  exists fig. split; [|split; [|exact Hy]].
  - eapply hinton_returns; [exact Hrun|right; discriminate|exact Hwidth].
  - rewrite Hpatches. apply concat_imap_nil. intros x m.
    rewrite Hempty. reflexivity.
Qed.

(** No mutation at all: the first row is missing. *)
Lemma hinton_empty_matrix (row_labels column_labels : option (list string))
    (displayed_mutations : option (list nat)) :
  hinton [] row_labels column_labels displayed_mutations = Raise IndexError.
Proof. reflexivity. Qed.

End Degenerate.

(** C9, as the code has it.  A cell without coverage is encoded with a
    variant fraction of 0.0 and intensities 0.0, with no division by zero.
    For an empty list of displayed mutations [hinton] returns a table without
    cells, 22 wide with its row labels.  Nothing is clamped for rows without
    samples: the height is [5 * samples - 1], plus 20 with column labels, so
    that without column labels it is -1 and [plt.figure] raises [ValueError],
    and with column labels [hinton] returns a table without cells that is 19
    high.  On a matrix without any mutation, [data[0]] raises [IndexError]. *)
Theorem degenerate_inputs {settings : int_settings} {mpl : matplotlib} :
  (forall reads cov : Q,
      (cov <= 0)%Q ->
      raw_maf reads cov = Ok 0%Q
      /\ variant_fraction_intensity reads cov = Ok 0%Q
      /\ cov_intensity (Q2R cov) = 0%R)
  /\ (forall (row0 : list Q) (data : list (list Q))
             (row_labels column_labels : option (list string)),
      row0 <> [] \/ column_labels <> None ->
      row_labels <> None ->
      exists fig,
        hinton (row0 :: data) row_labels column_labels (Some []) = Ok fig
        /\ patches fig = []
        /\ length (texts fig)
           = match row_labels with Some l => length l | None => 0%nat end
        /\ x_length fig = inject_Z 22
        /\ y_length fig
           = 5 * Z.of_nat (length row0) - 1
             + match column_labels with Some _ => 20 | None => 0 end)
  /\ (forall (data : list (list Q)) (row_labels : option (list string))
             (displayed_mutations : option (list nat)),
      hinton ([] :: data) row_labels None displayed_mutations = Raise ValueError)
  /\ (forall (data : list (list Q)) (row_labels : option (list string))
             (labels : list string) (displayed_mutations : option (list nat)),
      data <> [] ->
      Forall (fun row => row = []) data ->
      Forall (fun m => (m < length data)%nat /\ (m < length labels)%nat)
             (displayed_or_all data displayed_mutations) ->
      displayed_or_all data displayed_mutations <> [] \/ row_labels <> None ->
      exists fig,
        hinton data row_labels (Some labels) displayed_mutations = Ok fig
        /\ patches fig = []
        /\ y_length fig = 19)
  /\ (forall (row_labels column_labels : option (list string))
             (displayed_mutations : option (list nat)),
      hinton [] row_labels column_labels displayed_mutations = Raise IndexError).
Proof.
  split; [|split; [|split; [|split]]].
  - intros reads cov Hcov. split; [apply raw_maf_no_coverage; exact Hcov|].
    split; [apply variant_fraction_no_coverage; exact Hcov|].
    apply cov_intensity_low. rewrite <- RMicromega.Q2R_0. apply Qle_Rle. exact Hcov.
  - exact hinton_no_displayed_mutation.
  - exact hinton_no_sample_unlabelled.
  - exact hinton_no_sample.
  - exact hinton_empty_matrix.
Qed.

Lemma degenerate_inputs_witness :
  (raw_maf 3 0 = Ok 0%Q
   /\ variant_fraction_intensity 3 0 = Ok 0%Q
   /\ cov_intensity (Q2R 0) = 0%R)
  /\ (exists fig,
      @hinton sample_settings sample_matplotlib [[PRESENT]; [ABSENT]]
        (Some ["s_1"]%string) None (Some []) = Ok fig
      /\ patches fig = []
      /\ y_length fig = 5 * 1 - 1 + 0)
  /\ (exists fig,
      @hinton sample_settings sample_matplotlib [[]; []] None
        (Some ["KRAS"; "TP53"]%string) None = Ok fig
      /\ patches fig = []
      /\ y_length fig = 19).
Proof.
  split; [|split].
  - apply (proj1 (@degenerate_inputs sample_settings sample_matplotlib)). discriminate.
  - destruct (proj1 (proj2 (@degenerate_inputs sample_settings sample_matplotlib))
                [PRESENT] [[ABSENT]] (Some ["s_1"]%string) None)
      as (fig & Hrun & Hpatches & _ & _ & Hy).
    + left. discriminate.
    + discriminate.
    + exists fig. repeat split; assumption.
  - apply (proj1 (proj2 (proj2 (proj2 (@degenerate_inputs sample_settings
                                         sample_matplotlib))))
             [[]; []] None ["KRAS"; "TP53"]%string None).
    + discriminate.
    + repeat constructor.
    + cbn. repeat constructor; lia.
    + left. discriminate.
Defined.

(** C9 as stated fails: with no mutation in the matrix (hence none displayed)
    [hinton] raises at [data[0]], and with rows of zero samples and no column
    labels it raises at [plt.figure], the height being -1. *)
Lemma hinton_empty_matrix_counterexample :
  displayed_or_all [] None = []
  /\ @hinton sample_settings sample_matplotlib [] None None None = Raise IndexError
  /\ @hinton sample_settings sample_matplotlib [] None None (Some []) = Raise IndexError
  /\ @hinton sample_settings sample_matplotlib [[]; []] None None None
     = Raise ValueError.
Proof. repeat split. Qed.

(** ** The classification of a cell is total *)

(** C10. Every cell value falls in exactly one of the three display classes.
    The three cascades of the code (the priority weight and the fill colour
    of [hinton], the border colour of [create_incompatible_mp_table]) follow
    that class; the three hues are pairwise distinct.  A value that is not
    positive and equals neither sentinel is absent, with weight 0 and the
    absent hue, whatever its sign; the two sentinels, which are not positive,
    are both ambiguous, with weight 1 and the same hue. *)
Theorem classification_total {settings : int_settings} :
  (forall maf : Q,
      hinton_color maf = class_hue (classify maf)
      /\ class_color maf = class_hue (classify maf)
      /\ (forall mut_idx n sa_idx priorities p,
            priorities !! mut_idx = Some p ->
            hinton_priority_body mut_idx n (sa_idx, maf) priorities
            = Ok (<[mut_idx := p + class_weight (classify maf)
                                   * 4 ^ (n - Z.of_nat sa_idx - 1)]> priorities)))
  /\ (class_hue Present <> class_hue Ambiguous
      /\ class_hue Present <> class_hue Absent
      /\ class_hue Ambiguous <> class_hue Absent)
  /\ (forall maf : Q, (0 < maf)%Q -> classify maf = Present)
  /\ (forall maf : Q,
        ~ (0 < maf)%Q -> ~ (maf == POS_UNKNOWN)%Q -> ~ (maf == NEG_UNKNOWN)%Q ->
        classify maf = Absent /\ weight maf = 0
        /\ hinton_color maf = RGB 1 (3 # 10) (3 # 10)
        /\ class_color maf = absent_color)
  /\ ((POS_UNKNOWN <= 0)%Q ->
      (NEG_UNKNOWN <= 0)%Q ->
      classify POS_UNKNOWN = Ambiguous /\ classify NEG_UNKNOWN = Ambiguous
      /\ weight POS_UNKNOWN = 1 /\ weight NEG_UNKNOWN = 1
      /\ hinton_color POS_UNKNOWN = RGB (9 # 10) (3 # 4) (3 # 4)
      /\ hinton_color NEG_UNKNOWN = RGB (9 # 10) (3 # 4) (3 # 4)
      /\ class_color POS_UNKNOWN = unknown_color
      /\ class_color NEG_UNKNOWN = unknown_color).
Proof.
  assert (Hclass : forall maf, class_color maf = class_hue (classify maf)).
  { intros maf. unfold class_color, classify.
    destruct (Qlt_bool 0 maf); [reflexivity|].
    destruct (Qeq_bool maf POS_UNKNOWN); [reflexivity|].
    destruct (Qeq_bool maf NEG_UNKNOWN); reflexivity. }
  assert (Habsent : forall maf,
             ~ (0 < maf)%Q -> ~ (maf == POS_UNKNOWN)%Q -> ~ (maf == NEG_UNKNOWN)%Q ->
             classify maf = Absent).
  { intros maf H0 H1 H2. unfold classify.
    destruct (Qlt_bool 0 maf) eqn:E0; [apply Qlt_bool_iff in E0; contradiction|].
    destruct (Qeq_bool maf POS_UNKNOWN) eqn:E1; [apply Qeq_bool_eq in E1; contradiction|].
    destruct (Qeq_bool maf NEG_UNKNOWN) eqn:E2; [apply Qeq_bool_eq in E2; contradiction|].
    reflexivity. }
  assert (Hsentinel : forall s, (s <= 0)%Q ->
             (Qeq_bool s POS_UNKNOWN || Qeq_bool s NEG_UNKNOWN = true) ->
             classify s = Ambiguous).
  { intros s Hs Heq. unfold classify.
    rewrite (proj2 (Qlt_bool_false_iff 0 s) Hs), Heq. reflexivity. }
  split; [|split; [|split; [|split]]].
  - intros maf. split; [apply hinton_color_class|]. split; [apply Hclass|].
    intros mut_idx n sa_idx priorities p Hp.
    apply hinton_priority_body_weight. exact Hp.
  - repeat split; discriminate.
  - intros maf H. unfold classify.
    rewrite (proj2 (Qlt_bool_iff 0 maf) H). reflexivity.
  - intros maf H0 H1 H2. pose proof (Habsent maf H0 H1 H2) as Ha.
    split; [exact Ha|]. unfold weight.
    rewrite hinton_color_class, Hclass, Ha. repeat split.
  - intros Hpos Hneg.
    assert (HP : classify POS_UNKNOWN = Ambiguous).
    { apply Hsentinel; [exact Hpos|].
      rewrite (proj2 (Qeq_bool_iff _ _) (Qeq_refl POS_UNKNOWN)). reflexivity. }
    assert (HN : classify NEG_UNKNOWN = Ambiguous).
    { apply Hsentinel; [exact Hneg|].
      rewrite (proj2 (Qeq_bool_iff _ _) (Qeq_refl NEG_UNKNOWN)). apply orb_true_r. }
    repeat split; unfold weight;
      rewrite ?hinton_color_class, ?Hclass, ?HP, ?HN; reflexivity.
Qed.

Lemma classification_total_witness :
  @classify sample_settings (@POS_UNKNOWN sample_settings) = Ambiguous
  /\ @classify sample_settings (@NEG_UNKNOWN sample_settings) = Ambiguous
  /\ @classify sample_settings (-3 # 4) = Absent.
Proof.
  destruct (@classification_total sample_settings) as (_ & _ & _ & Habsent & Hs).
  destruct Hs as (HP & HN & _); [cbn; discriminate..|].
  split; [exact HP|]. split; [exact HN|].
  apply Habsent; cbn; unfold Qlt, Qeq; cbn; lia.
Defined.

(** * Part III: further properties of the code *)

(** ** [_format_gene_name] *)

Lemma str_take_take (j k : nat) : forall s,
  str_take j (str_take k s) = str_take (Nat.min j k) s.
Proof.
  revert k. induction j as [|j IH]; intros [|k] [|a s]; try reflexivity.
  cbn. rewrite IH. reflexivity.
Qed.

Lemma str_slice_to_take (s : string) (stop : Z) :
  exists k, str_slice_to s stop = str_take k s.
Proof. unfold str_slice_to. eexists. reflexivity. Qed.

Lemma str_take_prefix_length (k : nat) (s : string) :
  str_take k s = str_take (String.length (str_take k s)) s.
Proof.
  rewrite str_take_length.
  destruct (Nat.le_ge_cases k (String.length s)) as [H|H].
  - rewrite Nat.min_l by exact H. reflexivity.
  - rewrite Nat.min_r by exact H. rewrite !str_take_all; [reflexivity|lia|exact H].
Qed.

(** The formatter returns some prefix of the stripped name. *)
Lemma format_gene_name_take (gene_name : string) (max_length : Z) :
  exists k, _format_gene_name gene_name max_length = str_take k (strip_name gene_name).
Proof.
  unfold _format_gene_name. fold (strip_name gene_name).
  set (s := strip_name gene_name).
  destruct ((max_length - 4 <? Z.of_nat (String.length s))
            && negb (str_find "," s 6 =? -1)).
  - destruct (str_slice_to_take s (str_find "," s 6)) as [k Hk]. rewrite Hk.
    destruct (max_length <? Z.of_nat (String.length (str_take k s))).
    + destruct (str_slice_to_take (str_take k s) max_length) as [j Hj].
      rewrite Hj, str_take_take. eexists. reflexivity.
    + eexists. reflexivity.
  - destruct (max_length <? Z.of_nat (String.length s)).
    + apply str_slice_to_take.
    + exists (String.length s). rewrite str_take_all; [reflexivity|lia].
Qed.

(** X1. Whatever the maximal length, even a negative one, the formatted name
    is a prefix of the name without its spaces and double quotes: the
    formatter only removes characters, and the result holds neither a space
    nor a double quote. *)
Theorem format_gene_name_prefix (gene_name : string) (max_length : Z) :
  _format_gene_name gene_name max_length
  = str_take (String.length (_format_gene_name gene_name max_length))
             (strip_name gene_name)
  /\ str_contains " " (_format_gene_name gene_name max_length) = false
  /\ str_contains dquote (_format_gene_name gene_name max_length) = false.
Proof.
  destruct (format_gene_name_take gene_name max_length) as [k Hk]. rewrite Hk.
  split; [apply str_take_prefix_length|].
  split; apply str_take_keeps_absent; unfold strip_name.
  - apply str_replace_keeps_absent, str_replace_removes.
  - apply str_replace_removes.
Qed.

(** X2. For a maximal length that is not negative, the formatted name has at
    most that many characters. *)
Theorem format_gene_name_length (gene_name : string) (max_length : Z) :
  0 <= max_length ->
  Z.of_nat (String.length (_format_gene_name gene_name max_length)) <= max_length.
Proof.
  intros HL. unfold _format_gene_name. fold (strip_name gene_name).
  set (s := strip_name gene_name).
  set (s1 := if (max_length - 4 <? Z.of_nat (String.length s))
                && negb (str_find "," s 6 =? -1)
             then str_slice_to s (str_find "," s 6) else s).
  destruct (Z.ltb_spec max_length (Z.of_nat (String.length s1))) as [H|H].
  - rewrite str_slice_to_nonneg, str_take_length by exact HL. lia.
  - exact H.
Qed.

Lemma format_gene_name_length_witness :
  Z.of_nat (String.length (_format_gene_name scenario_C 12)) <= 12.
Proof. apply format_gene_name_length. lia. Defined.

Lemma str_find_from_bounds (c : ascii) (start : nat) : forall s pos,
  str_find_from c s pos start <> -1 ->
  Z.of_nat (Nat.max pos start) <= str_find_from c s pos start
  /\ str_find_from c s pos start < Z.of_nat (pos + String.length s).
Proof.
  induction s as [|a s IH]; intros pos H; [contradiction|]. cbn in *.
  destruct ((start <=? pos)%nat && Ascii.eqb a c) eqn:E.
  - apply andb_true_iff in E as [E _]. apply Nat.leb_le in E. lia.
  - specialize (IH (S pos) H).
    assert (Hmax : (Nat.max pos start <= Nat.max (S pos) start)%nat) by lia.
    assert (Hstart : (start <= pos)%nat -> Ascii.eqb a c = false).
    { intros Hle. apply Nat.leb_le in Hle. rewrite Hle in E. exact E. }
    destruct (Nat.le_gt_cases start pos); lia.
Qed.

(** X3. The cut at a comma never leaves fewer than six characters: for a
    maximal length that is not negative, the formatted name is at least as
    long as the smallest of 6, the maximal length and the length of the
    stripped name. *)
Theorem format_gene_name_keeps_six (gene_name : string) (max_length : Z) :
  0 <= max_length ->
  Z.min 6 (Z.min max_length (Z.of_nat (String.length (strip_name gene_name))))
  <= Z.of_nat (String.length (_format_gene_name gene_name max_length)).
Proof.
  intros HL. unfold _format_gene_name. fold (strip_name gene_name).
  set (s := strip_name gene_name).
  set (s1 := if (max_length - 4 <? Z.of_nat (String.length s))
                && negb (str_find "," s 6 =? -1)
             then str_slice_to s (str_find "," s 6) else s).
  assert (H1 : Z.min 6 (Z.of_nat (String.length s)) <= Z.of_nat (String.length s1)).
  { unfold s1.
    destruct ((max_length - 4 <? Z.of_nat (String.length s))
              && negb (str_find "," s 6 =? -1)) eqn:E; [|lia].
    apply andb_true_iff in E as [_ E]. apply negb_true_iff, Z.eqb_neq in E.
    destruct (str_find_from_bounds "," 6 s 0 E) as [Hlo Hhi].
    rewrite str_slice_to_nonneg by (unfold str_find; lia).
    rewrite str_take_length. unfold str_find. lia. }
  destruct (Z.ltb_spec max_length (Z.of_nat (String.length s1))) as [H|H].
  - rewrite str_slice_to_nonneg, str_take_length by exact HL. lia.
  - lia.
Qed.

Lemma format_gene_name_keeps_six_witness :
  Z.min 6 (Z.min 12 (Z.of_nat (String.length (strip_name scenario_C))))
  <= Z.of_nat (String.length (_format_gene_name scenario_C 12)).
Proof. apply format_gene_name_keeps_six. lia. Defined.

(** X4. For a maximal length that is not negative, the formatter returns the
    stripped name unchanged exactly when that name is at most [max_length]
    long and, in addition, is at most [max_length - 4] long or has no comma at
    or after position 6. *)
Theorem format_gene_name_unchanged_iff (gene_name : string) (max_length : Z) :
  0 <= max_length ->
  _format_gene_name gene_name max_length = strip_name gene_name
  <-> Z.of_nat (String.length (strip_name gene_name)) <= max_length
      /\ (Z.of_nat (String.length (strip_name gene_name)) <= max_length - 4
          \/ str_find "," (strip_name gene_name) 6 = -1).
Proof.
  intros HL. unfold _format_gene_name. fold (strip_name gene_name).
  set (s := strip_name gene_name).
  destruct (Z.ltb_spec (max_length - 4) (Z.of_nat (String.length s))) as [Hc|Hc];
    destruct (Z.eqb_spec (str_find "," s 6) (-1)) as [Hf|Hf]; cbn [andb negb].
  - destruct (Z.ltb_spec max_length (Z.of_nat (String.length s))) as [Hl|Hl].
    + split; [|lia]. intros Heq. apply (f_equal String.length) in Heq.
      rewrite str_slice_to_nonneg, str_take_length in Heq by exact HL. lia.
    + split; [auto|reflexivity].
  - destruct (str_find_from_bounds "," 6 s 0 Hf) as [Hlo Hhi].
    fold (str_find "," s 6) in Hlo, Hhi.
    rewrite (str_slice_to_nonneg s) by lia.
    assert (Hlen : (String.length (str_take (Z.to_nat (str_find "," s 6)) s)
                    < String.length s)%nat)
      by (rewrite str_take_length; lia).
    split; [|intros [_ [H|H]]; [lia|contradiction]].
    intros Heq. exfalso.
    destruct (max_length <? _) in Heq.
    + apply (f_equal String.length) in Heq.
      rewrite str_slice_to_nonneg, str_take_length in Heq by exact HL. lia.
    + apply (f_equal String.length) in Heq. lia.
  - destruct (Z.ltb_spec max_length (Z.of_nat (String.length s))); [lia|].
    split; [lia|reflexivity].
  - destruct (Z.ltb_spec max_length (Z.of_nat (String.length s))); [lia|].
    split; [lia|reflexivity].
Qed.

Lemma format_gene_name_unchanged_iff_witness :
  _format_gene_name "TP53" 12 = strip_name "TP53"
  <-> Z.of_nat (String.length (strip_name "TP53")) <= 12
      /\ (Z.of_nat (String.length (strip_name "TP53")) <= 12 - 4
          \/ str_find "," (strip_name "TP53") 6 = -1).
Proof. apply format_gene_name_unchanged_iff. lia. Defined.

(** ** Priorities of [hinton] *)

(** X5. When every displayed index is in range, [hinton] computes one
    priority per mutation of the matrix: a mutation listed [c] times in
    [displayed_mutations] gets [c] times the positional sum of its row, so a
    mutation that is not displayed keeps the priority 0. *)
Theorem hinton_priorities_multiplicity {settings : int_settings} (data : list (list Q)) (displayed : list nat) :
  Forall (fun m => (m < length data)%nat) displayed ->
  exists pr,
    hinton_priorities data displayed = Ok pr
    /\ length pr = length data
    /\ (forall k row,
          data !! k = Some row ->
          pr !! k = Some (Z.of_nat (count_occ Nat.eq_dec displayed k) * priority_sum row))
    /\ (forall k, (k < length data)%nat -> ~ In k displayed -> pr !! k = Some 0).
Proof.
  intros Hall.
  destruct (hinton_priorities_count data displayed Hall) as (pr & Hrun & Hlen & Hval).
  exists pr. split; [exact Hrun|]. split; [exact Hlen|]. split.
  - intros k row Hrow. rewrite Hval by (eapply lookup_lt_Some; exact Hrow).
    unfold value_of_row. rewrite Hrow. reflexivity.
  - intros k Hk Hnot. rewrite (Hval k Hk).
    rewrite (proj1 (count_occ_not_In Nat.eq_dec displayed k) Hnot). reflexivity.
Qed.

Lemma hinton_priorities_multiplicity_witness :
  exists pr,
    @hinton_priorities sample_settings scenario_A [0; 0; 2]%nat = Ok pr
    /\ pr = [24; 0; 4].
Proof.
  destruct (@hinton_priorities_multiplicity sample_settings scenario_A [0; 0; 2]%nat)
    as (pr & Hrun & _).
  - repeat constructor; cbn; lia.
  - exists pr. split; [exact Hrun|].
    vm_compute in Hrun. injection Hrun as <-. reflexivity.
Defined.

Lemma hinton_priorities_out_of_range {settings : int_settings} (data : list (list Q)) : forall displayed pr,
  length pr = length data ->
  Exists (fun m => (length data <= m)%nat) displayed ->
  for_each (hinton_priority_row data) displayed pr = Raise IndexError.
Proof.
  induction displayed as [|m displayed IH]; intros pr Hlen Hex.
  - inversion Hex.
  - cbn [for_each]. destruct (Nat.lt_ge_cases m (length data)) as [Hm|Hm].
    + destruct (lookup_lt_is_Some_2 data m Hm) as [row Hrow].
      destruct (lookup_lt_is_Some_2 pr m) as [p Hp]; [lia|].
      rewrite (hinton_priority_row_spec _ _ _ _ _ Hrow Hp). cbn [bind].
      apply IH; [rewrite length_insert; exact Hlen|].
      apply Exists_cons in Hex as [Hex|Hex]; [lia|exact Hex].
    + unfold hinton_priority_row, index.
      rewrite (lookup_ge_None_2 data m Hm). reflexivity.
Qed.

(** X6. A displayed index that is not a row of the matrix makes the
    priority loop raise [IndexError], wherever it stands in the list; with
    every index in range the priorities are computed.  [hinton] itself then
    raises [IndexError] whatever the labels are, provided its figure has a
    positive height, that is, the first row has a sample or column labels are
    given; with a first row of no sample and no column labels [plt.figure]
    raises [ValueError] before any displayed index is read. *)
Theorem hinton_index_error {settings : int_settings} {mpl : matplotlib} :
  (forall (data : list (list Q)) (displayed : list nat),
      Exists (fun m => (length data <= m)%nat) displayed ->
      hinton_priorities data displayed = Raise IndexError)
  /\ (forall (data : list (list Q)) (displayed : list nat),
      Forall (fun m => (m < length data)%nat) displayed ->
      exists pr, hinton_priorities data displayed = Ok pr)
  /\ (forall (data : list (list Q)) (row_labels column_labels : option (list string))
             (displayed_mutations : option (list nat)),
      Exists (fun m => (length data <= m)%nat)
             (displayed_or_all data displayed_mutations) ->
      (forall row0, data !! 0%nat = Some row0 -> row0 <> [] \/ column_labels <> None) ->
      hinton data row_labels column_labels displayed_mutations = Raise IndexError)
  /\ (forall (data : list (list Q)) (row_labels : option (list string))
             (displayed_mutations : option (list nat)),
      hinton ([] :: data) row_labels None displayed_mutations = Raise ValueError).
Proof.
  split; [|split; [|split]].
  - intros data displayed Hex. apply hinton_priorities_out_of_range; [|exact Hex].
    apply length_replicate.
  - intros data displayed Hall.
    destruct (hinton_priorities_count data displayed Hall) as (pr & Hrun & _). eauto.
  - intros data row_labels column_labels displayed_mutations Hex Hheight. unfold hinton.
    destruct (data !! 0%nat) as [row0|] eqn:Hrow0.
    + rewrite (index_Ok _ _ _ Hrow0). cbn [bind].
      rewrite plt_figure_positive; cbn [bind].
      * unfold hinton_priorities.
        rewrite hinton_priorities_out_of_range;
          [reflexivity|apply length_replicate|exact Hex].
      * apply inches_positive, hinton_width_positive. left.
        intros Hnil. rewrite Hnil in Hex. inversion Hex.
      * apply inches_positive, table_height_positive, Hheight. reflexivity.
    + unfold index. rewrite Hrow0. reflexivity.
  - intros data row_labels displayed_mutations. unfold hinton.
    cbn [index lookup list_lookup bind].
    rewrite plt_figure_negative; [reflexivity|].
    right. apply inches_negative, (table_height_negative None). reflexivity.
Qed.

Lemma hinton_index_error_witness :
  @hinton sample_settings sample_matplotlib scenario_A None None (Some [1; 3; 0]%nat)
  = Raise IndexError.
Proof.
  apply (proj1 (proj2 (proj2 (@hinton_index_error sample_settings sample_matplotlib)))).
  - cbn. apply Exists_cons_tl, Exists_cons_hd. lia.
  - intros row0 Hrow0. cbn in Hrow0. injection Hrow0 as <-. left. discriminate.
Defined.

(** X7. The weights never collide across positions: two displayed mutations
    over the same number of samples get the same priority from [hinton]
    exactly when their states fall in the same class at every sample, that is
    when their columns are drawn alike. *)
Theorem priority_equal_iff_same_classes {settings : int_settings} (data : list (list Q)) (displayed : list nat)
    (k k' : nat) (row row' : list Q) :
  List.NoDup displayed ->
  Forall (fun m => (m < length data)%nat) displayed ->
  In k displayed ->
  In k' displayed ->
  data !! k = Some row ->
  data !! k' = Some row' ->
  length row = length row' ->
  exists pr p p',
    hinton_priorities data displayed = Ok pr
    /\ pr !! k = Some p /\ pr !! k' = Some p'
    /\ (p = p' <-> map classify row = map classify row')
    /\ (p = p' <-> map hinton_color row = map hinton_color row').
Proof.
  intros Hnd Hall Hk Hk' Hrow Hrow' Hlen.
  destruct (hinton_priorities_count data displayed Hall) as (pr & Hrun & _ & Hval).
  exists pr, (priority_sum row), (priority_sum row').
  split; [exact Hrun|].
  rewrite !Hval by (eapply lookup_lt_Some; eassumption).
  unfold value_of_row. rewrite Hrow, Hrow', !count_occ_once, !Z.mul_1_l by assumption.
  assert (Hiff : priority_sum row = priority_sum row'
                 <-> map classify row = map classify row').
  { split; [apply priority_sum_inj; exact Hlen|apply priority_sum_classes]. }
  repeat split; try apply Hiff; try assumption.
  - intros Hp. apply Hiff in Hp.
    rewrite !(map_ext _ _ hinton_color_class), <- !(map_map classify class_hue), Hp.
    reflexivity.
  - intros Hc. apply Hiff.
    rewrite !(map_ext _ _ hinton_color_class), <- !(map_map classify class_hue) in Hc.
    revert Hc. generalize (map classify row) (map classify row'). clear.
    induction l as [|a l IH]; intros [|b l'] H; try discriminate; [reflexivity|].
    cbn in H. injection H as Hab H. f_equal; [|apply IH; exact H].
    destruct a, b; try reflexivity; discriminate.
Qed.

Lemma priority_equal_iff_same_classes_witness :
  exists pr p p',
    @hinton_priorities sample_settings
      [[PRESENT; ABSENT]; [2 # 3; -5 # 1]]%Q [0; 1]%nat = Ok pr
    /\ pr !! 0%nat = Some p /\ pr !! 1%nat = Some p'
    /\ (p = p' <-> map (@classify sample_settings) [PRESENT; ABSENT]
                   = map (@classify sample_settings) [2 # 3; -5 # 1]%Q)
    /\ (p = p' <-> map (@hinton_color sample_settings) [PRESENT; ABSENT]
                   = map (@hinton_color sample_settings) [2 # 3; -5 # 1]%Q).
Proof.
  apply (@priority_equal_iff_same_classes sample_settings).
  - repeat constructor; cbn; intuition lia.
  - repeat constructor; cbn; lia.
  - cbn. auto.
  - cbn. auto.
  - reflexivity.
  - reflexivity.
  - reflexivity.
Defined.

(** X8. The priority of a displayed mutation listed once is a non-negative
    integer below [4 ^ S], where [S] is the number of its samples; it is
    [4 ^ S - 1] exactly when the mutation is present in every sample. *)
Theorem priority_range {settings : int_settings} (data : list (list Q)) (displayed : list nat)
    (k : nat) (row : list Q) :
  List.NoDup displayed ->
  Forall (fun m => (m < length data)%nat) displayed ->
  In k displayed ->
  data !! k = Some row ->
  exists pr p,
    hinton_priorities data displayed = Ok pr
    /\ pr !! k = Some p
    /\ 0 <= p < 4 ^ Z.of_nat (length row)
    /\ (p = 4 ^ Z.of_nat (length row) - 1
        <-> Forall (fun maf => classify maf = Present) row).
Proof.
  intros Hnd Hall Hk Hrow.
  destruct (hinton_priorities_count data displayed Hall) as (pr & Hrun & _ & Hval).
  exists pr, (priority_sum row). split; [exact Hrun|].
  rewrite Hval by (eapply lookup_lt_Some; eassumption).
  unfold value_of_row. rewrite Hrow, count_occ_once, Z.mul_1_l by assumption.
  split; [reflexivity|]. split; [apply priority_sum_bounds|].
  clear. induction row as [|maf row IH].
  - cbn. split; [constructor|reflexivity].
  - rewrite priority_sum_cons. cbn [length].
    rewrite Nat2Z.inj_succ, Z.pow_succ_r by lia.
    pose proof (priority_sum_bounds row) as Hb. pose proof (weight_bounds maf) as Hw.
    split.
    + intros H. assert (Hw3 : weight maf = 3) by nia.
      constructor.
      * unfold weight in Hw3. destruct (classify maf); cbn in Hw3; try lia. reflexivity.
      * apply IH. nia.
    + intros H. apply Forall_cons in H as [Hm Hr]. apply IH in Hr.
      unfold weight. rewrite Hm. cbn [class_weight]. lia.
Qed.

Lemma priority_range_witness :
  exists pr p,
    @hinton_priorities sample_settings scenario_A [0; 1; 2]%nat = Ok pr
    /\ pr !! 1%nat = Some p
    /\ 0 <= p < 4 ^ Z.of_nat (length [ABSENT; PRESENT])
    /\ (p = 4 ^ Z.of_nat (length [ABSENT; PRESENT]) - 1
        <-> Forall (fun maf => @classify sample_settings maf = Present)
                   [ABSENT; PRESENT]).
Proof.
  apply (@priority_range sample_settings).
  - repeat constructor; cbn; intuition lia.
  - repeat constructor; cbn; lia.
  - cbn. auto.
  - reflexivity.
Defined.

(** ** The figure of [hinton], in full *)

Lemma hinton_row_labels_exact (n : nat) : forall (labels : list string) start texts,
  for_each (hinton_row_label (Z.of_nat n)) (enumerate_from start labels) texts
  = Ok (texts ++ imap (fun i name => hinton_row_text n (start + i) name) labels).
Proof.
  induction labels as [|name labels IH]; intros start texts;
    cbn [enumerate_from for_each].
  - cbn. rewrite app_nil_r. reflexivity.
  - unfold hinton_row_label at 1. cbn [bind]. rewrite IH, <- app_assoc, imap_cons.
    rewrite Nat.add_0_r. do 2 f_equal. cbn [app]. f_equal.
    apply imap_ext. intros i x _. cbn. do 3 f_equal. lia.
Qed.

Lemma hinton_column_labels_exact (data : list (list Q)) (labels : list string) :
  forall order start texts,
    Forall (fun m => (m < length data)%nat /\ (m < length labels)%nat) order ->
    for_each (hinton_column_label data labels) (enumerate_from start order) texts
    = Ok (texts ++ imap (fun x m =>
                     hinton_column_text (start + x) (length (nth m data []))
                                        (nth m labels ""%string)) order).
Proof.
  induction order as [|m order IH]; intros start texts Hall;
    cbn [enumerate_from for_each].
  - cbn. rewrite app_nil_r. reflexivity.
  - apply Forall_cons in Hall as [[Hdata Hname] Hall].
    unfold hinton_column_label at 1.
    rewrite (index_Ok _ _ _ (lookup_nth data m [] Hdata)). cbn [bind].
    rewrite (index_Ok _ _ _ (lookup_nth labels m ""%string Hname)). cbn [bind].
    rewrite IH by exact Hall. rewrite <- app_assoc, imap_cons, Nat.add_0_r.
    do 2 f_equal. cbn [app]. f_equal.
    apply imap_ext. intros x m' _. cbn. do 4 f_equal. lia.
Qed.

(** X9. On a matrix with a first row, with every displayed index in range
    and in a figure of positive sides (a sample in the first row or column
    labels for the height, a displayed mutation or row labels for the width),
    [hinton] returns, and its cells and its column labels follow one and the
    same order: column [x] shows the states of mutation [order[x]] in declared
    sample order, and the label above column [x] is the formatted name of that
    same mutation.  The row labels come first among the texts, label [i] of
    [n] at height [5 * (n - i - 1) + 1], with underscores shown as spaces. *)
Theorem hinton_figure {settings : int_settings} {mpl : matplotlib}
    (data : list (list Q)) (row0 : list Q)
    (row_labels column_labels : option (list string))
    (displayed_mutations : option (list nat)) :
  data !! 0%nat = Some row0 ->
  Forall (fun m => (m < length data)%nat
                   /\ match column_labels with
                      | Some labels => (m < length labels)%nat
                      | None => True
                      end)
         (displayed_or_all data displayed_mutations) ->
  row0 <> [] \/ column_labels <> None ->
  displayed_or_all data displayed_mutations <> [] \/ row_labels <> None ->
  exists fig pr order,
    hinton data row_labels column_labels displayed_mutations = Ok fig
    /\ hinton_priorities data (displayed_or_all data displayed_mutations) = Ok pr
    /\ hinton_order pr column_labels (displayed_or_all data displayed_mutations)
       = Ok order
    /\ patches fig
       = concat (imap (fun x m => hinton_column_cells x (nth m data [])) order)
    /\ texts fig = hinton_texts data row_labels column_labels order.
Proof.
  intros Hrow0 Hall Hheight Hwidth.
  set (displayed := displayed_or_all data displayed_mutations) in *.
  destruct (hinton_priorities_count data displayed) as (pr & Hpr & Hlenpr & _).
  { eapply Forall_impl; [exact Hall|]. cbn beta. tauto. }
  assert (Horder : exists order,
             hinton_order pr column_labels displayed = Ok order
             /\ Permutation displayed order).
  { destruct column_labels as [labels|].
    - destruct (order_by_name pr labels displayed) as (order & Ho & Hp & _).
      + eapply Forall_impl; [exact Hall|]. cbn beta. intros m [Hm Hl].
        split; [rewrite Hlenpr|]; assumption.
      + eauto.
    - destruct (order_without_names pr displayed) as (order & Ho & Hp & _).
      + eapply Forall_impl; [exact Hall|]. cbn beta. intros m [Hm _].
        rewrite Hlenpr. exact Hm.
      + eauto. }
  destruct Horder as (order & Horder & Hperm).
  pose proof (Permutation_Forall Hperm Hall) as Hall'.
  assert (Hcols : for_each (hinton_column data) (enumerate order) []
                  = Ok ([] ++ concat (imap (fun x m =>
                            hinton_column_cells (0 + x) (nth m data [])) order))).
  { apply hinton_columns_loop.
    eapply Forall_impl; [exact Hall'|]. cbn beta. tauto. }
  assert (Hrun : hinton data row_labels column_labels displayed_mutations
                 = Ok (mkFigure
                         (inject_Z
                            ((match row_labels with
                              | Some _ => - label_x_pos + 20
                              | None => 0
                              end) + Z.of_nat (length displayed) * width))
                         (Z.of_nat (length row0) * (height + y_spacing) - y_spacing
                          + match column_labels with
                            | Some _ => label_y_pos + 20
                            | None => 0
                            end)
                         (concat (imap (fun x m =>
                                    hinton_column_cells x (nth m data [])) order))
                         (hinton_texts data row_labels column_labels order))).
  { unfold hinton. fold displayed.
    rewrite (index_Ok _ _ _ Hrow0). cbn [bind].
    rewrite plt_figure_positive;
      [|apply inches_positive, hinton_width_positive; exact Hwidth
       |apply inches_positive, table_height_positive; exact Hheight].
    cbn [bind]. rewrite Hpr. cbn [bind].
    rewrite Horder. cbn [bind]. rewrite Hcols. cbn [bind app].
    unfold enumerate, hinton_texts.
    destruct row_labels as [rl|]; [rewrite hinton_row_labels_exact|]; cbn [bind];
      (destruct column_labels as [cl|];
       [rewrite Horder; cbn [bind];
        rewrite (hinton_column_labels_exact data cl order 0 _ Hall'); cbn [bind]
       |]; cbn [app]; rewrite ?app_nil_r; reflexivity). }
  eexists _, pr, order. split; [exact Hrun|]. repeat split; assumption.
Qed.

Lemma hinton_figure_witness :
  exists fig pr order,
    @hinton sample_settings sample_matplotlib scenario_A (Some ["s_1"; "s_2"]%string)
            (Some ["KRAS"; "TP53"; "APC"]%string) None = Ok fig
    /\ @hinton_priorities sample_settings scenario_A (displayed_or_all scenario_A None)
       = Ok pr
    /\ hinton_order pr (Some ["KRAS"; "TP53"; "APC"]%string)
                    (displayed_or_all scenario_A None) = Ok order
    /\ patches fig
       = concat (imap (fun x m => @hinton_column_cells sample_settings x
                                    (nth m scenario_A [])) order)
    /\ texts fig
       = hinton_texts scenario_A (Some ["s_1"; "s_2"]%string)
                      (Some ["KRAS"; "TP53"; "APC"]%string) order.
Proof.
  apply (@hinton_figure sample_settings sample_matplotlib scenario_A [PRESENT; ABSENT]).
  - reflexivity.
  - cbn. repeat constructor; lia.
  - left. discriminate.
  - left. discriminate.
Defined.

Lemma StronglySorted_app_intro {A : Type} (R : A -> A -> Prop) (l1 l2 : list A) :
  StronglySorted R l1 -> StronglySorted R l2 ->
  (forall a b, In a l1 -> In b l2 -> R a b) ->
  StronglySorted R (l1 ++ l2).
Proof.
  induction 1 as [|a l1 Hl1 IH Ha]; intros H2 Hcross; [exact H2|].
  cbn [app]. constructor.
  - apply IH; [exact H2|]. intros x y Hx Hy. apply Hcross; [right; exact Hx|exact Hy].
  - apply Forall_app. split; [exact Ha|].
    apply List.Forall_forall. intros b Hb. apply Hcross; [left; reflexivity|exact Hb].
Qed.

Lemma column_cells_separated {settings : int_settings} (x_pos ns : nat) :
  forall (row : list Q) (start : nat),
    (start + length row <= ns)%nat ->
    StronglySorted separated
      (imap (fun i maf => table_cell x_pos (start + i) ns maf) row)
    /\ Forall (fun r => rect_x r = Z.of_nat x_pos * 2 /\ rect_width r = 2
                        /\ rect_height r = 4
                        /\ 0 <= rect_y r
                        /\ rect_y r + 5 * Z.of_nat start + 5 <= 5 * Z.of_nat ns)
              (imap (fun i maf => table_cell x_pos (start + i) ns maf) row).
Proof.
  induction row as [|maf row IH]; intros start Hlen.
  - split; constructor.
  - cbn [length] in Hlen. rewrite imap_cons.
    destruct (IH (S start)) as [Hs Hf]; [lia|].
    assert (Hext : imap ((fun i maf0 => table_cell x_pos (start + i) ns maf0) ∘ S) row
                   = imap (fun i maf0 => table_cell x_pos (S start + i) ns maf0) row).
    { apply imap_ext. intros i y _. cbn. f_equal. lia. }
    rewrite Hext. split.
    + constructor; [exact Hs|].
      eapply Forall_impl; [exact Hf|]. cbn beta.
      intros r (Hx & Hw & Hh & Hy0 & Hy). unfold separated, table_cell, row_y.
      cbn [rect_x rect_y rect_width rect_height]. right. right. right. lia.
    + constructor.
      * unfold table_cell, row_y. cbn [rect_x rect_y rect_width rect_height].
        repeat split; lia.
      * eapply Forall_impl; [exact Hf|]. cbn beta.
        intros r (Hx & Hw & Hh & Hy0 & Hy). repeat split; try assumption. lia.
Qed.

Lemma columns_separated {settings : int_settings} (data : list (list Q)) :
  forall (order : list nat) (start : nat),
    StronglySorted separated
      (concat (imap (fun x m => hinton_column_cells (start + x) (nth m data [])) order))
    /\ Forall (fun r => Z.of_nat start * 2 <= rect_x r /\ rect_width r = 2
                        /\ rect_height r = 4 /\ 0 <= rect_y r)
              (concat (imap (fun x m =>
                         hinton_column_cells (start + x) (nth m data [])) order)).
Proof.
  induction order as [|m order IH]; intros start.
  - split; constructor.
  - rewrite imap_cons. cbn [concat]. rewrite Nat.add_0_r.
    assert (Hext : imap ((fun x m0 => hinton_column_cells (start + x) (nth m0 data []))
                         ∘ S) order
                   = imap (fun x m0 => hinton_column_cells (S start + x) (nth m0 data []))
                          order).
    { apply imap_ext. intros x y _. cbn. f_equal. lia. }
    rewrite Hext. destruct (IH (S start)) as [Hs Hf].
    destruct (column_cells_separated start (length (nth m data []))
                (nth m data []) 0%nat) as [Hcs Hcf]; [lia|].
    fold (hinton_column_cells start (nth m data [])) in Hcs, Hcf.
    split.
    + apply StronglySorted_app_intro; [exact Hcs|exact Hs|].
      intros a b Ha Hb.
      rewrite List.Forall_forall in Hcf, Hf.
      destruct (Hcf a Ha) as (Hx & Hw & _). destruct (Hf b Hb) as (Hx' & _).
      unfold separated. left. lia.
    + apply Forall_app. split.
      * eapply Forall_impl; [exact Hcf|]. cbn beta.
        intros r (Hx & Hw & Hh & Hy0 & _). repeat split; try assumption. lia.
      * eapply Forall_impl; [exact Hf|]. cbn beta.
        intros r (Hx & Hw & Hh & Hy0). repeat split; try assumption. lia.
Qed.

(** X10. In every figure that [hinton] returns the cells are 2 wide and 4
    high, lie in the first quadrant, and no two of them touch: they differ in
    column, or stand at least one unit apart in height.  This holds for rows
    of unequal lengths and for mutations displayed more than once as well. *)
Theorem hinton_cells_never_overlap {settings : int_settings} {mpl : matplotlib}
    (data : list (list Q)) (row_labels column_labels : option (list string))
    (displayed_mutations : option (list nat)) (fig : Figure) :
  hinton data row_labels column_labels displayed_mutations = Ok fig ->
  StronglySorted separated (patches fig)
  /\ Forall (fun r => rect_width r = 2 /\ rect_height r = 4
                      /\ 0 <= rect_x r /\ 0 <= rect_y r) (patches fig).
Proof.
  intros Hrun. unfold hinton in Hrun.
  destruct (index data 0) as [row0|] eqn:Hrow0; [|discriminate]. cbn [bind] in Hrun.
  destruct (plt_figure _ _) as [[]|]; [|discriminate]. cbn [bind] in Hrun.
  destruct (hinton_priorities data _) as [pr|] eqn:Hpr; [|discriminate].
  cbn [bind] in Hrun.
  destruct (hinton_order pr column_labels _) as [order|] eqn:Horder; [|discriminate].
  cbn [bind] in Hrun.
  destruct (for_each (hinton_column data) (enumerate order) []) as [ps|] eqn:Hps;
    [|discriminate].
  cbn [bind] in Hrun.
  assert (Hfig : patches fig = ps).
  { destruct (match row_labels with Some _ => _ | None => _ end) as [t|];
      [|discriminate].
    cbn [bind] in Hrun.
    destruct (match column_labels with Some _ => _ | None => _ end) as [t'|];
      [|discriminate].
    cbn [bind] in Hrun. injection Hrun as <-. reflexivity. }
  rewrite Hfig. clear Hrun Hfig.
  assert (Hin : Forall (fun m => (m < length data)%nat) order).
  { clear - Hps. unfold enumerate in Hps. revert Hps.
    generalize 0%nat, (@nil Rectangle). revert ps.
    induction order as [|m order IH]; intros ps start acc Hps; [constructor|].
    cbn [enumerate_from for_each] in Hps.
    destruct (hinton_column data (start, m) acc) as [acc'|] eqn:Hcol; [|discriminate].
    cbn [bind] in Hps. constructor; [|eapply IH; exact Hps].
    unfold hinton_column, index in Hcol.
    destruct (data !! m) eqn:Hm; [|discriminate].
    eapply lookup_lt_Some. exact Hm. }
  unfold enumerate in Hps. rewrite (hinton_columns_loop data order 0 [] Hin) in Hps.
  injection Hps as <-. cbn [app].
  destruct (columns_separated data order 0) as [Hs Hf].
  split; [exact Hs|].
  eapply Forall_impl; [exact Hf|]. cbn beta.
  intros r (Hx & Hw & Hh & Hy). repeat split; try assumption; lia.
Qed.

Lemma hinton_cells_never_overlap_witness :
  exists fig,
    @hinton sample_settings sample_matplotlib [[PRESENT; ABSENT]; [PRESENT]]%Q None None
            (Some [1; 0; 1]%nat) = Ok fig
    /\ StronglySorted separated (patches fig)
    /\ Forall (fun r => rect_width r = 2 /\ rect_height r = 4
                        /\ 0 <= rect_x r /\ 0 <= rect_y r) (patches fig).
Proof.
  eexists. split; [reflexivity|].
  apply (@hinton_cells_never_overlap sample_settings sample_matplotlib
           [[PRESENT; ABSENT]; [PRESENT]]%Q None None (Some [1; 0; 1]%nat)).
  reflexivity.
Defined.

(** ** [clustered_table]: rows and leaves of different numbers *)

Lemma clustered_priority_body_outcome {settings : int_settings}
    patient lo mut_idx i priorities :
  (exists pr', clustered_priority_body patient lo mut_idx i priorities = Ok pr'
               /\ length pr' = length priorities)
  \/ clustered_priority_body patient lo mut_idx i priorities = Raise IndexError.
Proof.
  unfold clustered_priority_body, index.
  destruct (lo !! i); [|right; reflexivity]. cbn [bind].
  destruct (patient_data patient !! mut_idx) as [row|]; [|right; reflexivity].
  cbn [bind]. destruct (row !! _) as [maf|]; [|right; reflexivity]. cbn [bind].
  destruct (priorities !! mut_idx); [|right; reflexivity]. cbn [bind]. left.
  destruct (Qlt_bool 0 maf); [|destruct (Qeq_bool maf POS_UNKNOWN);
                               [|destruct (Qeq_bool maf NEG_UNKNOWN)]];
    eexists; (split; [reflexivity|apply length_insert]).
Qed.

Lemma clustered_inner_loop_miss {settings : int_settings} patient lo mut_idx row :
  patient_data patient !! mut_idx = Some row ->
  forall len start priorities p,
    priorities !! mut_idx = Some p ->
    (exists i, (start <= i < start + len)%nat
               /\ (lo !! i = None
                   \/ exists sa_idx, lo !! i = Some sa_idx
                                     /\ (length row <= sa_idx)%nat)) ->
    for_each (clustered_priority_body patient lo mut_idx) (seq start len) priorities
    = Raise IndexError.
Proof.
  intros Hrow. induction len as [|len IH]; intros start priorities p Hp (i & Hi & Hbad);
    [lia|].
  cbn [seq for_each].
  destruct (lo !! start) as [sa|] eqn:Hlo.
  - destruct (row !! sa) as [maf|] eqn:Hmaf.
    + rewrite (clustered_priority_body_weight _ _ _ _ _ _ _ _ _ Hlo Hrow Hmaf Hp).
      cbn [bind]. eapply IH.
      * apply list_lookup_insert_eq. eapply lookup_lt_Some. exact Hp.
      * exists i. split; [|exact Hbad].
        destruct (Nat.eq_dec i start) as [->|Hne]; [|lia].
        exfalso. destruct Hbad as [Hbad|(sa' & Hsa' & Hge)]; [congruence|].
        assert (sa' = sa) by congruence. subst sa'.
        apply lookup_lt_Some in Hmaf. lia.
    + unfold clustered_priority_body, index. rewrite Hlo. cbn [bind].
      rewrite Hrow. cbn [bind]. rewrite Hmaf. reflexivity.
  - unfold clustered_priority_body, index. rewrite Hlo. reflexivity.
Qed.

Lemma clustered_priority_row_outcome {settings : int_settings}
    patient lo mut_idx priorities :
  (exists pr', clustered_priority_row patient lo mut_idx priorities = Ok pr'
               /\ length pr' = length priorities)
  \/ clustered_priority_row patient lo mut_idx priorities = Raise IndexError.
Proof.
  unfold clustered_priority_row, index.
  destruct (patient_data patient !! mut_idx) as [row|]; [|right; reflexivity].
  cbn [bind]. generalize (seq 0 (length row)). intros l. revert priorities.
  induction l as [|i l IH]; intros priorities; cbn [for_each].
  - left. eauto.
  - destruct (clustered_priority_body_outcome patient lo mut_idx i priorities)
      as [(pr' & Hrun & Hlen)|Hrun]; rewrite Hrun; cbn [bind].
    + destruct (IH pr') as [(pr'' & Hrun' & Hlen')|Hrun'].
      * left. exists pr''. split; [exact Hrun'|congruence].
      * right. exact Hrun'.
    + right. reflexivity.
Qed.

Lemma clustered_priority_row_miss {settings : int_settings}
    patient lo mut_idx priorities :
  length priorities = length (patient_data patient) ->
  patient_data patient !! mut_idx = None
  \/ (exists row, patient_data patient !! mut_idx = Some row /\ leaves_miss lo row) ->
  clustered_priority_row patient lo mut_idx priorities = Raise IndexError.
Proof.
  intros Hlen [Hnone|(row & Hrow & i & Hi & Hbad)]; unfold clustered_priority_row, index.
  - rewrite Hnone. reflexivity.
  - rewrite Hrow. cbn [bind].
    destruct (lookup_lt_is_Some_2 priorities mut_idx) as [p Hp].
    { rewrite Hlen. eapply lookup_lt_Some. exact Hrow. }
    eapply clustered_inner_loop_miss; [exact Hrow|exact Hp|].
    exists i. split; [lia|exact Hbad].
Qed.

Lemma clustered_priorities_miss {settings : int_settings} patient lo :
  forall displayed priorities,
    length priorities = length (patient_data patient) ->
    Exists (fun m => patient_data patient !! m = None
                     \/ exists row, patient_data patient !! m = Some row
                                    /\ leaves_miss lo row) displayed ->
    for_each (clustered_priority_row patient lo) displayed priorities
    = Raise IndexError.
Proof.
  induction displayed as [|m displayed IH]; intros priorities Hlen Hex;
    [inversion Hex|].
  cbn [for_each].
  destruct (clustered_priority_row_outcome patient lo m priorities)
    as [(pr' & Hrun & Hlen')|Hrun].
  - apply Exists_cons in Hex as [Hbad|Hex].
    + rewrite (clustered_priority_row_miss _ _ _ _ Hlen Hbad) in Hrun. discriminate.
    + rewrite Hrun. cbn [bind]. apply IH; [congruence|exact Hex].
  - rewrite Hrun. reflexivity.
Qed.

Lemma clustered_priority_row_cover {settings : int_settings}
    patient lo mut_idx row priorities p :
  patient_data patient !! mut_idx = Some row ->
  leaves_cover lo row ->
  priorities !! mut_idx = Some p ->
  clustered_priority_row patient lo mut_idx priorities
  = Ok (<[mut_idx := p + priority_sum (effective_states (take (length row) lo) row)]>
          priorities).
Proof.
  intros Hrow Hcover Hp. unfold clustered_priority_row.
  rewrite (index_Ok _ _ _ Hrow). cbn [bind].
  assert (Hnth : forall i, (i < length row)%nat ->
                           (i < length lo)%nat /\ (nth i lo 0%nat < length row)%nat).
  { intros i Hi. destruct (Hcover i Hi) as (sa & Hsa & Hlt).
    split; [eapply lookup_lt_Some; exact Hsa|].
    rewrite (nth_lookup_Some _ _ 0%nat _ Hsa). exact Hlt. }
  rewrite (clustered_inner_loop _ _ _ _ Hrow _ _ _ _ Hp)
    by (intros i Hi; apply Hnth; lia).
  assert (Hlen : length (take (length row) lo) = length row).
  { rewrite length_take. destruct row as [|a row]; [reflexivity|].
    destruct (Hnth (length row)) as [H _]; [cbn; lia|]. cbn [length] in *. lia. }
  rewrite (priority_sum_effective _ _ Hlen). do 4 f_equal.
  apply map_ext_in. intros i Hi. apply in_seq in Hi.
  rewrite !nth_lookup, lookup_take_lt by lia. reflexivity.
Qed.

Lemma clustered_priorities_cover {settings : int_settings} patient lo displayed :
  Forall (fun m => exists row, patient_data patient !! m = Some row
                               /\ leaves_cover lo row) displayed ->
  exists pr,
    clustered_priorities patient lo displayed = Ok pr
    /\ length pr = length (patient_data patient)
    /\ forall k, (k < length (patient_data patient))%nat ->
         pr !! k = Some (Z.of_nat (count_occ Nat.eq_dec displayed k)
                         * value_of_row (fun row => priority_sum
                               (effective_states (take (length row) lo) row))
                             (patient_data patient) k).
Proof.
  intros Hall.
  destruct (accumulate_loop
              (clustered_priority_row patient lo)
              (value_of_row (fun row => priority_sum
                    (effective_states (take (length row) lo) row))
                 (patient_data patient))
              (length (patient_data patient))
              (fun m => exists row, patient_data patient !! m = Some row
                                    /\ leaves_cover lo row))
    with (displayed := displayed)
         (pr := replicate (length (patient_data patient)) 0)
    as (pr & Hrun & Hlen & Hval).
  - intros m (row & Hrow & _). eapply lookup_lt_Some. exact Hrow.
  - intros m pr p (row & Hrow & Hcover) Hp _. unfold value_of_row. rewrite Hrow.
    apply clustered_priority_row_cover; assumption.
  - apply length_replicate.
  - exact Hall.
  - exists pr. split; [exact Hrun|]. split; [exact Hlen|]. intros k Hk.
    rewrite (Hval k 0) by (apply lookup_replicate_2; exact Hk).
    f_equal.
Qed.

(** X11. For a displayed mutation with [S] states [clustered_table] reads
    the first [S] leaves from the top, position [i] showing sample
    [leave_ordering[i]], and never compares [S] with the number [n] of leaves.
    The priorities are computed when each of these leaves names one of the [S]
    states, as it does for [S = n].  A displayed mutation whose row is
    missing, or for which one of these leaves is absent (as for [S > n]) or
    names no state of the row (as it may for [S < n]), makes the priority loop
    raise [IndexError], and [clustered_table] with it once the figure and the
    dendrogram are made. *)
Theorem clustered_row_length_unchecked {settings : int_settings} {mpl : matplotlib} :
  (forall (patient : Patient) (den_leaves : list nat) (displayed : list nat),
      List.NoDup displayed ->
      Forall (fun m => exists row, patient_data patient !! m = Some row
                                   /\ leaves_cover (leave_ordering den_leaves) row)
             displayed ->
      exists pr,
        clustered_priorities patient (leave_ordering den_leaves) displayed = Ok pr
        /\ forall k row,
             In k displayed ->
             patient_data patient !! k = Some row ->
             pr !! k = Some (priority_sum
                               (effective_states
                                  (take (length row) (leave_ordering den_leaves)) row)))
  /\ (forall (patient : Patient) (den_leaves : list nat) (displayed : list nat),
      Exists (fun m => patient_data patient !! m = None
                       \/ exists row, patient_data patient !! m = Some row
                                      /\ leaves_miss (leave_ordering den_leaves) row)
             displayed ->
      clustered_priorities patient (leave_ordering den_leaves) displayed
      = Raise IndexError)
  /\ (forall (patient : Patient) (den_leaves : list nat) (row0 : list Q)
             (row_labels column_labels : option (list string))
             (displayed_mutations : option (list nat)),
      patient_data patient !! 0%nat = Some row0 ->
      row0 <> [] \/ column_labels <> None ->
      (2 <= length (patient_sample_names patient))%nat ->
      Permutation den_leaves (seq 0 (length (patient_sample_names patient))) ->
      Exists (fun m => patient_data patient !! m = None
                       \/ exists row, patient_data patient !! m = Some row
                                      /\ leaves_miss (leave_ordering den_leaves) row)
             (displayed_or_all (patient_data patient) displayed_mutations) ->
      clustered_table patient den_leaves row_labels column_labels displayed_mutations
      = Raise IndexError)
  /\ (forall (den_leaves : list nat) (n : nat) (row : list Q),
      Permutation den_leaves (seq 0 n) ->
      (length row = n -> leaves_cover (leave_ordering den_leaves) row)
      /\ ((n < length row)%nat -> leaves_miss (leave_ordering den_leaves) row)).
Proof.
  split; [|split; [|split]].
  - intros patient den_leaves displayed Hnd Hall.
    destruct (clustered_priorities_cover patient (leave_ordering den_leaves)
                displayed Hall) as (pr & Hrun & _ & Hval).
    exists pr. split; [exact Hrun|]. intros k row Hk Hrow.
    rewrite Hval by (eapply lookup_lt_Some; exact Hrow).
    unfold value_of_row. rewrite Hrow, count_occ_once by assumption.
    f_equal. lia.
  - intros patient den_leaves displayed Hex.
    apply clustered_priorities_miss; [apply length_replicate|exact Hex].
  - intros patient den_leaves row0 row_labels column_labels displayed_mutations
           Hrow0 Hheight Hn Hperm Hex.
    unfold clustered_table. rewrite (index_Ok _ _ _ Hrow0). cbn [bind].
    rewrite plt_figure_positive;
      [|apply clustered_width_positive
       |apply inches_positive, table_height_positive; exact Hheight].
    cbn [bind]. rewrite sch_dendrogram_leaves by assumption. cbn [bind].
    unfold clustered_priorities.
    rewrite clustered_priorities_miss; [reflexivity|apply length_replicate|exact Hex].
  - intros den_leaves n row Hperm.
    destruct (leave_ordering_bounds _ _ Hperm) as [Hlen Hlo]. split.
    + intros Hrow i Hi. exists (nth i (leave_ordering den_leaves) 0%nat).
      split; [apply lookup_nth; lia|]. rewrite Hrow. apply Hlo. lia.
    + intros Hrow. exists n. split; [exact Hrow|]. left.
      apply lookup_ge_None_2. lia.
Qed.

Lemma clustered_row_length_unchecked_witness :
  (exists pr,
      @clustered_priorities sample_settings
        (mkPatient [[PRESENT]; [ABSENT; PRESENT]] 2 ["A"; "B"]%string
                   ["TP53"; "KRAS"]%string)
        (leave_ordering [1; 0]%nat) [0; 1]%nat = Ok pr
      /\ pr !! 0%nat = Some (@priority_sum sample_settings [PRESENT]))
  /\ @clustered_table sample_settings sample_matplotlib
       (mkPatient [[PRESENT; ABSENT; @NEG_UNKNOWN sample_settings]] 2
                  ["A"; "B"]%string ["TP53"]%string)
       [1; 0]%nat None None None
     = Raise IndexError.
Proof.
  split.
  - destruct (proj1 (@clustered_row_length_unchecked sample_settings sample_matplotlib)
                (mkPatient [[PRESENT]; [ABSENT; PRESENT]] 2 ["A"; "B"]%string
                           ["TP53"; "KRAS"]%string)
                [1; 0]%nat [0; 1]%nat) as (pr & Hrun & Hval).
    + repeat constructor; cbn; intuition lia.
    + constructor; [|constructor; [|constructor]].
      * eexists. split; [reflexivity|]. intros i Hi. cbn in Hi.
        destruct i as [|i]; [|lia]. eexists. split; [reflexivity|cbn; lia].
      * eexists. split; [reflexivity|].
        apply (proj1 (proj2 (proj2 (proj2 (@clustered_row_length_unchecked
                                             sample_settings sample_matplotlib)))
                        [1; 0]%nat 2%nat [ABSENT; PRESENT] (perm_swap 0%nat 1%nat []))).
        reflexivity.
    + exists pr. split; [exact Hrun|].
      apply (Hval 0%nat [PRESENT]); [cbn; auto|reflexivity].
  - apply (proj1 (proj2 (proj2 (@clustered_row_length_unchecked sample_settings
                                  sample_matplotlib)))
             _ _ [PRESENT; ABSENT; @NEG_UNKNOWN sample_settings]).
    + reflexivity.
    + left. discriminate.
    + cbn. lia.
    + cbn. apply perm_swap.
    + cbn. constructor. right. eexists. split; [reflexivity|].
      apply (proj2 (proj2 (proj2 (proj2 (@clustered_row_length_unchecked
                                           sample_settings sample_matplotlib)))
                      [1; 0]%nat 2%nat _ (perm_swap 0%nat 1%nat []))).
      cbn. lia.
Defined.

(** ** The figure of [clustered_table] *)

Lemma map_enumerate_from {A B : Type} (f : nat * A -> B) (l : list A) : forall start,
  map f (enumerate_from start l) = imap (fun i a => f ((start + i)%nat, a)) l.
Proof.
  induction l as [|a l IH]; intros start; [reflexivity|].
  cbn [enumerate_from map]. rewrite imap_cons, Nat.add_0_r, IH. f_equal.
  apply imap_ext. intros i x _. cbn. do 2 f_equal. lia.
Qed.

Lemma leaves_cover_nth (lo : list nat) (row : list Q) :
  leaves_cover lo row ->
  forall i, (i < length row)%nat ->
            (i < length lo)%nat /\ (nth i lo 0%nat < length row)%nat.
Proof.
  intros Hcover i Hi. destruct (Hcover i Hi) as (sa & Hsa & Hlt).
  split; [eapply lookup_lt_Some; exact Hsa|].
  rewrite (nth_lookup_Some _ _ 0%nat _ Hsa). exact Hlt.
Qed.

Lemma clustered_columns_exact {settings : int_settings} patient lo :
  forall order start patches,
    Forall (fun m => exists row, patient_data patient !! m = Some row
                                 /\ leaves_cover lo row) order ->
    for_each (clustered_column patient lo) (enumerate_from start order) patches
    = Ok (patches ++ concat (imap (fun x m =>
                       clustered_column_cells lo (start + x)
                         (nth m (patient_data patient) [])) order)).
Proof.
  induction order as [|m order IH]; intros start patches Hall;
    cbn [enumerate_from for_each].
  - cbn. rewrite app_nil_r. reflexivity.
  - apply Forall_cons in Hall as [(row & Hrow & Hcover) Hall].
    unfold clustered_column at 1. rewrite (index_Ok _ _ _ Hrow). cbn [bind].
    rewrite (clustered_cell_loop _ _ _ _ _ Hrow)
      by (intros i Hi; apply leaves_cover_nth; [exact Hcover|lia]).
    cbn [bind]. rewrite IH by exact Hall.
    rewrite <- app_assoc, imap_cons, Nat.add_0_r. cbn [concat].
    rewrite (nth_lookup_Some _ _ [] _ Hrow). do 2 f_equal.
    apply (f_equal2 (@app Rectangle)); [reflexivity|]. f_equal.
    apply imap_ext. intros x m' _. cbn. f_equal. lia.
Qed.

Lemma clustered_column_labels_exact patient : forall order start texts,
  Forall (fun m => (m < length (patient_data patient))%nat
                   /\ (m < length (patient_gene_names patient))%nat) order ->
  for_each (clustered_column_label patient) (enumerate_from start order) texts
  = Ok (texts ++ imap (fun x m =>
                   clustered_column_text (start + x)
                     (length (nth m (patient_data patient) []))
                     (nth m (patient_gene_names patient) ""%string)) order).
Proof.
  induction order as [|m order IH]; intros start texts Hall;
    cbn [enumerate_from for_each].
  - cbn. rewrite app_nil_r. reflexivity.
  - apply Forall_cons in Hall as [[Hdata Hname] Hall].
    unfold clustered_column_label at 1.
    rewrite (index_Ok _ _ _ (lookup_nth _ m [] Hdata)). cbn [bind].
    rewrite (index_Ok _ _ _ (lookup_nth _ m ""%string Hname)). cbn [bind].
    rewrite IH by exact Hall. rewrite <- app_assoc, imap_cons, Nat.add_0_r.
    do 2 f_equal. cbn [app]. f_equal.
    apply imap_ext. intros x m' _. cbn. do 4 f_equal. lia.
Qed.

(** X12. For the dendrogram of at least two samples, one leaf per sample
    name, in a figure of positive height (a sample in the first row, or column
    labels), when every displayed mutation has a gene name and a row served by
    the leaf order, and every leaf has a row label, [clustered_table] returns.
    Column [x] shows mutation [order[x]]
    with row position [i] taken from sample [leave_ordering[i]]; there is one
    row label per leaf; and the label above column [x] is the formatted
    [patient.gene_names] entry of [order[x]]: the strings passed as
    [column_labels] are never read, only their presence counts.  The figure is
    as wide as the row-label margin, the table and one unit per declared
    sample for the dendrogram. *)
Theorem clustered_figure {settings : int_settings} {mpl : matplotlib}
    (patient : Patient) (den_leaves : list nat) (row0 : list Q)
    (row_labels column_labels : option (list string))
    (displayed_mutations : option (list nat)) :
  patient_data patient !! 0%nat = Some row0 ->
  Forall (fun m => (exists row, patient_data patient !! m = Some row
                                /\ leaves_cover (leave_ordering den_leaves) row)
                   /\ (m < length (patient_gene_names patient))%nat)
         (displayed_or_all (patient_data patient) displayed_mutations) ->
  match row_labels with
  | Some labels => Forall (fun sa_idx => (sa_idx < length labels)%nat) den_leaves
  | None => True
  end ->
  row0 <> [] \/ column_labels <> None ->
  (2 <= length (patient_sample_names patient))%nat ->
  Permutation den_leaves (seq 0 (length (patient_sample_names patient))) ->
  (exists fig pr order,
      clustered_table patient den_leaves row_labels column_labels displayed_mutations
      = Ok fig
      /\ clustered_priorities patient (leave_ordering den_leaves)
           (displayed_or_all (patient_data patient) displayed_mutations) = Ok pr
      /\ clustered_order patient pr
           (displayed_or_all (patient_data patient) displayed_mutations) = Ok order
      /\ patches fig
         = concat (imap (fun x m =>
                     clustered_column_cells (leave_ordering den_leaves) x
                       (nth m (patient_data patient) [])) order)
      /\ texts fig
         = clustered_texts patient (leave_ordering den_leaves) row_labels
             column_labels order
      /\ (x_length fig
          == inject_Z ((match row_labels with Some _ => 22 | None => 0 end)
                       + 2
                       + 2 * Z.of_nat (length (displayed_or_all (patient_data patient)
                                                 displayed_mutations))
                       + Z.of_nat (patient_n patient)))%Q
      /\ y_length fig
         = 5 * Z.of_nat (length row0) - 1
           + match column_labels with Some _ => 20 | None => 0 end)
  /\ forall labels labels' : list string,
      clustered_table patient den_leaves row_labels (Some labels) displayed_mutations
      = clustered_table patient den_leaves row_labels (Some labels')
          displayed_mutations.
Proof.
  intros Hrow0 Hall Hlabels Hheight Hn Hleaves. split; [|reflexivity].
  set (displayed := displayed_or_all (patient_data patient) displayed_mutations) in *.
  set (lo := leave_ordering den_leaves) in *.
  destruct (clustered_priorities_cover patient lo displayed) as (pr & Hpr & Hlenpr & _).
  { eapply Forall_impl; [exact Hall|]. cbn beta. tauto. }
  destruct (order_by_name pr (patient_gene_names patient) displayed)
    as (order & Horder & Hperm & _).
  { eapply Forall_impl; [exact Hall|]. cbn beta. intros m [(row & Hrow & _) Hname].
    split; [|exact Hname]. rewrite Hlenpr. eapply lookup_lt_Some; eassumption. }
  rewrite <- clustered_order_hinton_order in Horder.
  pose proof (Permutation_Forall Hperm Hall) as Hall'.
  assert (Hcols : for_each (clustered_column patient lo) (enumerate order) []
                  = Ok ([] ++ concat (imap (fun x m =>
                            clustered_column_cells lo (0 + x)
                              (nth m (patient_data patient) [])) order))).
  { apply clustered_columns_exact.
    eapply Forall_impl; [exact Hall'|]. cbn beta. tauto. }
  assert (Hcl : forall texts,
             for_each (clustered_column_label patient) (enumerate order) texts
             = Ok (texts ++ imap (fun x m =>
                     clustered_column_text (0 + x)
                       (length (nth m (patient_data patient) []))
                       (nth m (patient_gene_names patient) ""%string)) order)).
  { intros texts. apply clustered_column_labels_exact.
    eapply Forall_impl; [exact Hall'|]. cbn beta. intros m [(row & Hrow & _) Hname].
    split; [eapply lookup_lt_Some; exact Hrow|exact Hname]. }
  assert (Hrun : clustered_table patient den_leaves row_labels column_labels
                   displayed_mutations
                 = Ok (mkFigure
                         (inject_Z
                            ((match row_labels with
                              | Some _ => - label_x_pos + 20
                              | None => 0
                              end)
                             + (- label_x_pos + Z.of_nat (length displayed) * width))
                          + inject_Z (Z.of_nat (patient_n patient) * width) / 2)%Q
                         (Z.of_nat (length row0) * (height + y_spacing) - y_spacing
                          + match column_labels with
                            | Some _ => label_y_pos + 20
                            | None => 0
                            end)
                         (concat (imap (fun x m =>
                                    clustered_column_cells lo x
                                      (nth m (patient_data patient) [])) order))
                         (clustered_texts patient lo row_labels column_labels order))).
  { unfold clustered_table. fold displayed.
    rewrite (index_Ok _ _ _ Hrow0). cbn [bind].
    rewrite plt_figure_positive;
      [|apply clustered_width_positive
       |apply inches_positive, table_height_positive; exact Hheight].
    cbn [bind]. rewrite sch_dendrogram_leaves by assumption. cbn [bind]. fold lo.
    rewrite Hpr. cbn [bind].
    rewrite Horder. cbn [bind]. rewrite Hcols. cbn [bind app].
    unfold clustered_texts.
    destruct row_labels as [rl|].
    - change (rev den_leaves) with lo. unfold enumerate at 1.
      rewrite clustered_row_labels_loop
        by (unfold lo, leave_ordering; apply Forall_rev; exact Hlabels).
      cbn [bind app]. rewrite map_enumerate_from.
      destruct column_labels as [cl|]; [rewrite Hcl|];
        cbn [bind fst snd]; rewrite ?app_nil_r; reflexivity.
    - cbn [bind].
      destruct column_labels as [cl|]; [rewrite Hcl|];
        cbn [bind app]; reflexivity. }
  eexists _, pr, order. split; [exact Hrun|].
  split; [exact Hpr|]. split; [exact Horder|]. cbn [patches texts x_length y_length].
  split; [reflexivity|]. split; [reflexivity|]. split.
  - unfold label_x_pos, width.
    destruct row_labels; unfold Qeq, Qdiv, Qmult, Qplus, Qinv, inject_Z; cbn; lia.
  - unfold height, y_spacing, label_y_pos. destruct column_labels; lia.
Qed.

Lemma clustered_figure_witness :
  exists fig,
    @clustered_table sample_settings sample_matplotlib scenario_B scenario_B_leaves
      (Some ["A"; "B"; "C"]%string) (Some ["never read"]%string) None = Ok fig
    /\ map text_s (texts fig) = ["C"; "A"; "B"; "TP53"]%string
    /\ y_length fig = 34.
Proof.
  destruct (proj1 (@clustered_figure sample_settings sample_matplotlib
              scenario_B scenario_B_leaves
              [PRESENT; ABSENT; @NEG_UNKNOWN sample_settings]
              (Some ["A"; "B"; "C"]%string) (Some ["never read"]%string) None
              eq_refl
              ltac:(repeat constructor; cbn;
                    [eexists; split; [reflexivity|];
                     intros i Hi; cbn in Hi;
                     destruct i as [|[|[|i]]]; [| | |lia];
                     (eexists; split; [reflexivity|cbn; lia])])
              ltac:(repeat constructor)
              ltac:(left; discriminate)
              ltac:(cbn; lia)
              ltac:(cbn; apply perm_swap)))
    as (fig & pr & order & Hrun & Hpr & Horder & _ & Htexts & _ & Hy).
  exists fig. split; [exact Hrun|].
  vm_compute in Hpr. injection Hpr as <-.
  vm_compute in Horder. injection Horder as <-.
  rewrite Htexts, Hy. split; reflexivity.
Defined.

(** ** [create_incompatible_mp_table]: the exceptions *)

Lemma index_raises_only {A : Type} (l : list A) (i : nat) :
  raises_only_IndexError (index l i).
Proof.
  unfold raises_only_IndexError, index. intros e. destruct (l !! i); congruence.
Qed.

Lemma Ok_raises_only {A : Type} (a : A) : raises_only_IndexError (Ok a).
Proof. intros e H. discriminate. Qed.

Lemma bind_raises_only {A B : Type} (m : result A) (k : A -> result B) :
  raises_only_IndexError m ->
  (forall a, m = Ok a -> raises_only_IndexError (k a)) ->
  raises_only_IndexError (bind m k).
Proof.
  intros Hm Hk e. destruct m as [a|e']; cbn [bind].
  - apply Hk. reflexivity.
  - intros H. apply Hm. congruence.
Qed.

Lemma for_each_raises_only {A S : Type} (body : A -> S -> result S) (l : list A) :
  (forall a s, raises_only_IndexError (body a s)) ->
  forall s, raises_only_IndexError (for_each body l s).
Proof.
  intros Hbody. induction l as [|a l IH]; intros s; cbn [for_each].
  - apply Ok_raises_only.
  - apply bind_raises_only; [apply Hbody|]. intros s' _. apply IH.
Qed.

Lemma sorted_raises_only {K A : Type} (ltb : K -> K -> bool) (key : A -> result K)
    (l : list A) :
  (forall a, raises_only_IndexError (key a)) ->
  raises_only_IndexError (sorted ltb key l).
Proof.
  intros Hkey. unfold sorted. apply bind_raises_only; [|intros; apply Ok_raises_only].
  induction l as [|a l IH]; cbn [decorate]; [apply Ok_raises_only|].
  apply bind_raises_only; [apply Hkey|]. intros k _.
  apply bind_raises_only; [exact IH|]. intros; apply Ok_raises_only.
Qed.

Lemma any_known_raises_only (data : list (list Q)) (mut_idx : nat) (samples : list nat) :
  raises_only_IndexError (any_known data mut_idx samples).
Proof.
  induction samples as [|sa samples IH]; cbn [any_known]; [apply Ok_raises_only|].
  apply bind_raises_only; [apply index_raises_only|]. intros row _.
  apply bind_raises_only; [apply index_raises_only|]. intros maf _.
  destruct (Qle_bool 0 maf); [apply Ok_raises_only|exact IH].
Qed.

Lemma resolved_displayed_raises_only (data : list (list Q)) (items : dict nat (list nat)) :
  raises_only_IndexError (resolved_displayed data items).
Proof.
  induction items as [|[m samples] items IH]; cbn [resolved_displayed];
    [apply Ok_raises_only|].
  apply bind_raises_only; [apply any_known_raises_only|]. intros keep _.
  apply bind_raises_only; [exact IH|]. intros; apply Ok_raises_only.
Qed.

Lemma mp_displayed_raises_only (data : list (list Q)) (phylogeny : Phylogeny) :
  raises_only_IndexError (mp_displayed data phylogeny).
Proof.
  unfold mp_displayed.
  destruct (is_CompatiblePhylogeny phylogeny); [apply Ok_raises_only|].
  destruct (is_ResolvedPhylogeny phylogeny).
  - apply bind_raises_only; [apply resolved_displayed_raises_only|].
    intros; apply Ok_raises_only.
  - destruct (is_MaxLHPhylogeny phylogeny); [apply Ok_raises_only|].
    destruct (is_SubclonalPhylogeny phylogeny); apply Ok_raises_only.
Qed.

Lemma mp_order_raises_only (column_labels : option (list string)) (displayed : list nat) :
  raises_only_IndexError (mp_order column_labels displayed).
Proof.
  unfold mp_order. destruct column_labels as [labels|]; apply sorted_raises_only.
  - intros k. apply bind_raises_only; [apply index_raises_only|].
    intros; apply Ok_raises_only.
  - intros k. apply Ok_raises_only.
Qed.

Lemma lift_never_divides {A : Type} (r : result A) :
  raises_only_IndexError r -> never_divides_by_zero (lift r).
Proof.
  intros Hr. unfold never_divides_by_zero. destruct r as [a|e]; cbn; [discriminate|].
  intros H. injection H as H. specialize (Hr e eq_refl). congruence.
Qed.

Lemma and_then_never_divides {A B : Type} (m : outcome A) (k : A -> outcome B) :
  never_divides_by_zero m ->
  (forall a, m = Done a -> never_divides_by_zero (k a)) ->
  never_divides_by_zero (and_then m k).
Proof.
  intros Hm Hk. destruct m as [a|e]; cbn [and_then].
  - apply Hk. reflexivity.
  - intros H. apply Hm. congruence.
Qed.

Lemma getitem_never_divides {K V : Type} (eqb : K -> K -> bool) (d : dict K V) (k : K) :
  never_divides_by_zero (getitem eqb d k).
Proof.
  unfold never_divides_by_zero, getitem. destruct (dict_find eqb d k); discriminate.
Qed.

Lemma for_every_never_divides {A S : Type} (body : A -> S -> outcome S) (l : list A) :
  (forall a s, never_divides_by_zero (body a s)) ->
  forall s, never_divides_by_zero (for_every body l s).
Proof.
  intros Hbody. induction l as [|a l IH]; intros s; cbn [for_every].
  - discriminate.
  - apply and_then_never_divides; [apply Hbody|]. intros s' _. apply IH.
Qed.

Lemma float_div_positive (a b : Q) : (0 < b)%Q -> float_div a b = Ok (a / b)%Q.
Proof.
  intros Hb. unfold float_div.
  destruct (Qeq_bool b 0) eqn:Hz; [|reflexivity].
  apply Qeq_bool_iff in Hz. rewrite Hz in Hb. exfalso. revert Hb. apply Qlt_irrefl.
Qed.

Lemma mp_x_length_positive (k : Z) : 0 <= k -> (0 < inject_Z k + cb_width)%Q.
Proof.
  intros Hk. unfold cb_width.
  assert (0 <= inject_Z k)%Q by (change 0%Q with (inject_Z 0); rewrite <- Zle_Qle; exact Hk).
  Lqa.lra.
Qed.

Lemma mp_x_offset_nonneg (row_labels : option (list string)) (n : nat) :
  0 <= (match row_labels with Some _ => - label_x_pos + 20 | None => 0 end)
       + Z.of_nat n * mp_width * 3.
Proof. unfold label_x_pos, mp_width. destruct row_labels; lia. Qed.

Lemma mp_cell_never_divides {settings : int_settings} patient phylogeny x_pos mut_idx
    len_row entry patches :
  never_divides_by_zero (mp_cell patient phylogeny x_pos mut_idx len_row entry patches).
Proof.
  destruct entry as [sa_idx maf]. unfold mp_cell.
  apply and_then_never_divides;
    [apply lift_never_divides, index_raises_only|]. intros mut_key _.
  apply and_then_never_divides; [apply getitem_never_divides|]. intros covs _.
  apply and_then_never_divides;
    [apply lift_never_divides, index_raises_only|]. intros sample_name _.
  apply and_then_never_divides; [apply getitem_never_divides|]. intros cov _.
  apply and_then_never_divides.
  - destruct (Qlt_bool 0 cov) eqn:Hcov; [|discriminate].
    apply Qlt_bool_iff in Hcov.
    apply and_then_never_divides;
      [apply lift_never_divides, index_raises_only|]. intros mut_key' _.
    apply and_then_never_divides; [apply getitem_never_divides|]. intros reads_of _.
    apply and_then_never_divides;
      [apply lift_never_divides, index_raises_only|]. intros sample_name' _.
    apply and_then_never_divides; [apply getitem_never_divides|]. intros reads _.
    rewrite float_div_positive by exact Hcov. discriminate.
  - intros raw _.
    destruct (is_MaxLHPhylogeny phylogeny); [|discriminate].
    destruct (marked (false_positives phylogeny) mut_idx sa_idx); [discriminate|].
    destruct (marked (false_negatives phylogeny) mut_idx sa_idx); discriminate.
Qed.

Lemma mp_column_never_divides {settings : int_settings} patient phylogeny entry patches :
  never_divides_by_zero (mp_column patient phylogeny entry patches).
Proof.
  destruct entry as [x_pos mut_idx]. unfold mp_column.
  apply and_then_never_divides;
    [apply lift_never_divides, index_raises_only|]. intros row _.
  apply for_every_never_divides. intros a s. apply mp_cell_never_divides.
Qed.

Lemma hinton_row_label_raises_only len_labels entry texts :
  raises_only_IndexError (hinton_row_label len_labels entry texts).
Proof. destruct entry. apply Ok_raises_only. Qed.

Lemma mp_column_label_raises_only {settings : int_settings} data labels entry texts :
  raises_only_IndexError (mp_column_label data labels entry texts).
Proof.
  destruct entry as [x_pos mut_idx]. unfold mp_column_label.
  apply bind_raises_only; [apply index_raises_only|]. intros row _.
  apply bind_raises_only; [apply index_raises_only|]. intros name _.
  apply Ok_raises_only.
Qed.

Lemma plt_figure_never_divides {mpl : matplotlib} (w h : Q) :
  never_divides_by_zero (lift (plt_figure w h)).
Proof.
  unfold never_divides_by_zero, plt_figure.
  destruct (figsize_accepted w h); discriminate.
Qed.

Lemma mp_draw_never_divides {settings : int_settings} {mpl : matplotlib}
    patient phylogeny row_labels column_labels displayed :
  never_divides_by_zero (mp_draw patient phylogeny row_labels column_labels displayed).
Proof.
  unfold mp_draw.
  pose proof (mp_x_length_positive _
                (mp_x_offset_nonneg row_labels (length displayed))) as Hpos.
  apply and_then_never_divides;
    [apply lift_never_divides, index_raises_only|]. intros row0 _.
  apply and_then_never_divides; [apply plt_figure_never_divides|]. intros _ _.
  rewrite !float_div_positive by exact Hpos. cbn [lift and_then].
  apply and_then_never_divides;
    [apply lift_never_divides, mp_order_raises_only|]. intros order _.
  apply and_then_never_divides.
  { apply for_every_never_divides. intros a s. apply mp_column_never_divides. }
  intros patches _.
  apply and_then_never_divides.
  { destruct row_labels as [labels|]; [|discriminate].
    apply lift_never_divides, for_each_raises_only.
    intros a s. apply hinton_row_label_raises_only. }
  intros texts _.
  apply and_then_never_divides; [|discriminate].
  destruct column_labels as [labels|]; [|discriminate].
  apply and_then_never_divides;
    [apply lift_never_divides, mp_order_raises_only|]. intros order' _.
  apply lift_never_divides, for_each_raises_only.
  intros a s. apply mp_column_label_raises_only.
Qed.

(** X13. Whatever the patient, the phylogeny and the labels,
    [create_incompatible_mp_table] never raises [ZeroDivisionError]: the
    variant fraction is divided by the coverage only where the coverage is
    positive, and the figure is at least as wide as its colour bars.  Once the
    displayed mutations are known, a first row of no sample without column
    labels makes [plt.figure] raise [ValueError], the height being -1, before
    any cell is read. *)
Theorem mp_table_never_divides_by_zero {settings : int_settings} {mpl : matplotlib}
    (patient : ReadPatient) (phylogeny : Phylogeny)
    (row_labels column_labels : option (list string)) :
  never_divides_by_zero
    (create_incompatible_mp_table patient phylogeny row_labels column_labels)
  /\ forall (displayed : list nat) (rest : list (list Q)),
       mp_displayed (patient_data (patient_of patient)) phylogeny = Ok (Some displayed) ->
       patient_data (patient_of patient) = [] :: rest ->
       column_labels = None ->
       create_incompatible_mp_table patient phylogeny row_labels column_labels
       = Fail (Builtin ValueError).
Proof.
  split.
  - unfold create_incompatible_mp_table.
    apply and_then_never_divides;
      [apply lift_never_divides, mp_displayed_raises_only|].
    intros [displayed|] _; [|discriminate].
    apply and_then_never_divides; [apply mp_draw_never_divides|discriminate].
  - intros displayed rest Hdisplayed Hdata ->.
    unfold create_incompatible_mp_table. rewrite Hdisplayed. cbn [lift and_then].
    unfold mp_draw. rewrite Hdata. cbn [index lookup list_lookup lift and_then].
    rewrite plt_figure_negative; [reflexivity|].
    right. apply inches_negative, (table_height_negative None). reflexivity.
Qed.

Lemma mp_table_never_divides_by_zero_witness :
  @create_incompatible_mp_table sample_settings sample_matplotlib
    (mkReadPatient (mkPatient [[]] 0 [] []) [] [] []) sample_compatible None None
  = Fail (Builtin ValueError).
Proof.
  apply (proj2 (@mp_table_never_divides_by_zero sample_settings sample_matplotlib
                  (mkReadPatient (mkPatient [[]] 0 [] []) [] [] [])
                  sample_compatible None None) [1; 0]%nat []);
    reflexivity.
Defined.

(** ** [create_incompatible_mp_table]: what it returns *)

Lemma and_then_some {A B : Type} (m : outcome A) (k : A -> outcome (option B)) :
  (forall a, k a <> Done None) -> and_then m k <> Done None.
Proof. intros Hk. destruct m as [a|e]; cbn [and_then]; [apply Hk|discriminate]. Qed.

(** X14. [create_incompatible_mp_table] returns [None] exactly when the
    phylogeny is neither compatible, resolved nor maximum-likelihood, that is
    for a subclonal phylogeny and for any other object; it then reads nothing
    of the patient, so that it returns [None] even for a patient without data.
    In every other case it returns a pair or raises. *)
Theorem mp_table_returns_none_iff {settings : int_settings} {mpl : matplotlib}
    (patient : ReadPatient) (phylogeny : Phylogeny)
    (row_labels column_labels : option (list string)) :
  create_incompatible_mp_table patient phylogeny row_labels column_labels = Done None
  <-> is_CompatiblePhylogeny phylogeny = false
      /\ is_ResolvedPhylogeny phylogeny = false
      /\ is_MaxLHPhylogeny phylogeny = false.
Proof.
  unfold create_incompatible_mp_table, mp_displayed. split.
  - intros Hrun.
    destruct (is_CompatiblePhylogeny phylogeny).
    { exfalso. revert Hrun. cbn [lift and_then].
      apply and_then_some. discriminate. }
    destruct (is_ResolvedPhylogeny phylogeny).
    { exfalso. revert Hrun.
      destruct (resolved_displayed _ _) as [displayed|e]; cbn [bind lift and_then];
        [apply and_then_some|]; discriminate. }
    destruct (is_MaxLHPhylogeny phylogeny).
    { exfalso. revert Hrun. cbn [lift and_then].
      apply and_then_some. discriminate. }
    repeat split.
  - intros (-> & -> & ->). destruct (is_SubclonalPhylogeny phylogeny); reflexivity.
Qed.

Lemma mp_table_returns_none_iff_witness :
  @create_incompatible_mp_table sample_settings sample_matplotlib
    (mkReadPatient (mkPatient [] 0 [] []) [] [] []) sample_subclonal None None
  = Done None.
Proof.
  apply (proj2 (@mp_table_returns_none_iff sample_settings sample_matplotlib
                  (mkReadPatient (mkPatient [] 0 [] []) [] [] [])
                  sample_subclonal None None)).
  repeat split.
Defined.

(** ** [create_incompatible_mp_table]: the column order *)

Lemma nat_ltb_asym (x y : nat) : (x <? y)%nat = true -> (y <? x)%nat = false.
Proof. intros H. apply Nat.ltb_lt in H. apply Nat.ltb_ge. lia. Qed.

Lemma nat_ltb_cotrans (x y z : nat) :
  (x <? y)%nat = true -> (x <? z)%nat = true \/ (z <? y)%nat = true.
Proof.
  intros H. apply Nat.ltb_lt in H.
  destruct (x <? z)%nat eqn:Hxz; [left; reflexivity|right].
  apply Nat.ltb_ge in Hxz. apply Nat.ltb_lt. lia.
Qed.

Lemma decorate_Ok_inv {K A : Type} (key : A -> result K) (l : list A) :
  forall kl, decorate key l = Ok kl -> Forall (fun a => exists k, key a = Ok k) l.
Proof.
  induction l as [|a l IH]; intros kl Hrun; [constructor|].
  cbn [decorate] in Hrun.
  destruct (key a) as [k|e] eqn:Hk; [|discriminate]. cbn [bind] in Hrun.
  destruct (decorate key l) as [kl'|e] eqn:Hkl; [|discriminate].
  constructor; [eauto|]. eapply IH. reflexivity.
Qed.

Lemma mp_order_by_index (displayed : list nat) :
  mp_order None displayed = Ok (sort_by Nat.ltb (fun k => k) displayed).
Proof.
  unfold mp_order. apply sorted_total. apply List.Forall_forall. reflexivity.
Qed.

Lemma mp_order_by_name (labels : list string) (displayed : list nat) :
  Forall (fun m => (m < length labels)%nat) displayed ->
  mp_order (Some labels) displayed
  = Ok (sort_by string_ltb (fun k => str_lower (name_of labels k)) displayed).
Proof.
  intros Hall. unfold mp_order. apply sorted_total.
  eapply Forall_impl; [exact Hall|]. cbn beta. intros m Hm. unfold name_of.
  rewrite (index_Ok _ _ _ (lookup_nth labels m ""%string Hm)). reflexivity.
Qed.

(** X15. The columns of [create_incompatible_mp_table] are not ordered by
    priority.  Without column labels they stand by ascending mutation index,
    whatever the order in which the phylogeny lists them.  With column labels
    they stand in the alphabetical order of the lower-cased labels, so that
    case is ignored, and mutations whose labels agree up to case keep the
    order in which the phylogeny lists them.  A displayed mutation without a
    label raises [IndexError]. *)
Theorem mp_order_sorted :
  (forall displayed : list nat,
      exists order,
        mp_order None displayed = Ok order
        /\ Permutation displayed order
        /\ StronglySorted le order)
  /\ (forall (labels : list string) (displayed : list nat),
      Forall (fun m => (m < length labels)%nat) displayed ->
      exists order,
        mp_order (Some labels) displayed = Ok order
        /\ Permutation displayed order
        /\ StronglySorted
             (fun m m' => name_leb (str_lower (name_of labels m))
                                   (str_lower (name_of labels m')) = true) order
        /\ forall s,
             List.filter (fun m => String.eqb (str_lower (name_of labels m)) s) order
             = List.filter (fun m => String.eqb (str_lower (name_of labels m)) s)
                           displayed)
  /\ (forall (labels : list string) (displayed : list nat),
      Exists (fun m => (length labels <= m)%nat) displayed ->
      mp_order (Some labels) displayed = Raise IndexError).
Proof.
  split; [|split].
  - intros displayed. eexists. split; [apply mp_order_by_index|]. split.
    + apply sort_by_perm.
    + eapply StronglySorted_weaken;
        [|apply sort_by_sorted; [exact nat_ltb_asym|exact nat_ltb_cotrans]].
      cbn beta. intros m m' H. apply Nat.ltb_ge in H. exact H.
  - intros labels displayed Hall. eexists.
    split; [apply mp_order_by_name; exact Hall|]. split; [apply sort_by_perm|]. split.
    + eapply StronglySorted_weaken;
        [|apply sort_by_sorted; [exact string_ltb_asym|exact string_ltb_cotrans]].
      cbn beta. intros m m' H. unfold name_leb. rewrite H. reflexivity.
    + intros s.
      rewrite <- !(List.filter_ext
                     (fun m => same_key string_ltb s (str_lower (name_of labels m)))
                     _ (fun m => string_same_key s _)).
      apply (sort_by_stable string_ltb (fun m => str_lower (name_of labels m))).
      exact string_ltb_cotrans.
  - intros labels displayed Hex.
    destruct (mp_order (Some labels) displayed) as [order|e] eqn:Hrun.
    + exfalso. unfold mp_order, sorted in Hrun.
      destruct (decorate _ displayed) as [kl|e] eqn:Hkl; [|discriminate].
      apply decorate_Ok_inv in Hkl.
      apply List.Exists_exists in Hex as (m & Hin & Hm).
      rewrite List.Forall_forall in Hkl. destruct (Hkl m Hin) as (k & Hk).
      unfold index in Hk. rewrite lookup_ge_None_2 in Hk by exact Hm. discriminate.
    + f_equal. exact (mp_order_raises_only _ _ _ Hrun).
Qed.

Lemma mp_order_sorted_witness :
  (exists order,
      mp_order (Some ["KRAS"; "apc"; "Apc"]%string) [2; 0; 1]%nat = Ok order
      /\ List.filter (fun m => String.eqb
                                 (str_lower (name_of ["KRAS"; "apc"; "Apc"]%string m))
                                 "apc") order
         = [2; 1]%nat)
  /\ mp_order (Some ["KRAS"]%string) [0; 1]%nat = Raise IndexError.
Proof.
  split.
  - destruct (proj1 (proj2 mp_order_sorted) ["KRAS"; "apc"; "Apc"]%string [2; 0; 1]%nat)
      as (order & Hrun & _ & _ & Hstable).
    + repeat constructor; cbn; lia.
    + exists order. split; [exact Hrun|]. rewrite Hstable. reflexivity.
  - apply (proj2 (proj2 mp_order_sorted)).
    apply Exists_cons_tl, Exists_cons_hd. cbn. lia.
Defined.

(** ** [create_incompatible_mp_table]: the mutations of a resolved phylogeny *)

Lemma any_known_in_range (data : list (list Q)) (mut_idx : nat) (samples : list nat) :
  Forall (fun sa_idx => exists row, data !! mut_idx = Some row
                                    /\ (sa_idx < length row)%nat) samples ->
  any_known data mut_idx samples = Ok (known_somewhere data (mut_idx, samples)).
Proof.
  unfold known_somewhere. cbn [fst snd].
  induction samples as [|sa samples IH]; intros Hall; [reflexivity|].
  apply Forall_cons in Hall as [(row & Hrow & Hsa) Hall].
  cbn [any_known existsb]. rewrite (index_Ok _ _ _ Hrow). cbn [bind].
  rewrite (index_Ok _ _ _ (lookup_nth row sa 0%Q Hsa)). cbn [bind].
  rewrite (nth_lookup_Some _ _ [] _ Hrow).
  destruct (Qle_bool 0 (nth sa row 0%Q)); [reflexivity|].
  rewrite IH by exact Hall. rewrite (nth_lookup_Some _ _ [] _ Hrow). reflexivity.
Qed.

Lemma any_known_prefix (data : list (list Q)) (mut_idx : nat) (row : list Q)
    (rest : list nat) (r : result bool) :
  data !! mut_idx = Some row ->
  forall before,
    Forall (fun sa_idx => exists maf, row !! sa_idx = Some maf /\ (maf < 0)%Q) before ->
    (any_known data mut_idx rest = r ->
     any_known data mut_idx (before ++ rest) = r).
Proof.
  intros Hrow. induction before as [|sa before IH]; intros Hall Hrest; [exact Hrest|].
  apply Forall_cons in Hall as [(maf & Hmaf & Hneg) Hall].
  cbn [app any_known]. rewrite (index_Ok _ _ _ Hrow). cbn [bind].
  rewrite (index_Ok _ _ _ Hmaf). cbn [bind].
  destruct (Qle_bool 0 maf) eqn:Hle.
  - apply Qle_bool_iff in Hle. exfalso. Lqa.lra.
  - apply IH; assumption.
Qed.

(** X16. For a resolved phylogeny the displayed mutations are the keys of
    [incompatible_positions], in the order of the dictionary, whose listed
    samples include one with a value that is not negative; a mutation with no
    listed sample is never displayed.  The samples are read in order up to the
    first such value: what follows it is not read and may be out of range,
    while an out-of-range sample that comes before it raises [IndexError]. *)
Theorem resolved_displayed_filter :
  (forall (data : list (list Q)) (phylogeny : Phylogeny),
      is_CompatiblePhylogeny phylogeny = false ->
      is_ResolvedPhylogeny phylogeny = true ->
      Forall (fun item =>
                Forall (fun sa_idx => exists row, data !! fst item = Some row
                                                  /\ (sa_idx < length row)%nat)
                       (snd item))
             (incompatible_positions phylogeny) ->
      mp_displayed data phylogeny
      = Ok (Some (map fst (List.filter (known_somewhere data)
                                       (incompatible_positions phylogeny)))))
  /\ (forall (data : list (list Q)) (mut_idx : nat) (row : list Q)
             (before after : list nat) (sa_idx : nat),
      data !! mut_idx = Some row ->
      Forall (fun s => exists maf, row !! s = Some maf /\ (maf < 0)%Q) before ->
      (forall maf, row !! sa_idx = Some maf -> (0 <= maf)%Q ->
                   any_known data mut_idx (before ++ sa_idx :: after) = Ok true)
      /\ (row !! sa_idx = None ->
          any_known data mut_idx (before ++ sa_idx :: after) = Raise IndexError)).
Proof.
  split.
  - intros data phylogeny Hc Hr Hall. unfold mp_displayed. rewrite Hc, Hr.
    assert (Hrun : resolved_displayed data (incompatible_positions phylogeny)
                   = Ok (map fst (List.filter (known_somewhere data)
                                              (incompatible_positions phylogeny)))).
    { induction (incompatible_positions phylogeny) as [|[m samples] items IH];
        [reflexivity|].
      apply Forall_cons in Hall as [Hm Hall].
      cbn [resolved_displayed List.filter]. cbn [fst snd] in Hm.
      rewrite (any_known_in_range _ _ _ Hm). cbn [bind].
      rewrite (IH Hall). cbn [bind].
      destruct (known_somewhere data (m, samples)); reflexivity. }
    rewrite Hrun. reflexivity.
  - intros data mut_idx row before after sa_idx Hrow Hbefore. split.
    + intros maf Hmaf Hpos. apply (any_known_prefix _ _ _ _ _ Hrow _ Hbefore).
      cbn [any_known]. rewrite (index_Ok _ _ _ Hrow). cbn [bind].
      rewrite (index_Ok _ _ _ Hmaf). cbn [bind].
      apply Qle_bool_iff in Hpos. rewrite Hpos. reflexivity.
    + intros Hnone. apply (any_known_prefix _ _ _ _ _ Hrow _ Hbefore).
      cbn [any_known]. rewrite (index_Ok _ _ _ Hrow). cbn [bind].
      unfold index. rewrite Hnone. reflexivity.
Qed.

Lemma resolved_displayed_filter_witness :
  mp_displayed (patient_data (patient_of sample_read_patient)) sample_resolved
  = Ok (Some [0%nat])
  /\ any_known [[-1; 2]%Q] 0 [0; 1; 9]%nat = Ok true
  /\ any_known [[-1; 2]%Q] 0 [0; 9; 1]%nat = Raise IndexError.
Proof.
  split; [|split].
  - rewrite (proj1 resolved_displayed_filter
               (patient_data (patient_of sample_read_patient)) sample_resolved
               eq_refl eq_refl); [reflexivity|].
    repeat constructor; cbn [fst snd]; eexists; (split; [reflexivity|cbn; lia]).
  - apply (proj1 (proj2 resolved_displayed_filter [[-1; 2]%Q] 0%nat [-1; 2]%Q
                    [0%nat] [9%nat] 1%nat eq_refl
                    ltac:(repeat constructor; exists (-1)%Q; split;
                          [reflexivity|reflexivity]))
             2%Q eq_refl).
    discriminate.
  - apply (proj2 (proj2 resolved_displayed_filter [[-1; 2]%Q] 0%nat [-1; 2]%Q
                    [0%nat] [1%nat] 9%nat eq_refl
                    ltac:(repeat constructor; exists (-1)%Q; split;
                          [reflexivity|reflexivity]))).
    reflexivity.
Defined.

(** ** The figure of [create_incompatible_mp_table] *)

Lemma class_color_class {settings : int_settings} (maf : Q) :
  class_color maf = class_hue (classify maf).
Proof.
  unfold class_color, classify.
  destruct (Qlt_bool 0 maf); [reflexivity|].
  destruct (Qeq_bool maf POS_UNKNOWN); [reflexivity|].
  destruct (Qeq_bool maf NEG_UNKNOWN); reflexivity.
Qed.

Lemma getitem_Done {K V : Type} (eqb : K -> K -> bool) (d : dict K V) (k : K) (v : V) :
  dict_find eqb d k = Some v -> getitem eqb d k = Done v.
Proof. intros H. unfold getitem. rewrite H. reflexivity. Qed.

Lemma mp_cell_spec {settings : int_settings} patient phylogeny
    (x_pos mut_idx ns sa_idx : nat) (maf : Q) (patches : list Box) :
  cell_readable patient mut_idx sa_idx ->
  mp_cell patient phylogeny x_pos mut_idx (Z.of_nat ns) (sa_idx, maf) patches
  = Done (patches ++ cell_boxes patient phylogeny x_pos mut_idx ns sa_idx maf).
Proof.
  intros (cov & Hcov & Hreads).
  unfold cell_boxes, coverage_at, reads_at, raw_fraction, overlay. rewrite Hcov.
  unfold default, from_option, Datatypes.id. cbn beta iota. unfold entry_at in *.
  destruct (patient_mut_keys patient !! mut_idx) as [mut_key|] eqn:Hkey;
    [|discriminate].
  destruct (dict_find String.eqb (patient_phred_coverage patient) mut_key)
    as [covs|] eqn:Hcovs; [|discriminate].
  destruct (patient_sample_names (patient_of patient) !! sa_idx)
    as [sample_name|] eqn:Hname; [|discriminate].
  unfold mp_cell.
  rewrite (index_Ok _ _ _ Hkey). cbn [lift and_then].
  rewrite (getitem_Done _ _ _ _ Hcovs). cbn [and_then].
  rewrite (index_Ok _ _ _ Hname). cbn [lift and_then].
  rewrite (getitem_Done _ _ _ _ Hcov). cbn [and_then].
  assert (Hgeo : Z.of_nat x_pos * mp_width * 3 = 3 * Z.of_nat x_pos
                 /\ (height + y_spacing) * (Z.of_nat ns - Z.of_nat sa_idx - 1)
                    = row_y ns sa_idx).
  { unfold mp_width, height, y_spacing, row_y. lia. }
  destruct Hgeo as [Hx Hy]. rewrite Hx, Hy, class_color_class, Z.add_0_r.
  change (mp_width * 2) with 2. change (height / 2) with 2.
  change mp_width with 1. change height with 4.
  destruct (Qlt_bool 0 cov) eqn:Hpos.
  - apply Qlt_bool_iff in Hpos. destruct (Hreads Hpos) as [reads Hr].
    destruct (dict_find String.eqb (patient_mut_reads patient) mut_key)
      as [reads_of|] eqn:Hreads_of; [|discriminate].
    rewrite (getitem_Done _ _ _ _ Hreads_of). cbn [and_then].
    rewrite (getitem_Done _ _ _ _ Hr). cbn [and_then].
    rewrite (float_div_positive _ _ Hpos). cbn [lift and_then]. rewrite Hr.
    cbn beta iota.
    destruct (is_MaxLHPhylogeny phylogeny); [|rewrite app_nil_r; reflexivity].
    destruct (marked (false_positives phylogeny) mut_idx sa_idx);
      [rewrite <- app_assoc; reflexivity|].
    destruct (marked (false_negatives phylogeny) mut_idx sa_idx);
      [rewrite <- app_assoc; reflexivity|rewrite app_nil_r; reflexivity].
  - cbn [and_then].
    destruct (is_MaxLHPhylogeny phylogeny); [|rewrite app_nil_r; reflexivity].
    destruct (marked (false_positives phylogeny) mut_idx sa_idx);
      [rewrite <- app_assoc; reflexivity|].
    destruct (marked (false_negatives phylogeny) mut_idx sa_idx);
      [rewrite <- app_assoc; reflexivity|rewrite app_nil_r; reflexivity].
Qed.

Lemma mp_cells_loop {settings : int_settings} patient phylogeny (x_pos mut_idx ns : nat) :
  forall (row : list Q) (start : nat) (patches : list Box),
    (forall sa_idx, (start <= sa_idx < start + length row)%nat ->
                    cell_readable patient mut_idx sa_idx) ->
    for_every (mp_cell patient phylogeny x_pos mut_idx (Z.of_nat ns))
              (enumerate_from start row) patches
    = Done (patches ++ concat (imap (fun i maf =>
                cell_boxes patient phylogeny x_pos mut_idx ns (start + i) maf) row)).
Proof.
  induction row as [|maf row IH]; intros start patches Hall;
    cbn [enumerate_from for_every].
  - cbn. rewrite app_nil_r. reflexivity.
  - rewrite mp_cell_spec by (apply Hall; cbn [length]; lia). cbn [and_then].
    rewrite IH by (intros sa Hsa; apply Hall; cbn [length]; lia).
    rewrite <- app_assoc, imap_cons, Nat.add_0_r. cbn [concat]. do 2 f_equal.
    apply (f_equal2 (@app Box)); [reflexivity|]. f_equal.
    apply imap_ext. intros i x _. unfold compose. f_equal. lia.
Qed.

Lemma mp_columns_loop {settings : int_settings} patient phylogeny :
  forall (order : list nat) (start : nat) (patches : list Box),
    Forall (fun m => exists row,
                patient_data (patient_of patient) !! m = Some row
                /\ forall sa_idx, (sa_idx < length row)%nat ->
                                  cell_readable patient m sa_idx) order ->
    for_every (mp_column patient phylogeny) (enumerate_from start order) patches
    = Done (patches ++ concat (imap (fun x m =>
                column_boxes patient phylogeny (start + x) m) order)).
Proof.
  induction order as [|m order IH]; intros start patches Hall;
    cbn [enumerate_from for_every].
  - cbn. rewrite app_nil_r. reflexivity.
  - apply Forall_cons in Hall as [(row & Hrow & Hread) Hall].
    unfold mp_column at 1. rewrite (index_Ok _ _ _ Hrow). cbn [lift and_then].
    unfold enumerate.
    rewrite mp_cells_loop by (intros sa Hsa; apply Hread; lia). cbn [and_then].
    rewrite IH by exact Hall.
    rewrite <- app_assoc, imap_cons, Nat.add_0_r. cbn [concat].
    unfold column_boxes at 2. rewrite (nth_lookup_Some _ _ [] _ Hrow).
    do 2 f_equal. apply (f_equal2 (@app Box)); [reflexivity|]. f_equal.
    apply imap_ext. intros x m' _. unfold compose. f_equal. lia.
Qed.

Lemma mp_column_labels_exact {settings : int_settings}
    (data : list (list Q)) (labels : list string) :
  forall order start texts,
    Forall (fun m => (m < length data)%nat /\ (m < length labels)%nat) order ->
    for_each (mp_column_label data labels) (enumerate_from start order) texts
    = Ok (texts ++ imap (fun x m =>
                     mp_column_text (start + x) (length (nth m data []))
                                    (nth m labels ""%string)) order).
Proof.
  induction order as [|m order IH]; intros start texts Hall;
    cbn [enumerate_from for_each].
  - cbn. rewrite app_nil_r. reflexivity.
  - apply Forall_cons in Hall as [[Hdata Hname] Hall].
    unfold mp_column_label at 1.
    rewrite (index_Ok _ _ _ (lookup_nth data m [] Hdata)). cbn [bind].
    rewrite (index_Ok _ _ _ (lookup_nth labels m ""%string Hname)). cbn [bind].
    rewrite IH by exact Hall. rewrite <- app_assoc, imap_cons, Nat.add_0_r.
    do 2 f_equal. cbn [app]. f_equal.
    + unfold mp_column_text, mp_width, label_y_pos, height, y_spacing.
      f_equal; f_equal; f_equal; lia.
    + apply imap_ext. intros x m' _. cbn. do 4 f_equal. lia.
Qed.

Lemma mp_fractions (k : Z) :
  0 <= k ->
  let x := (inject_Z k + cb_width)%Q in
  (0 <= (x - cb_width) / x
   /\ (x - cb_width) / x < (x - cb_width) / x + cb_width / 4 / x
   /\ (x - cb_width) / x + cb_width / 4 / x < (x - cb_width / 2) / x + cb_width / 4 / x
   /\ (x - cb_width / 2) / x + cb_width / 4 / x < 1)%Q.
Proof.
  intros Hk x. pose proof (mp_x_length_positive k Hk) as Hx. fold x in Hx.
  assert (Hk' : (0 <= inject_Z k)%Q)
    by (change 0%Q with (inject_Z 0); rewrite <- Zle_Qle; exact Hk).
  assert (Hix : (0 < / x)%Q) by (apply Qinv_lt_0_compat; exact Hx).
  assert (Hone : (x * / x == 1)%Q).
  { apply Qmult_inv_r. intros H. rewrite H in Hx. revert Hx. apply Qlt_irrefl. }
  assert (Hax : (0 <= (x - cb_width) * / x)%Q).
  { apply Qmult_le_0_compat; [|apply Qlt_le_weak; exact Hix].
    unfold x. Lqa.lra. }
  unfold Qdiv. unfold cb_width in *.
  set (ix := (/ x)%Q) in *.
  assert (Hmul : forall a : Q, ((x - a) * ix == 1 - a * ix)%Q).
  { intros a. rewrite <- Hone. fold ix. ring. }
  assert (Hq : (30 * / 4 == 15 # 2)%Q) by reflexivity.
  assert (Hh : (30 * / 2 == 15)%Q) by reflexivity.
  repeat split.
  - exact Hax.
  - rewrite !Hmul, Hq. Lqa.lra.
  - rewrite Hh, !Hmul, Hq. Lqa.lra.
  - rewrite Hh, !Hmul, Hq. Lqa.lra.
Qed.

(** X17. When the matrix has a first row, with a sample or under column
    labels so that the figure has a positive height, every displayed mutation
    has a row whose cells can all be drawn and, with column labels, a label,
    [create_incompatible_mp_table] returns.  Column [x] shows mutation
    [order[x]] of the column order: per sample, from the top, a frame two
    units wide in the class colour whose left half is shaded by the variant
    fraction and whose right half by the coverage, and for a
    maximum-likelihood phylogeny a half-height mark, in the colour of absence
    on a false positive and otherwise in the colour of presence on a false
    negative.  Columns are three units apart, the label of column [x] is the
    formatted label of [order[x]], and the returned width is 30 for the colour
    bars, 3 per displayed mutation and 22 for row labels.  The table axes and
    the two colour bars follow each other from left to right inside the
    figure. *)
Theorem mp_table_figure {settings : int_settings} {mpl : matplotlib}
    (patient : ReadPatient) (phylogeny : Phylogeny) (row0 : list Q)
    (row_labels column_labels : option (list string)) (displayed : list nat) :
  patient_data (patient_of patient) !! 0%nat = Some row0 ->
  row0 <> [] \/ column_labels <> None ->
  mp_displayed (patient_data (patient_of patient)) phylogeny = Ok (Some displayed) ->
  Forall (fun m => (exists row,
                       patient_data (patient_of patient) !! m = Some row
                       /\ forall sa_idx, (sa_idx < length row)%nat ->
                                         cell_readable patient m sa_idx)
                   /\ match column_labels with
                      | Some labels => (m < length labels)%nat
                      | None => True
                      end)
         displayed ->
  exists table order,
    create_incompatible_mp_table patient phylogeny row_labels column_labels
    = Done (Some table)
    /\ mp_order column_labels displayed = Ok order
    /\ table_patches table = concat (imap (column_boxes patient phylogeny) order)
    /\ table_texts table
       = mp_texts (patient_data (patient_of patient)) row_labels column_labels order
    /\ (table_x_length table
        == inject_Z (30 + 3 * Z.of_nat (length displayed)
                     + match row_labels with Some _ => 22 | None => 0 end))%Q
    /\ table_y_length table
       = 5 * Z.of_nat (length row0) - 1
         + match column_labels with Some _ => 20 | None => 0 end
    /\ (0 <= table_ax_width table
        /\ table_ax_width table < table_cb1_left table
        /\ table_cb1_left table < table_cb2_left table
        /\ table_cb2_left table < 1)%Q.
Proof.
  intros Hrow0 Hheight Hdisplayed Hall.
  set (data := patient_data (patient_of patient)) in *.
  set (k := (match row_labels with Some _ => - label_x_pos + 20 | None => 0 end)
            + Z.of_nat (length displayed) * mp_width * 3).
  assert (Hk : 0 <= k) by apply mp_x_offset_nonneg.
  pose proof (mp_x_length_positive k Hk) as Hpos.
  assert (Hwide : (0 < (inject_Z k + cb_width) / 20)%Q)
    by (apply Qlt_shift_div_l; [reflexivity|]; Lqa.lra).
  assert (Horder : exists order,
             mp_order column_labels displayed = Ok order
             /\ Permutation displayed order).
  { destruct column_labels as [labels|].
    - eexists. split; [apply mp_order_by_name|apply sort_by_perm].
      eapply Forall_impl; [exact Hall|]. cbn beta. tauto.
    - eexists. split; [apply mp_order_by_index|apply sort_by_perm]. }
  destruct Horder as (order & Horder & Hperm).
  pose proof (Permutation_Forall Hperm Hall) as Hall'.
  assert (Hcols : for_every (mp_column patient phylogeny) (enumerate order) []
                  = Done ([] ++ concat (imap (fun x m =>
                              column_boxes patient phylogeny (0 + x) m) order))).
  { apply mp_columns_loop.
    eapply Forall_impl; [exact Hall'|]. cbn beta. tauto. }
  assert (Hrun : mp_draw patient phylogeny row_labels column_labels displayed
                 = Done (mkMPTable
                           (inject_Z k + cb_width)
                           (Z.of_nat (length row0) * (height + y_spacing) - y_spacing
                            + match column_labels with
                              | Some _ => label_y_pos + 20
                              | None => 0
                              end)
                           ((inject_Z k + cb_width - cb_width)
                            / (inject_Z k + cb_width))
                           ((inject_Z k + cb_width - cb_width)
                            / (inject_Z k + cb_width)
                            + cb_width / 4 / (inject_Z k + cb_width))
                           ((inject_Z k + cb_width - cb_width / 2)
                            / (inject_Z k + cb_width)
                            + cb_width / 4 / (inject_Z k + cb_width))
                           (concat (imap (column_boxes patient phylogeny) order))
                           (mp_texts data row_labels column_labels order))).
  { unfold mp_draw. fold data. fold k.
    rewrite (index_Ok _ _ _ Hrow0). cbn [lift and_then].
    rewrite plt_figure_positive
      by (try exact Hwide; apply inches_positive, table_height_positive, Hheight).
    cbn [lift and_then].
    rewrite !float_div_positive by exact Hpos. cbn [lift and_then].
    rewrite Horder. cbn [lift and_then]. rewrite Hcols. cbn [and_then app].
    unfold enumerate, mp_texts.
    destruct row_labels as [rl|]; [rewrite hinton_row_labels_exact|];
      cbn [lift and_then];
      (destruct column_labels as [cl|];
       [rewrite Horder; cbn [lift and_then];
        rewrite (mp_column_labels_exact data cl order 0 _);
        [|eapply Forall_impl; [exact Hall'|]; cbn beta;
          intros m [(row & Hrow & _) Hl];
          split; [eapply lookup_lt_Some; exact Hrow|exact Hl]];
        cbn [lift and_then]
       |cbn [and_then]]; cbn [app]; rewrite ?app_nil_r; reflexivity). }
  eexists _, order. split.
  { unfold create_incompatible_mp_table. fold data. rewrite Hdisplayed.
    cbn [lift and_then]. rewrite Hrun. reflexivity. }
  split; [exact Horder|].
  cbn [table_patches table_texts table_x_length table_y_length table_ax_width
       table_cb1_left table_cb2_left].
  split; [reflexivity|]. split; [reflexivity|]. split; [|split].
  - unfold k, cb_width, label_x_pos, mp_width.
    destruct row_labels; unfold Qeq, Qplus, inject_Z; cbn; lia.
  - unfold height, y_spacing, label_y_pos. destruct column_labels; lia.
  - exact (mp_fractions k Hk).
Qed.

Lemma mp_table_figure_witness :
  exists table,
    @create_incompatible_mp_table sample_settings sample_matplotlib
      sample_read_patient sample_maxlh
      (Some ["Pam01_P"; "Pam01_M"]%string) (Some ["KRAS"; "apc"]%string)
    = Done (Some table)
    /\ length (table_patches table) = 23%nat
    /\ map text_s (table_texts table) = ["Pam01 P"; "Pam01 M"; "apc"; "KRAS"; "KRAS"]%string
    /\ (table_x_length table == 61)%Q.
Proof.
  destruct (@mp_table_figure sample_settings sample_matplotlib
              sample_read_patient sample_maxlh [PRESENT; ABSENT]
              (Some ["Pam01_P"; "Pam01_M"]%string) (Some ["KRAS"; "apc"]%string)
              [0; 0; 1]%nat eq_refl ltac:(left; discriminate) eq_refl)
    as (table & order & Hrun & Horder & Hpatches & Htexts & Hx & _).
  - repeat constructor; cbn [length]; try lia;
      (eexists; split; [reflexivity|]; intros sa Hsa; cbn [length] in Hsa;
       destruct sa as [|[|sa]]; [| |lia];
       (eexists; split; [reflexivity|]; intros Hcov;
        first [eexists; reflexivity | vm_compute in Hcov; discriminate Hcov])).
  - exists table. split; [exact Hrun|].
    vm_compute in Horder. injection Horder as <-.
    rewrite Hpatches, Htexts. repeat split. exact Hx.
Defined.

(** ** [reads_plot] *)

Lemma dict_find_key {V : Type} (d : dict string V) (k : string) :
  In k (keys d) -> exists v, dict_find String.eqb d k = Some v.
Proof.
  induction d as [|[k' v] d IH]; intros Hin; [destruct Hin|].
  cbn [dict_find]. destruct (String.eqb_spec k' k) as [Heq|Hne]; [eauto|].
  apply IH. destruct Hin as [Hk|Hin]; [cbn in Hk; congruence|exact Hin].
Qed.

Lemma entry_of_Done (table : dict string (dict string Q)) (k name : string)
    (row : dict string Q) (v : Q) :
  dict_find String.eqb table k = Some row ->
  dict_find String.eqb row name = Some v ->
  entry_of table k name = Done v /\ table_entry table k name = v.
Proof.
  intros Hrow Hv. unfold entry_of, table_entry, getitem. rewrite Hrow. cbn [and_then].
  rewrite Hv. split; reflexivity.
Qed.

Lemma jet_argument_Ok (patient : ReadPatient) (sa_idx : nat) :
  patient_n (patient_of patient) <> 1%nat ->
  jet_argument patient sa_idx = Ok (jet_level (patient_n (patient_of patient)) sa_idx).
Proof.
  intros Hn. unfold jet_argument, jet_level, float_div.
  destruct (Qeq_bool _ 0) eqn:Hz; [|reflexivity].
  apply Qeq_bool_iff in Hz. unfold Qeq, inject_Z in Hz. cbn in Hz. lia.
Qed.

Lemma jet_argument_single (patient : ReadPatient) (sa_idx : nat) :
  patient_n (patient_of patient) = 1%nat ->
  jet_argument patient sa_idx = Raise ZeroDivisionError.
Proof. intros Hn. unfold jet_argument. rewrite Hn. reflexivity. Qed.

(** One point, up to the colour. *)
Lemma reads_point_upto (patient : ReadPatient) (k name : string) (sa_idx : nat)
    (s : Scatter) :
  coverage_recorded patient ->
  In k (keys (patient_mut_reads patient)) ->
  In name (samples_of patient k) ->
  reads_point patient k (sa_idx, name) s
  = let+ level := lift (jet_argument patient sa_idx) in
    Done (mkScatter
            (x_coverages s
             ++ [plotted_coverage (table_entry (patient_phred_coverage patient) k name)])
            (y_mut_reads s
             ++ [plotted_reads (table_entry (patient_mut_reads patient) k name)])
            (colors s ++ [level])).
Proof.
  intros Hrec Hk Hname.
  destruct (Hrec k name Hk Hname) as (covs & cov & Hcovs & Hcov).
  destruct (entry_of_Done _ _ _ _ _ Hcovs Hcov) as [Hc Hc'].
  unfold samples_of in Hname.
  destruct (dict_find String.eqb (patient_mut_reads patient) k) as [row|] eqn:Hrow;
    [|destruct Hname].
  destruct (dict_find_key row name Hname) as (reads & Hreads).
  destruct (entry_of_Done _ _ _ _ _ Hrow Hreads) as [Hr Hr'].
  unfold reads_point. rewrite Hc, Hr, Hc', Hr'. cbn [and_then].
  unfold plotted_coverage, plotted_reads.
  destruct (Qlt_bool 0 cov); destruct (Qeq_bool reads 0); reflexivity.
Qed.

Lemma reads_points_loop (patient : ReadPatient) (k : string) :
  coverage_recorded patient ->
  patient_n (patient_of patient) <> 1%nat ->
  In k (keys (patient_mut_reads patient)) ->
  forall names start s,
    Forall (fun name => In name (samples_of patient k)) names ->
    for_every (reads_point patient k) (enumerate_from start names) s
    = Done (mkScatter
              (x_coverages s
               ++ map (fun name => plotted_coverage
                          (table_entry (patient_phred_coverage patient) k name)) names)
              (y_mut_reads s
               ++ map (fun name => plotted_reads
                          (table_entry (patient_mut_reads patient) k name)) names)
              (colors s
               ++ imap (fun i _ => jet_level (patient_n (patient_of patient))
                                             (start + i)) names)).
Proof.
  intros Hrec Hn Hk. induction names as [|name names IH]; intros start s Hall;
    cbn [enumerate_from for_every map].
  - cbn. rewrite !app_nil_r. destruct s; reflexivity.
  - apply Forall_cons in Hall as [Hname Hall].
    rewrite (reads_point_upto _ _ _ _ _ Hrec Hk Hname), jet_argument_Ok by exact Hn.
    cbn [lift and_then]. rewrite IH by exact Hall.
    cbn [x_coverages y_mut_reads colors]. rewrite <- !app_assoc, imap_cons, Nat.add_0_r.
    cbn [app]. do 4 f_equal.
    apply imap_ext. intros i x _. unfold compose. f_equal. lia.
Qed.

Lemma reads_rows_loop (patient : ReadPatient) :
  coverage_recorded patient ->
  patient_n (patient_of patient) <> 1%nat ->
  forall ks s,
    Forall (fun k => In k (keys (patient_mut_reads patient))) ks ->
    for_every (reads_row patient) ks s
    = Done (mkScatter
              (x_coverages s
               ++ concat (map (fun k =>
                    map (fun name => plotted_coverage
                           (table_entry (patient_phred_coverage patient) k name))
                        (samples_of patient k)) ks))
              (y_mut_reads s
               ++ concat (map (fun k =>
                    map (fun name => plotted_reads
                           (table_entry (patient_mut_reads patient) k name))
                        (samples_of patient k)) ks))
              (colors s
               ++ concat (map (fun k =>
                    imap (fun i _ => jet_level (patient_n (patient_of patient)) i)
                         (samples_of patient k)) ks))).
Proof.
  intros Hrec Hn. induction ks as [|k ks IH]; intros s Hall; cbn [for_every map concat].
  - rewrite !app_nil_r. destruct s; reflexivity.
  - apply Forall_cons in Hall as [Hk Hall].
    destruct (dict_find_key _ _ Hk) as (row & Hrow).
    unfold reads_row at 1. rewrite (getitem_Done _ _ _ _ Hrow). cbn [and_then].
    unfold enumerate.
    assert (Hsamples : samples_of patient k = keys row)
      by (unfold samples_of; rewrite Hrow; reflexivity).
    rewrite <- Hsamples.
    rewrite (reads_points_loop _ _ Hrec Hn Hk)
      by (apply List.Forall_forall; auto).
    cbn [and_then]. rewrite IH by exact Hall.
    cbn [x_coverages y_mut_reads colors]. rewrite <- !app_assoc. reflexivity.
Qed.

Lemma legend_loop (patient : ReadPatient) :
  patient_n (patient_of patient) <> 1%nat ->
  forall names start y_pos texts,
    exists y_end new,
      for_every (legend_entry patient) (enumerate_from start names) (y_pos, texts)
      = Done (y_end, texts ++ new)
      /\ map legend_s new = map (str_drop 5) names
      /\ map legend_level new
         = imap (fun i _ => jet_level (patient_n (patient_of patient)) (start + i)) names
      /\ map legend_y new = legend_heights y_pos (length names).
Proof.
  intros Hn. induction names as [|name names IH]; intros start y_pos texts;
    cbn [enumerate_from for_every].
  - exists y_pos, []. rewrite app_nil_r. repeat split.
  - unfold legend_entry at 1. rewrite jet_argument_Ok by exact Hn.
    cbn [lift and_then].
    destruct (IH (S start) (y_pos / (17 # 10))%Q
                (texts ++ [mkLegendText y_pos (str_drop 5 name)
                             (jet_level (patient_n (patient_of patient)) start)]))
      as (y_end & new & Hrun & Hs & Hl & Hy).
    exists y_end, (mkLegendText y_pos (str_drop 5 name)
                     (jet_level (patient_n (patient_of patient)) start) :: new).
    split; [rewrite Hrun, <- app_assoc; reflexivity|].
    cbn [map length legend_heights legend_s legend_level legend_y].
    rewrite Hs, Hl, Hy, imap_cons, Nat.add_0_r. repeat split. f_equal.
    apply imap_ext. intros i x _. unfold compose. f_equal. lia.
Qed.

(** X18. For a patient with other than exactly one sample, and with a
    coverage on record beside every read count, [reads_plot] returns.  It
    plots one point per read count, mutation by mutation: the coverage, or 1
    where the coverage is not positive, against the read count, or 1 where the
    read count is zero.  The colour level of a point is the position of its
    sample within the read dictionary of its mutation divided by [n - 1],
    while the legend colours the samples by their position in
    [patient.sample_names]: the two agree for a mutation whose dictionary lists
    the samples in that order.  The legend shows each sample name without its
    first five characters, at heights that start at 5000 and are divided by
    1.7 from entry to entry. *)
Theorem reads_plot_figure (patient : ReadPatient) :
  coverage_recorded patient ->
  patient_n (patient_of patient) <> 1%nat ->
  exists plot,
    reads_plot patient = Done plot
    /\ x_coverages (points plot)
       = concat (map (fun k =>
                   map (fun name => plotted_coverage
                          (table_entry (patient_phred_coverage patient) k name))
                       (samples_of patient k))
                     (keys (patient_mut_reads patient)))
    /\ y_mut_reads (points plot)
       = concat (map (fun k =>
                   map (fun name => plotted_reads
                          (table_entry (patient_mut_reads patient) k name))
                       (samples_of patient k))
                     (keys (patient_mut_reads patient)))
    /\ colors (points plot)
       = concat (map (fun k =>
                   imap (fun i _ => jet_level (patient_n (patient_of patient)) i)
                        (samples_of patient k))
                     (keys (patient_mut_reads patient)))
    /\ map legend_s (legend plot)
       = map (str_drop 5) (patient_sample_names (patient_of patient))
    /\ map legend_level (legend plot)
       = imap (fun i _ => jet_level (patient_n (patient_of patient)) i)
              (patient_sample_names (patient_of patient))
    /\ map legend_y (legend plot)
       = legend_heights 5000 (length (patient_sample_names (patient_of patient)))
    /\ ((forall k, In k (keys (patient_mut_reads patient)) ->
                   samples_of patient k = patient_sample_names (patient_of patient)) ->
        colors (points plot)
        = concat (map (fun _ => map legend_level (legend plot))
                      (keys (patient_mut_reads patient)))).
Proof.
  intros Hrec Hn.
  destruct (legend_loop patient Hn (patient_sample_names (patient_of patient))
              0%nat 5000%Q []) as (y_end & new & Hlegend & Hs & Hl & Hy).
  eexists. split.
  { unfold reads_plot, reads_points.
    rewrite (reads_rows_loop _ Hrec Hn) by (apply List.Forall_forall; auto).
    cbn [and_then]. unfold enumerate. rewrite Hlegend. cbn [and_then snd app].
    reflexivity. }
  cbn [points legend x_coverages y_mut_reads colors app].
  repeat split; try assumption.
  intros Hsame. f_equal. apply map_ext_in. intros k Hk.
  rewrite Hl, (Hsame k Hk). reflexivity.
Qed.

Lemma reads_plot_figure_witness :
  exists plot,
    reads_plot sample_read_patient = Done plot
    /\ x_coverages (points plot) = [100; 50; 20]%Q
    /\ y_mut_reads (points plot) = [40; 1; 20]%Q
    /\ colors (points plot) = [0 / 1; 1 / 1; 0 / 1]%Q
    /\ map legend_s (legend plot) = ["_P"; "_M"]%string.
Proof.
  destruct (reads_plot_figure sample_read_patient)
    as (plot & Hrun & Hx & Hy & Hc & Hs & _).
  - intros k name Hk Hname. cbn in Hk.
    destruct Hk as [<- | [<- | []]]; cbn in Hname.
    + destruct Hname as [<- | [<- | []]]; eexists _, _; split; reflexivity.
    + destruct Hname as [<- | []]; eexists _, _; split; reflexivity.
  - cbn. lia.
  - exists plot. split; [exact Hrun|]. rewrite Hx, Hy, Hc, Hs. repeat split.
Defined.

Lemma reads_rows_single (patient : ReadPatient) :
  coverage_recorded patient ->
  patient_n (patient_of patient) = 1%nat ->
  forall ks s,
    Forall (fun k => In k (keys (patient_mut_reads patient))) ks ->
    (Forall (fun k => samples_of patient k = []) ks ->
     for_every (reads_row patient) ks s = Done s)
    /\ (Exists (fun k => samples_of patient k <> []) ks ->
        for_every (reads_row patient) ks s = Fail (Builtin ZeroDivisionError)).
Proof.
  intros Hrec Hn. induction ks as [|k ks IH]; intros s Hall.
  - split; [reflexivity|]. intros H. inversion H.
  - apply Forall_cons in Hall as [Hk Hall].
    destruct (dict_find_key _ _ Hk) as (row & Hrow).
    assert (Hsamples : samples_of patient k = keys row)
      by (unfold samples_of; rewrite Hrow; reflexivity).
    cbn [for_every]. unfold reads_row at 1 3.
    rewrite (getitem_Done _ _ _ _ Hrow). cbn [and_then]. rewrite <- Hsamples.
    destruct (samples_of patient k) as [|name names] eqn:Hnames.
    + cbn [enumerate enumerate_from for_every and_then]. split.
      * intros Hempty. apply Forall_cons in Hempty as [_ Hempty].
        apply IH; assumption.
      * intros Hex. apply Exists_cons in Hex as [Hne|Hex]; [congruence|].
        apply IH; assumption.
    + split; [intros Hempty; apply Forall_cons in Hempty as [Hempty _]; congruence|].
      intros _. cbn [enumerate enumerate_from for_every].
      rewrite (reads_point_upto _ _ _ _ _ Hrec Hk)
        by (rewrite Hnames; left; reflexivity).
      rewrite jet_argument_single by exact Hn. reflexivity.
Qed.

(** X19. For a patient with exactly one sample [reads_plot] divides by
    [patient.n - 1 = 0]: with a coverage on record beside every read count it
    raises [ZeroDivisionError] as soon as there is a read count to plot or a
    sample name to put in the legend, and it returns an empty plot only when
    there is neither. *)
Theorem reads_plot_single_sample (patient : ReadPatient) :
  coverage_recorded patient ->
  patient_n (patient_of patient) = 1%nat ->
  ((Exists (fun k => samples_of patient k <> []) (keys (patient_mut_reads patient))
    \/ patient_sample_names (patient_of patient) <> []) ->
   reads_plot patient = Fail (Builtin ZeroDivisionError))
  /\ (Forall (fun k => samples_of patient k = []) (keys (patient_mut_reads patient)) ->
      patient_sample_names (patient_of patient) = [] ->
      reads_plot patient = Done (mkReadsPlot (mkScatter [] [] []) [])).
Proof.
  intros Hrec Hn.
  destruct (reads_rows_single patient Hrec Hn (keys (patient_mut_reads patient))
              (mkScatter [] [] [])) as [Hempty Hsome];
    [apply List.Forall_forall; auto|].
  split.
  - intros Hdraw. unfold reads_plot, reads_points.
    assert (Hcases : Exists (fun k => samples_of patient k <> [])
                            (keys (patient_mut_reads patient))
                     \/ Forall (fun k => samples_of patient k = [])
                               (keys (patient_mut_reads patient))).
    { clear. induction (keys (patient_mut_reads patient)) as [|k ks IH].
      - right. constructor.
      - destruct (samples_of patient k) as [|name names] eqn:Hk.
        + destruct IH as [IH|IH].
          * left. apply Exists_cons_tl. exact IH.
          * right. constructor; assumption.
        + left. apply Exists_cons_hd. rewrite Hk. discriminate. }
    destruct Hcases as [Hex|Hall].
    + rewrite (Hsome Hex). reflexivity.
    + rewrite (Hempty Hall). cbn [and_then].
      destruct Hdraw as [Hex|Hnames].
      * exfalso. apply List.Exists_exists in Hex as (k & Hin & Hk).
        rewrite List.Forall_forall in Hall. exact (Hk (Hall k Hin)).
      * destruct (patient_sample_names (patient_of patient)) as [|name names];
          [congruence|].
        cbn [enumerate enumerate_from for_every]. unfold legend_entry at 1.
        rewrite jet_argument_single by exact Hn. reflexivity.
  - intros Hall Hnames. unfold reads_plot, reads_points.
    rewrite (Hempty Hall), Hnames. reflexivity.
Qed.

Lemma reads_plot_single_sample_witness :
  reads_plot single_sample_patient = Fail (Builtin ZeroDivisionError).
Proof.
  apply (proj1 (reads_plot_single_sample single_sample_patient
                  ltac:(intros k name Hk Hname; cbn in Hk;
                        destruct Hk as [<- | []]; cbn in Hname;
                        destruct Hname as [<- | []];
                        eexists _, _; split; reflexivity)
                  eq_refl)).
  right. discriminate.
Defined.

Lemma and_then_Done_inv {A B : Type} (m : outcome A) (k : A -> outcome B) (b : B) :
  and_then m k = Done b -> exists a, m = Done a /\ k a = Done b.
Proof. destruct m as [a|e]; cbn [and_then]; [eauto|discriminate]. Qed.

Lemma for_every_invariant {A S : Type} (body : A -> S -> outcome S) (P : S -> Prop) :
  (forall a s s', body a s = Done s' -> P s -> P s') ->
  forall l s s', for_every body l s = Done s' -> P s -> P s'.
Proof.
  intros Hbody. induction l as [|a l IH]; intros s s' Hrun Hs; cbn [for_every] in Hrun.
  - congruence.
  - apply and_then_Done_inv in Hrun as (s1 & H1 & Hrest).
    eapply IH; [exact Hrest|]. eapply Hbody; eassumption.
Qed.

Lemma reads_point_invariant (patient : ReadPatient) (k : string) (entry : nat * string)
    (s s' : Scatter) :
  reads_point patient k entry s = Done s' -> on_log_axes s -> on_log_axes s'.
Proof.
  destruct entry as [sa_idx name]. unfold reads_point, on_log_axes.
  intros Hrun (Hxy & Hyc & Hx & Hy).
  apply and_then_Done_inv in Hrun as (cov & Hcov & Hrun).
  apply and_then_Done_inv in Hrun as (xs & Hxs & Hrun).
  apply and_then_Done_inv in Hrun as (reads & Hreads & Hrun).
  apply and_then_Done_inv in Hrun as (ys & Hys & Hrun).
  apply and_then_Done_inv in Hrun as (level & _ & Hrun).
  injection Hrun as <-. cbn [x_coverages y_mut_reads colors].
  assert (Hxs' : exists x, xs = x_coverages s ++ [x] /\ (0 < x)%Q).
  { destruct (Qlt_bool 0 cov) eqn:Hpos.
    - rewrite Hcov in Hxs. cbn [and_then] in Hxs. injection Hxs as <-.
      exists cov. split; [reflexivity|]. apply Qlt_bool_iff. exact Hpos.
    - injection Hxs as <-. exists 1%Q. split; reflexivity. }
  assert (Hys' : exists y, ys = y_mut_reads s ++ [y] /\ ~ (y == 0)%Q).
  { destruct (Qeq_bool reads 0) eqn:Hz; cbn [negb] in Hys.
    - injection Hys as <-. exists 1%Q. split; [reflexivity|]. discriminate.
    - rewrite Hreads in Hys. cbn [and_then] in Hys. injection Hys as <-.
      exists reads. split; [reflexivity|]. intros Heq.
      apply Qeq_bool_iff in Heq. congruence. }
  destruct Hxs' as (x & -> & Hxpos). destruct Hys' as (y & -> & Hynz).
  rewrite !length_app. cbn [length]. repeat split; try lia.
  - apply Forall_app. split; [exact Hx|]. constructor; [exact Hxpos|constructor].
  - apply Forall_app. split; [exact Hy|]. constructor; [exact Hynz|constructor].
Qed.

(** X20. Whenever [reads_plot] returns, the three lists handed to
    [plt.scatter] have the same length, every plotted coverage is positive and
    no plotted read count is zero, so that no point sits at zero on the
    logarithmic axes. *)
Theorem reads_plot_points_on_log_axes (patient : ReadPatient) (plot : ReadsPlot) :
  reads_plot patient = Done plot -> on_log_axes (points plot).
Proof.
  intros Hrun. unfold reads_plot in Hrun.
  apply and_then_Done_inv in Hrun as (pts & Hpts & Hrun).
  apply and_then_Done_inv in Hrun as (state & _ & Hrun).
  injection Hrun as <-. cbn [points].
  unfold reads_points in Hpts.
  apply (for_every_invariant (reads_row patient) on_log_axes) with (2 := Hpts).
  - intros k s s' Hrow Hs. unfold reads_row in Hrow.
    apply and_then_Done_inv in Hrow as (row & _ & Hrow).
    apply (for_every_invariant (reads_point patient k) on_log_axes) with (2 := Hrow);
      [|exact Hs].
    intros entry s1 s2. apply reads_point_invariant.
  - repeat split; constructor.
Qed.

Lemma reads_plot_points_on_log_axes_witness :
  exists plot,
    reads_plot sample_read_patient = Done plot /\ on_log_axes (points plot).
Proof.
  eexists. split; [reflexivity|].
  apply (reads_plot_points_on_log_axes sample_read_patient _ eq_refl).
Defined.

(** ** [clustered_table] and [hinton] *)

Lemma clustered_cells_as_hinton {settings : int_settings} (lo : list nat) (x_pos : nat)
    (row : list Q) :
  length lo = length row ->
  clustered_column_cells lo x_pos row = hinton_column_cells x_pos (effective_states lo row).
Proof.
  intros Hlen. unfold clustered_column_cells, hinton_column_cells.
  rewrite (imap_as_map_seq _ 0%Q). unfold effective_states at 1 2 3.
  rewrite !length_map, Hlen. apply map_ext_in. intros i Hi. apply in_seq in Hi.
  f_equal.
  rewrite (nth_indep (map (fun sa_idx => nth sa_idx row 0%Q) lo) 0%Q
             (nth 0%nat row 0%Q)) by (rewrite length_map; lia).
  rewrite (map_nth (fun sa_idx => nth sa_idx row 0%Q)). reflexivity.
Qed.

(** X21. [clustered_table] draws the cells that [hinton] draws for the
    matrix whose rows are read in the order of the leaves: with the leaves a
    permutation of the samples, the patches of [clustered_table] are those of
    [hinton] called on the rows [effective_states leave_ordering row] with
    [patient.gene_names] as column labels, column for column and cell for
    cell, whenever the two calls return.  Both return for the dendrogram of
    at least two samples, one leaf per sample name, when a mutation is
    displayed and the figure of [clustered_table] has a positive height. *)
Theorem clustered_table_as_hinton {settings : int_settings} {mpl : matplotlib}
    (patient : Patient) (den_leaves : list nat) (ns : nat) (row0 : list Q)
    (column_labels : option (list string)) (displayed_mutations : option (list nat)) :
  Permutation den_leaves (seq 0 ns) ->
  patient_data patient !! 0%nat = Some row0 ->
  Forall (fun m => (exists row, patient_data patient !! m = Some row
                                /\ length row = ns)
                   /\ (m < length (patient_gene_names patient))%nat)
         (displayed_or_all (patient_data patient) displayed_mutations) ->
  (forall fig fig',
      clustered_table patient den_leaves None column_labels displayed_mutations = Ok fig ->
      hinton (map (effective_states (leave_ordering den_leaves)) (patient_data patient))
             None (Some (patient_gene_names patient)) displayed_mutations = Ok fig' ->
      patches fig = patches fig')
  /\ ((2 <= ns)%nat ->
      length (patient_sample_names patient) = ns ->
      row0 <> [] \/ column_labels <> None ->
      displayed_or_all (patient_data patient) displayed_mutations <> [] ->
      exists fig fig',
        clustered_table patient den_leaves None column_labels displayed_mutations = Ok fig
        /\ hinton (map (effective_states (leave_ordering den_leaves)) (patient_data patient))
                  None (Some (patient_gene_names patient)) displayed_mutations = Ok fig'
        /\ patches fig = patches fig').
Proof.
  intros Hperm Hrow0 Hall.
  set (data := patient_data patient) in *.
  set (lo := leave_ordering den_leaves) in *.
  set (data' := map (effective_states lo) data).
  destruct (leave_ordering_bounds _ _ Hperm) as [Hlen Hlo]. fold lo in Hlen, Hlo.
  assert (Hdisp : displayed_or_all data' displayed_mutations
                  = displayed_or_all data displayed_mutations).
  { unfold displayed_or_all, data'. rewrite length_map. reflexivity. }
  set (displayed := displayed_or_all data displayed_mutations) in *.
  destruct (clustered_priorities_count patient den_leaves ns displayed Hperm)
    as (pr & Hpr & Hlenpr & Hval).
  { eapply Forall_impl; [exact Hall|]. cbn beta. tauto. }
  fold lo in Hpr, Hval. fold data in Hlenpr, Hval.
  destruct (hinton_priorities_count data' displayed) as (pr' & Hpr' & Hlenpr' & Hval').
  { eapply Forall_impl; [exact Hall|]. cbn beta. intros m [(row & Hrow & _) _].
    unfold data'. rewrite length_map. eapply lookup_lt_Some. exact Hrow. }
  assert (Hsame : pr' = pr).
  { apply list_eq. intros k.
    destruct (Nat.lt_ge_cases k (length data)) as [Hk|Hk].
    - rewrite Hval by exact Hk.
      rewrite Hval' by (unfold data'; rewrite length_map; exact Hk).
      unfold value_of_row, data'. rewrite list_lookup_fmap.
      destruct (data !! k); reflexivity.
    - rewrite !lookup_ge_None_2; [reflexivity|lia|].
      rewrite Hlenpr'. unfold data'. rewrite length_map. exact Hk. }
  subst pr'.
  destruct (order_by_name pr (patient_gene_names patient) displayed)
    as (order & Horder & Hpo & _).
  { eapply Forall_impl; [exact Hall|]. cbn beta. intros m [(row & Hrow & _) Hname].
    split; [|exact Hname]. rewrite Hlenpr. eapply lookup_lt_Some; eassumption. }
  pose proof (Permutation_Forall Hpo Hall) as Hall'.
  assert (Hcols : for_each (clustered_column patient lo) (enumerate order) []
                  = Ok ([] ++ concat (imap (fun x m =>
                            clustered_column_cells lo (0 + x) (nth m data [])) order))).
  { apply clustered_columns_exact.
    eapply Forall_impl; [exact Hall'|]. cbn beta. intros m [(row & Hrow & Hns) _].
    exists row. split; [exact Hrow|]. intros i Hi. exists (nth i lo 0%nat).
    split; [apply lookup_nth; lia|]. rewrite Hns. apply Hlo. lia. }
  assert (Hcols' : for_each (hinton_column data') (enumerate order) []
                   = Ok ([] ++ concat (imap (fun x m =>
                             hinton_column_cells (0 + x) (nth m data' [])) order))).
  { apply hinton_columns_loop.
    eapply Forall_impl; [exact Hall'|]. cbn beta. intros m [(row & Hrow & _) _].
    unfold data'. rewrite length_map. eapply lookup_lt_Some. exact Hrow. }
  destruct (clustered_column_labels_loop patient order 0%nat []) as (extra & Hextra).
  { eapply Forall_impl; [exact Hall'|]. cbn beta. intros m [(row & Hrow & _) Hname].
    split; [eauto|exact Hname]. }
  assert (Hlabels' : Forall (fun m => (m < length data')%nat
                                      /\ (m < length (patient_gene_names patient))%nat)
                            order).
  { eapply Forall_impl; [exact Hall'|]. cbn beta. intros m [(row & Hrow & _) Hname].
    split; [|exact Hname]. unfold data'. rewrite length_map.
    eapply lookup_lt_Some. exact Hrow. }
  assert (Hrow0' : data' !! 0%nat = Some (effective_states lo row0)).
  { unfold data'. rewrite list_lookup_fmap, Hrow0. reflexivity. }
  assert (Hcells : concat (imap (fun x m =>
                     clustered_column_cells lo (0 + x) (nth m data [])) order)
                   = concat (imap (fun x m =>
                       hinton_column_cells (0 + x) (nth m data' [])) order)).
  { f_equal. apply imap_ext. intros x m Hx. cbn beta.
    destruct (Forall_lookup_1 _ _ _ _ Hall' Hx) as [(row & Hrow & Hns) _].
    rewrite (nth_lookup_Some _ _ [] _ Hrow).
    assert (Hrow' : data' !! m = Some (effective_states lo row))
      by (unfold data'; rewrite list_lookup_fmap, Hrow; reflexivity).
    rewrite (nth_lookup_Some _ _ [] _ Hrow').
    apply clustered_cells_as_hinton. congruence. }
  (* what follows the figure and the dendrogram in [clustered_table] *)
  assert (Hdrawn : forall x_length y_length,
             exists texts,
               (let* priorities := clustered_priorities patient lo displayed in
                let* order := clustered_order patient priorities displayed in
                let* patches :=
                  for_each (clustered_column patient lo) (enumerate order) [] in
                let* texts := Ok [] in
                let* texts :=
                  match column_labels with
                  | Some _ =>
                      let* order := clustered_order patient priorities displayed in
                      for_each (clustered_column_label patient) (enumerate order) texts
                  | None => Ok texts
                  end in
                Ok (mkFigure x_length y_length patches texts))
               = Ok (mkFigure x_length y_length
                       (concat (imap (fun x m =>
                          clustered_column_cells lo (0 + x) (nth m data [])) order))
                       texts)).
  { intros xl yl. rewrite Hpr. cbn [bind].
    rewrite clustered_order_hinton_order, Horder. cbn [bind].
    rewrite Hcols. cbn [bind].
    destruct column_labels as [cl|]; [unfold enumerate in *; rewrite Hextra|];
      cbn [bind app]; eexists; reflexivity. }
  (* what follows the figure in [hinton] *)
  assert (Hdrawn' : forall x_length y_length,
             exists texts,
               (let* priorities := hinton_priorities data' displayed in
                let* order :=
                  hinton_order priorities (Some (patient_gene_names patient)) displayed in
                let* patches := for_each (hinton_column data') (enumerate order) [] in
                let* texts := Ok [] in
                let* texts :=
                  let* order :=
                    hinton_order priorities (Some (patient_gene_names patient))
                                 displayed in
                  for_each (hinton_column_label data' (patient_gene_names patient))
                           (enumerate order) texts in
                Ok (mkFigure x_length y_length patches texts))
               = Ok (mkFigure x_length y_length
                       (concat (imap (fun x m =>
                          hinton_column_cells (0 + x) (nth m data' [])) order))
                       texts)).
  { intros xl yl. rewrite Hpr'. cbn [bind]. rewrite Horder. cbn [bind].
    rewrite Hcols'. cbn [bind]. unfold enumerate.
    rewrite (hinton_column_labels_exact data' _ order 0 _ Hlabels'). cbn [bind app].
    eexists. reflexivity. }
  split.
  - intros fig fig' Hfig.
    unfold clustered_table in Hfig. fold data in Hfig. fold displayed in Hfig.
    rewrite (index_Ok _ _ _ Hrow0) in Hfig. cbn [bind] in Hfig.
    destruct (plt_figure _ _) as [[]|]; [|discriminate]. cbn [bind] in Hfig.
    destruct (sch_dendrogram _ _) as [leaves|] eqn:Hleaves; [|discriminate].
    apply sch_dendrogram_Ok_inv in Hleaves as (-> & _ & _).
    cbn [bind] in Hfig. fold lo in Hfig.
    match type of Hfig with
    | context [mkFigure ?xl ?yl _ _] => destruct (Hdrawn xl yl) as (texts & Hrun)
    end.
    cbn [bind] in Hrun. rewrite Hrun in Hfig. injection Hfig as <-. clear Hrun.
    intros Hfig'. unfold hinton in Hfig'. fold data' in Hfig'. rewrite Hdisp in Hfig'.
    rewrite (index_Ok _ _ _ Hrow0') in Hfig'. cbn [bind] in Hfig'.
    destruct (plt_figure _ _) as [[]|]; [|discriminate]. cbn [bind] in Hfig'.
    match type of Hfig' with
    | context [mkFigure ?xl ?yl _ _] => destruct (Hdrawn' xl yl) as (texts' & Hrun')
    end.
    cbn [bind] in Hrun'. rewrite Hrun' in Hfig'. injection Hfig' as <-.
    cbn [patches]. exact Hcells.
  - intros Hns Hnames Hheight Hsome.
    assert (Hfig : exists fig,
               clustered_table patient den_leaves None column_labels displayed_mutations
               = Ok fig
               /\ patches fig
                  = concat (imap (fun x m =>
                      clustered_column_cells lo (0 + x) (nth m data [])) order)).
    { unfold clustered_table. fold data. fold displayed.
      rewrite (index_Ok _ _ _ Hrow0). cbn [bind].
      rewrite plt_figure_positive;
        [|apply (clustered_width_positive None)
         |apply inches_positive, table_height_positive; exact Hheight].
      cbn [bind].
      rewrite sch_dendrogram_leaves by (rewrite Hnames; assumption).
      cbn [bind]. fold lo.
      match goal with
      | |- context [mkFigure ?xl ?yl _ _] => destruct (Hdrawn xl yl) as (texts & Hrun)
      end.
      cbn [bind] in Hrun. rewrite Hrun. eexists. split; reflexivity. }
    assert (Hfig' : exists fig',
               hinton data' None (Some (patient_gene_names patient)) displayed_mutations
               = Ok fig'
               /\ patches fig'
                  = concat (imap (fun x m =>
                      hinton_column_cells (0 + x) (nth m data' [])) order)).
    { unfold hinton. fold data'. rewrite Hdisp.
      rewrite (index_Ok _ _ _ Hrow0'). cbn [bind].
      rewrite plt_figure_positive;
        [|apply inches_positive, (hinton_width_positive None); left; exact Hsome
         |apply inches_positive,
                (table_height_positive _ (Some (patient_gene_names patient)));
          right; discriminate].
      cbn [bind].
      match goal with
      | |- context [mkFigure ?xl ?yl _ _] => destruct (Hdrawn' xl yl) as (texts' & Hrun')
      end.
      cbn [bind] in Hrun'. rewrite Hrun'. eexists. split; reflexivity. }
    destruct Hfig as (fig & Hfig & Hpatches).
    destruct Hfig' as (fig' & Hfig' & Hpatches').
    exists fig, fig'. split; [exact Hfig|]. split; [exact Hfig'|].
    rewrite Hpatches, Hpatches'. exact Hcells.
Qed.

Lemma clustered_table_as_hinton_witness :
  exists fig fig',
    @clustered_table sample_settings sample_matplotlib
      scenario_B scenario_B_leaves None None None = Ok fig
    /\ @hinton sample_settings sample_matplotlib
         [[@NEG_UNKNOWN sample_settings; PRESENT; ABSENT]]
         None (Some ["TP53"]%string) None = Ok fig'
    /\ patches fig = patches fig'.
Proof.
  apply (@clustered_table_as_hinton sample_settings sample_matplotlib
           scenario_B scenario_B_leaves 3%nat
           [PRESENT; ABSENT; @NEG_UNKNOWN sample_settings] None None).
  - cbn. apply perm_swap.
  - reflexivity.
  - cbn. constructor; [|constructor].
    split; [eexists; split; reflexivity|cbn; lia].
  - lia.
  - reflexivity.
  - left. discriminate.
  - discriminate.
Defined.
